(** * Chat relay backend: connection registries, handoff and message routing

    A shallow embedding of [main.py] and [ai_handler.py].  The relational
    store is a record of row lists, the two connection registries and the
    handoff set are the in-memory objects of the program, and every call that
    leaves the process (websocket sends, sleeps, calls of the completion
    provider) is recorded in a trace and answered by an environment. *)

From Stdlib Require Import String Ascii NArith List Lia.
From stdpp Require Import gmap strings list sorting.

Local Open Scope string_scope.

(** ** Python values and strings *)

(** The JSON scalars a request body can carry in an optional field. *)
Inductive pyval :=
| PNone
| PBool (b : bool)
| PInt (z : Z)
| PStr (s : string).

(** Python truthiness ([if v], [not v]). *)
Definition truthy (v : pyval) : bool :=
  match v with
  | PNone => false
  | PBool b => b
  | PInt z => negb (Z.eqb z 0)
  | PStr s => negb (String.eqb s "")
  end.

(** [v is None]. *)
Definition is_none (v : pyval) : bool :=
  match v with PNone => true | _ => false end.

(** Truthiness of an optional string ([None] and [""] are falsy). *)
Definition str_truthy (o : option string) : bool :=
  match o with
  | None => false
  | Some s => negb (String.eqb s "")
  end.

(** [pat in s]. *)
Definition str_contains (pat s : string) : bool :=
  match String.index 0 pat s with Some _ => true | None => false end.

(** A Python [str] is a sequence of code points; the strings of this
    development are their UTF-8 bytes.  A character is a byte that is not a
    continuation byte ([10xxxxxx]) together with the continuation bytes that
    follow it. *)
Definition is_continuation (c : ascii) : bool :=
  (128 <=? N_of_ascii c)%N && (N_of_ascii c <? 192)%N.

(** [len(s)]. *)
Fixpoint char_count (s : string) : nat :=
  match s with
  | "" => 0
  | String c rest =>
      (if is_continuation c then 0 else 1) + char_count rest
  end.

(** [s[-n:]] for [n > 0]: the suffix that starts at the [n]-th character
    from the end, or all of [s] when it has no more than [n] characters. *)
Fixpoint last_chars (n : nat) (s : string) : string :=
  match s with
  | "" => ""
  | String c rest =>
      if negb (is_continuation c) && (char_count (String c rest) <=? n)%nat
      then String c rest
      else last_chars n rest
  end.

(** [s[-6:]]: the last six characters, or all of [s] when it is shorter. *)
Definition last6 (s : string) : string := last_chars 6 s.

Definition dquote : string := String "034"%char EmptyString.

(** ** Timestamps

    A naive [datetime]: the fields Python stores.  [isoformat] prints
    [YYYY-MM-DDTHH:MM:SS], followed by [.ffffff] when the microsecond field
    is not zero. *)

Record Datetime := {
  year : N; month : N; day : N;
  hour : N; minute : N; second : N; microsecond : N
}.

(** The ranges the [datetime] type enforces. *)
Definition dt_valid (d : Datetime) : Prop :=
  (1 <= year d <= 9999 /\ 1 <= month d <= 12 /\ 1 <= day d <= 31 /\
   hour d < 24 /\ minute d < 60 /\ second d < 60 /\ microsecond d < 1000000)%N.

Definition digit_char (d : N) : ascii := ascii_of_N (48 + d).

(** [width] decimal digits of [n], zero padded ([%0<width>d] for a value
    that fits). *)
Fixpoint zpad (width : nat) (n : N) : string :=
  match width with
  | O => ""
  | S w => zpad w (n / 10) +:+ String (digit_char (n mod 10)) ""
  end.

Definition isoformat (d : Datetime) : string :=
  zpad 4 (year d) +:+ "-" +:+ zpad 2 (month d) +:+ "-" +:+ zpad 2 (day d) +:+
  "T" +:+ zpad 2 (hour d) +:+ ":" +:+ zpad 2 (minute d) +:+ ":" +:+
  zpad 2 (second d) +:+
  (if (microsecond d =? 0)%N then "" else "." +:+ zpad 6 (microsecond d)).

(** Lexicographic chaining of comparisons. *)
Definition lex (c1 c2 : comparison) : comparison :=
  match c1 with Eq => c2 | _ => c1 end.

(** Chronological comparison, the order of a [DateTime] column. *)
Definition dt_compare (a b : Datetime) : comparison :=
  lex (year a ?= year b)%N
  (lex (month a ?= month b)%N
  (lex (day a ?= day b)%N
  (lex (hour a ?= hour b)%N
  (lex (minute a ?= minute b)%N
  (lex (second a ?= second b)%N
       (microsecond a ?= microsecond b)%N))))).

Definition dt_leb (a b : Datetime) : bool :=
  match dt_compare a b with Gt => false | _ => true end.

(** ** Stable sorting

    [ORDER BY] and [list.sort] are modelled by a stable insertion sort:
    an element is placed before the first element it may precede, so
    elements that compare equal keep their original order. *)

Section Sorting.
Context {A : Type} (le : A -> A -> bool).

Fixpoint insert_by (x : A) (l : list A) : list A :=
  match l with
  | [] => [x]
  | y :: l' => if le x y then x :: y :: l' else y :: insert_by x l'
  end.

Definition sort_by (l : list A) : list A := foldr insert_by [] l.
End Sorting.

(** ** The relational store *)

Record User := {
  user_id : nat;
  user_chat_id : string;
  user_email : option string;
  user_phone : option string
}.

Record Thread := {
  thread_id : nat;
  thread_user_id : nat;
  thread_created_at : Datetime
}.

Record Message := {
  message_id : nat;
  message_thread_id : nat;
  message_sender : string;
  message_content : string;
  message_timestamp : Datetime
}.

Record OpenAIThread := {
  oat_id : nat;
  oat_user_id : nat;
  openai_thread_id : string;
  oat_created_at : Datetime
}.

(** Tables hold their rows in insertion order. *)
Record DB := {
  users : list User;
  threads : list Thread;
  messages : list Message;
  openai_threads : list OpenAIThread
}.

Definition empty_db : DB :=
  {| users := []; threads := []; messages := []; openai_threads := [] |}.

(** The next value of an autoincrement primary key. *)
Definition next_id {A : Type} (key : A -> nat) (rows : list A) : nat :=
  S (foldr Nat.max 0 (map key rows)).

(** [select(User).where(User.chat_id == chat_id)] then [.first()]. *)
Definition select_user (chat_id : string) (d : DB) : option User :=
  head (filter (fun u => user_chat_id u = chat_id) (users d)).

(** [select(Thread).where(Thread.user_id == uid)
      .order_by(Thread.created_at.desc())] then [.first()]. *)
Definition threads_of (uid : nat) (d : DB) : list Thread :=
  sort_by (fun a b => dt_leb (thread_created_at b) (thread_created_at a))
          (filter (fun t => thread_user_id t = uid) (threads d)).

Definition latest_thread (uid : nat) (d : DB) : option Thread :=
  head (threads_of uid d).

(** [select(Message).where(Message.thread_id == tid)
      .order_by(Message.timestamp.asc())] then [.all()]. *)
Definition messages_of (tid : nat) (d : DB) : list Message :=
  sort_by (fun a b => dt_leb (message_timestamp a) (message_timestamp b))
          (filter (fun m => message_thread_id m = tid) (messages d)).

(** [select(OpenAIThread).where(OpenAIThread.user_id == uid)] then
    [.first()]. *)
Definition select_openai_thread (uid : nat) (d : DB) : option OpenAIThread :=
  head (filter (fun t => oat_user_id t = uid) (openai_threads d)).

(** Rows are stamped by the column default
    [datetime.utcnow() + timedelta(hours=1)], read when the row is added. *)
Definition add_user (chat_id : string) (d : DB) : User * DB :=
  let u := {| user_id := next_id user_id (users d); user_chat_id := chat_id;
              user_email := None; user_phone := None |} in
  (u, {| users := users d ++ [u]; threads := threads d;
         messages := messages d; openai_threads := openai_threads d |}).

Definition add_thread (uid : nat) (now : Datetime) (d : DB) : Thread * DB :=
  let t := {| thread_id := next_id thread_id (threads d);
              thread_user_id := uid; thread_created_at := now |} in
  (t, {| users := users d; threads := threads d ++ [t];
         messages := messages d; openai_threads := openai_threads d |}).

Definition add_message (tid : nat) (sender content : string) (now : Datetime)
    (d : DB) : DB :=
  let m := {| message_id := next_id message_id (messages d);
              message_thread_id := tid; message_sender := sender;
              message_content := content; message_timestamp := now |} in
  {| users := users d; threads := threads d;
     messages := messages d ++ [m]; openai_threads := openai_threads d |}.

Definition add_openai_thread (uid : nat) (handle : string) (now : Datetime)
    (d : DB) : OpenAIThread * DB :=
  let t := {| oat_id := next_id oat_id (openai_threads d); oat_user_id := uid;
              openai_thread_id := handle; oat_created_at := now |} in
  (t, {| users := users d; threads := threads d; messages := messages d;
         openai_threads := openai_threads d ++ [t] |}).

(** ** Exceptions, provider objects and the trace *)

Inductive Exn :=
| HTTPException (status : nat) (detail : string)
| BadRequestError (msg : string)      (* a subclass of OpenAIError *)
| OpenAIError (msg : string)          (* any other error of the client *)
| WebSocketDisconnect
| PyException (msg : string).         (* any other Exception *)

(** [str(e)]. *)
Definition exn_str (e : Exn) : string :=
  match e with
  | HTTPException _ detail => detail
  | BadRequestError msg => msg
  | OpenAIError msg => msg
  | WebSocketDisconnect => ""
  | PyException msg => msg
  end.

Definition WebSocket := nat.

(** The dict handed to [json.dumps] before [send_text]: its string fields
    in the order the source writes them. *)
Definition Frame := list (string * string).

Record Run := { run_id : string; run_status : string }.

Record ToolOutput := { tool_call_id : string; output : string }.

(** A provider message: its content blocks, [Some] text for a text block. *)
Record AssistantMessage := { am_content : list (option string) }.

Inductive Event :=
| EvAccept (ws : WebSocket)
| EvClose (ws : WebSocket) (code : nat)
| EvSendText (ws : WebSocket) (frame : Frame)
| EvSendFailed (ws : WebSocket) (frame : Frame)
| EvSleep (seconds : nat)
| EvThreadsCreate (content : string)
| EvRunsList (thread : string)
| EvMessagesCreate (thread content : string)
| EvSubmitToolOutputs (thread run : string) (outputs : list ToolOutput)
| EvCreateAndPoll (thread : string) (assistant : option string)
| EvMessagesList (thread run : string).

(** What the program cannot decide: configuration, the clock, the fate of
    a websocket send and the answers of the completion provider.  Answers
    may depend on everything that happened so far. *)
Record Env := {
  OPENAI_KEY : option string;
  ASSISTANT_ID : option string;
  utcnow_plus_hour : nat -> Datetime;
  send_text_ans : list Event -> WebSocket -> Frame -> option Exn;
  threads_create_ans : list Event -> string -> Exn + string;
  runs_list_ans : list Event -> string -> Exn + list Run;
  messages_create_ans : list Event -> string -> string -> Exn + unit;
  submit_tool_outputs_ans :
    list Event -> string -> string -> list ToolOutput -> Exn + unit;
  create_and_poll_ans : list Event -> string -> Exn + Run;
  messages_list_ans : list Event -> string -> string ->
                      Exn + list AssistantMessage;
  (* re.sub(r'【[^】]+】', '', content) *)
  re_sub_citations : string -> string
}.

(** ** Program state *)

Record World := {
  db : DB;
  clock_reads : nat;
  user_connections : gmap string WebSocket;
  manager_connections : list WebSocket;
  active_manager_chats : gset string;
  trace : list Event
}.

Definition set_db (f : DB -> DB) (w : World) : World :=
  {| db := f (db w); clock_reads := clock_reads w;
     user_connections := user_connections w;
     manager_connections := manager_connections w;
     active_manager_chats := active_manager_chats w; trace := trace w |}.

Definition tick (w : World) : World :=
  {| db := db w; clock_reads := S (clock_reads w);
     user_connections := user_connections w;
     manager_connections := manager_connections w;
     active_manager_chats := active_manager_chats w; trace := trace w |}.

Definition set_user_connections
    (f : gmap string WebSocket -> gmap string WebSocket) (w : World) : World :=
  {| db := db w; clock_reads := clock_reads w;
     user_connections := f (user_connections w);
     manager_connections := manager_connections w;
     active_manager_chats := active_manager_chats w; trace := trace w |}.

Definition set_manager_connections
    (f : list WebSocket -> list WebSocket) (w : World) : World :=
  {| db := db w; clock_reads := clock_reads w;
     user_connections := user_connections w;
     manager_connections := f (manager_connections w);
     active_manager_chats := active_manager_chats w; trace := trace w |}.

Definition set_active_manager_chats
    (f : gset string -> gset string) (w : World) : World :=
  {| db := db w; clock_reads := clock_reads w;
     user_connections := user_connections w;
     manager_connections := manager_connections w;
     active_manager_chats := f (active_manager_chats w); trace := trace w |}.

Definition log_event (e : Event) (w : World) : World :=
  {| db := db w; clock_reads := clock_reads w;
     user_connections := user_connections w;
     manager_connections := manager_connections w;
     active_manager_chats := active_manager_chats w;
     trace := trace w ++ [e] |}.

(** ** The monad of handlers: state, exceptions and divergence *)

Inductive Res (A : Type) :=
| Ok (a : A) (w : World)
| Raise (e : Exn) (w : World)
| Diverge.
Arguments Ok {A} a w.
Arguments Raise {A} e w.
Arguments Diverge {A}.

Definition M (A : Type) : Type := World -> Res A.

Global Instance M_ret : MRet M := fun A a w => Ok a w.

Global Instance M_bind : MBind M := fun A B f m w =>
  match m w with
  | Ok a w' => f a w'
  | Raise e w' => Raise e w'
  | Diverge => Diverge
  end.

Definition raise {A : Type} (e : Exn) : M A := fun w => Raise e w.

Definition diverge {A : Type} : M A := fun _ => Diverge.

Definition get_world : M World := fun w => Ok w w.

Definition modify (f : World -> World) : M unit := fun w => Ok tt (f w).

(** [try: m except <class> as e: h e]; [h] re-raises what its clause does
    not catch. *)
Definition try_catch {A : Type} (m : M A) (h : Exn -> M A) : M A := fun w =>
  match m w with
  | Raise e w' => h e w'
  | r => r
  end.

(** A call that leaves the process: logged, then answered. *)
Definition external {A : Type} (ev : Event) (ans : list Event -> Exn + A)
    : M A := fun w =>
  match ans (trace w) with
  | inr a => Ok a (log_event ev w)
  | inl e => Raise e (log_event ev w)
  end.

Definition sleep (seconds : nat) : M unit := modify (log_event (EvSleep seconds)).

Section Primitives.
Context (E : Env).

(** Evaluation of a timestamp column default. *)
Definition now : M Datetime := fun w =>
  Ok (utcnow_plus_hour E (clock_reads w)) (tick w).

Definition accept (websocket : WebSocket) : M unit :=
  modify (log_event (EvAccept websocket)).

Definition close (websocket : WebSocket) (code : nat) : M unit :=
  modify (log_event (EvClose websocket code)).

(** [websocket.send_text(json.dumps(frame))]. *)
Definition send_text (websocket : WebSocket) (frame : Frame) : M unit :=
  fun w =>
    match send_text_ans E (trace w) websocket frame with
    | None => Ok tt (log_event (EvSendText websocket frame) w)
    | Some e => Raise e (log_event (EvSendFailed websocket frame) w)
    end.

Definition db_add_user (chat_id : string) : M User :=
  w ← get_world;
  let '(u, d) := add_user chat_id (db w) in
  modify (set_db (fun _ => d));; mret u.

Definition db_add_thread (uid : nat) : M Thread :=
  t ← now;
  w ← get_world;
  let '(th, d) := add_thread uid t (db w) in
  modify (set_db (fun _ => d));; mret th.

Definition db_add_message (tid : nat) (sender content : string) : M unit :=
  t ← now; modify (set_db (add_message tid sender content t)).

Definition db_add_openai_thread (uid : nat) (handle : string)
    : M OpenAIThread :=
  t ← now;
  w ← get_world;
  let '(th, d) := add_openai_thread uid handle t (db w) in
  modify (set_db (fun _ => d));; mret th.
End Primitives.

(** ** The user connection registry *)

Module UserConnectionManager.
Section Registry.
Context (E : Env).

Definition connect (chat_id : string) (websocket : WebSocket) : M unit :=
  accept websocket;;
  modify (set_user_connections (<[chat_id := websocket]>)).

Definition disconnect (chat_id : string) : M unit :=
  modify (set_user_connections (fun conns =>
    match conns !! chat_id with
    | Some _ => delete chat_id conns
    | None => conns
    end)).

Definition send_personal_message (message : Frame) (chat_id : string)
    : M unit :=
  w ← get_world;
  match user_connections w !! chat_id with
  | Some websocket => send_text E websocket message
  | None => mret tt
  end.
End Registry.
End UserConnectionManager.

(** ** The manager connection registry *)

Module ManagerConnectionManager.
Section Registry.
Context (E : Env).

(** [list.remove]: drops the first occurrence. *)
Fixpoint remove_first (x : WebSocket) (l : list WebSocket)
    : list WebSocket :=
  match l with
  | [] => []
  | y :: l' => if Nat.eqb x y then l' else y :: remove_first x l'
  end.

Definition connect (websocket : WebSocket) : M unit :=
  accept websocket;;
  modify (set_manager_connections (fun conns => (conns ++ [websocket])%list)).

Definition disconnect (websocket : WebSocket) : M unit :=
  modify (set_manager_connections (fun conns =>
    if existsb (Nat.eqb websocket) conns
    then remove_first websocket conns else conns)).

Fixpoint broadcast_to (conns : list WebSocket) (message : Frame)
    : M unit :=
  match conns with
  | [] => mret tt
  | connection :: rest =>
      try_catch (send_text E connection message) (fun _ => mret tt);;
      broadcast_to rest message
  end.

Definition broadcast (message : Frame) : M unit :=
  w ← get_world; broadcast_to (manager_connections w) message.
End Registry.
End ManagerConnectionManager.

(** ** ai_handler.py *)

Module ai_handler.
Section Handler.
Context (E : Env).

Definition max_attempts : nat := 5.

Definition in_progress (run : Run) : bool :=
  String.eqb (run_status run) "in_progress".

Definition runs_list (thread : string) : M (list Run) :=
  external (EvRunsList thread) (fun tr => runs_list_ans E tr thread).

Definition messages_create (thread content : string) : M unit :=
  external (EvMessagesCreate thread content)
           (fun tr => messages_create_ans E tr thread content).

Definition submit_tool_outputs (thread run : string)
    (outputs : list ToolOutput) : M unit :=
  external (EvSubmitToolOutputs thread run outputs)
           (fun tr => submit_tool_outputs_ans E tr thread run outputs).

Definition create_thread (question : string) : M string :=
  external (EvThreadsCreate question)
           (fun tr => threads_create_ans E tr question).

(** The nested [check_active_runs]: polls until no run is in progress. *)
Fixpoint check_active_runs (fuel : nat) (thread : string) : M bool :=
  match fuel with
  | O => diverge
  | S fuel' =>
      runs ← runs_list thread;
      let active_runs := List.filter in_progress runs in
      match active_runs with
      | [] => mret true
      | _ => sleep 1;; check_active_runs fuel' thread
      end
  end.

(** The first [while True] of [add_user_message]; the value is what the
    variable [active_runs] holds when the loop is left. *)
Fixpoint wait_active_runs (fuel : nat) (thread : string)
    : M (list Run) :=
  match fuel with
  | O => diverge
  | S fuel' =>
      runs ← runs_list thread;
      let active_runs := List.filter in_progress runs in
      match active_runs with
      | [] => mret active_runs
      | _ => sleep 1;; wait_active_runs fuel' thread
      end
  end.

(** [while attempt < max_attempts]; [None] when the function returned
    from inside the loop, [Some attempt] when the loop ran out. *)
Fixpoint send_attempts (budget attempt : nat)
    (thread user_message : string) : M (option nat) :=
  if (attempt <? max_attempts)%nat then
    match budget with
    | O => diverge
    | S budget' =>
        try_catch (messages_create thread user_message;; mret None)
          (fun e =>
             match e with
             | BadRequestError msg =>
                 if str_contains "Can't add messages to" msg
                 then sleep 1;;
                      send_attempts budget' (S attempt) thread user_message
                 else raise e
             | _ => raise e
             end)
    end
  else mret (Some attempt).

(** [json.dumps({"result": "success"})]. *)
Definition result_success : string :=
  "{" +:+ dquote +:+ "result" +:+ dquote +:+ ": " +:+
  dquote +:+ "success" +:+ dquote +:+ "}".

(** [for run in active_runs]: one list of tool outputs grows over the
    iterations and is submitted whole each time. *)
Fixpoint force_complete (thread : string) (active_runs : list Run)
    (tool_outputs : list ToolOutput) : M unit :=
  match active_runs with
  | [] => mret tt
  | run :: rest =>
      let tool_outputs :=
        (tool_outputs ++ [{| tool_call_id := run_id run;
                             output := result_success |}])%list in
      try_catch (submit_tool_outputs thread (run_id run) tool_outputs)
                (fun e => raise e);;
      force_complete thread rest tool_outputs
  end.

Definition add_user_message (fuel : nat) (thread user_message : string)
    : M unit :=
  try_catch
    (active_runs ← wait_active_runs fuel thread;
     r ← send_attempts max_attempts 0 thread user_message;
     match r with
     | None => mret tt
     | Some attempt =>
         if (max_attempts <=? attempt)%nat then
           force_complete thread active_runs [];;
           settled ← check_active_runs fuel thread;
           if settled : bool
           then try_catch (messages_create thread user_message)
                          (fun e => raise e)
           else mret tt
         else mret tt
     end)
    (fun e => raise e).

Definition remove_square_brackets (content : string) : string :=
  re_sub_citations E content.

(** Only the [content] entry of the dict is read afterwards: the text
    of every block, an [AttributeError] for a block without text (its
    message, which begins with the name of the block's class, is cut to
    what does not depend on the class). *)
Fixpoint message_to_dict_content (blocks : list (option string))
    : M (list string) :=
  match blocks with
  | [] => mret []
  | Some text :: rest =>
      texts ← message_to_dict_content rest; mret (text :: texts)
  | None :: _ =>
      raise (PyException "object has no attribute 'text'")
  end.

Definition message_to_dict (message : AssistantMessage)
    : M (list string) :=
  message_to_dict_content (am_content message).

Fixpoint messages_to_dicts (page : list AssistantMessage)
    : M (list (list string)) :=
  match page with
  | [] => mret []
  | message :: rest =>
      d ← message_to_dict message;
      ds ← messages_to_dicts rest;
      mret (d :: ds)
  end.

(** [for message in messages_list:
       response_text = message['content'][0]['text']]. *)
Fixpoint last_response_text (response_text : string)
    (messages_list : list (list string)) : M string :=
  match messages_list with
  | [] => mret response_text
  | [] :: _ => raise (PyException "list index out of range")
  | (text :: _) :: rest => last_response_text text rest
  end.

Definition create_run (thread : string) : M string :=
  try_catch
    (run ← external (EvCreateAndPoll thread (ASSISTANT_ID E))
                    (fun tr => create_and_poll_ans E tr thread);
     messages_page ← external (EvMessagesList thread (run_id run))
                    (fun tr => messages_list_ans E tr thread (run_id run));
     messages_list ← messages_to_dicts messages_page;
     response_text ← last_response_text "" messages_list;
     mret (remove_square_brackets response_text))
    (fun e => raise e).
End Handler.
End ai_handler.

(** ** main.py *)

(** What [receive_text] followed by [json.loads] yields: an object with
    string fields, or a text that does not parse to one. *)
Inductive Inbound :=
| Text (payload : gmap string string)
| Malformed.

(** The body of a manager-send request, its fields at the types of the
    interface; [None] and [PNone] stand for a field that is absent or null,
    which [payload.get] does not tell apart. *)
Record ManagerPayload := {
  p_chat_id : option string;
  p_message : option string;
  p_action : pyval;
  p_managerStatus : pyval
}.

Record HistoryEntry := {
  h_sender : string;
  h_text : string;
  h_timestamp : string
}.

Record ChatEntry := {
  c_id : string;
  c_userName : string;
  c_messages : list HistoryEntry
}.

Definition history_of (messages_list : list Message) : list HistoryEntry :=
  map (fun msg => {| h_sender := message_sender msg;
                     h_text := message_content msg;
                     h_timestamp := isoformat (message_timestamp msg) |})
      messages_list.

(** The sort key of the listing:
    [chat["messages"][-1]["timestamp"] if chat["messages"] else ""]. *)
Definition chat_key (chat : ChatEntry) : string :=
  match last (c_messages chat) with
  | Some entry => h_timestamp entry
  | None => ""
  end.

(** The loop of [get_manager_chats] over the user rows. *)
Fixpoint collect_chats (d : DB) (us : list User) : list ChatEntry :=
  match us with
  | [] => []
  | user :: rest =>
      match latest_thread (user_id user) d with
      | Some thread =>
          {| c_id := user_chat_id user;
             c_userName := last6 (user_chat_id user);
             c_messages := history_of (messages_of (thread_id thread) d) |}
          :: collect_chats d rest
      | None => collect_chats d rest
      end
  end.

(** [chats.sort(key=..., reverse=True)]. *)
Definition sort_chats (chats : list ChatEntry) : list ChatEntry :=
  sort_by (fun a b => String.leb (chat_key b) (chat_key a)) chats.

(** The status line a handler's outcome is answered with. *)
Definition http_status {A : Type} (r : Res A) : option nat :=
  match r with
  | Ok _ _ => Some 200
  | Raise (HTTPException status _) _ => Some status
  | Raise _ _ => Some 500
  | Diverge => None
  end.

Definition client_error (status : nat) : bool :=
  (400 <=? status)%nat && (status <? 500)%nat.

Section Main.
Context (E : Env).

Definition AI_configured : bool :=
  str_truthy (OPENAI_KEY E) && str_truthy (ASSISTANT_ID E).

Definition user_frame (chat_id message_text : string) : Frame :=
  [("chat_id", chat_id); ("type", "message");
   ("message", message_text); ("sender", "user")].

Definition bot_frame (bot_response : string) : Frame :=
  [("type", "message"); ("message", bot_response); ("sender", "bot")].

Definition bot_broadcast_frame (chat_id bot_response : string) : Frame :=
  [("chat_id", chat_id); ("type", "message");
   ("message", bot_response); ("sender", "bot")].

(** The [try] block of the configured branch; its value is
    [bot_response]. *)
Definition ai_turn (fuel : nat) (user : User) (thread : Thread)
    (message_text : string) : M string :=
  w ← get_world;
  openai_thread ←
    match select_openai_thread (user_id user) (db w) with
    | None =>
        handle ← ai_handler.create_thread E message_text;
        db_add_openai_thread E (user_id user) handle
    | Some openai_thread =>
        ai_handler.add_user_message E fuel
          (openai_thread_id openai_thread) message_text;;
        mret openai_thread
    end;
  bot_response ← ai_handler.create_run E (openai_thread_id openai_thread);
  db_add_message E (thread_id thread) "bot" bot_response;;
  mret bot_response.

(** The reply of an unclaimed conversation. *)
Definition reply_turn (fuel : nat) (chat_id : string) (user : User)
    (thread : Thread) (message_text : string) : M unit :=
  if AI_configured then
    bot_response ←
      try_catch (ai_turn fuel user thread message_text)
        (fun e => mret ("Openai error: " +:+ exn_str e +:+ "."));
    UserConnectionManager.send_personal_message E
      (bot_frame bot_response) chat_id;;
    ManagerConnectionManager.broadcast E
      (bot_broadcast_frame chat_id bot_response)
  else
    sleep 4;;
    let bot_response := "Bot echo: " +:+ message_text in
    db_add_message E (thread_id thread) "bot" bot_response;;
    UserConnectionManager.send_personal_message E
      (bot_frame bot_response) chat_id;;
    ManagerConnectionManager.broadcast E
      (bot_broadcast_frame chat_id bot_response).

(** One pass of the receive loop, after [json.loads]. *)
Definition on_user_message (fuel : nat) (chat_id : string) (user : User)
    (thread : Thread) (payload : gmap string string) : M unit :=
  let message_text := default "" (payload !! "message") in
  db_add_message E (thread_id thread) "user" message_text;;
  ManagerConnectionManager.broadcast E (user_frame chat_id message_text);;
  w ← get_world;
  if decide (chat_id ∉ active_manager_chats w)
  then reply_turn fuel chat_id user thread message_text
  else mret tt.

(** The same pass, telling also whether it left the [try] block of the
    configured branch by an exception.  That block runs inside
    [async with db.begin()]: the exception rolls the transaction back, and a
    rollback expires every object of the session, [thread] and [user] among
    them. *)
Definition on_frame (fuel : nat) (chat_id : string) (user : User)
    (thread : Thread) (payload : gmap string string) : M bool :=
  let message_text := default "" (payload !! "message") in
  db_add_message E (thread_id thread) "user" message_text;;
  ManagerConnectionManager.broadcast E (user_frame chat_id message_text);;
  w ← get_world;
  if decide (chat_id ∉ active_manager_chats w)
  then
    if AI_configured then
      r ← try_catch
            (bot_response ← ai_turn fuel user thread message_text;
             mret (bot_response, false))
            (fun e => mret ("Openai error: " +:+ exn_str e +:+ ".", true));
      UserConnectionManager.send_personal_message E
        (bot_frame (fst r)) chat_id;;
      ManagerConnectionManager.broadcast E
        (bot_broadcast_frame chat_id (fst r));;
      mret (snd r)
    else
      reply_turn fuel chat_id user thread message_text;;
      mret false
  else mret false.

(** [while True]: the frames the peer sends, then its disconnect.
    [expired] tells whether an earlier pass rolled a transaction back:
    [Message(thread_id=thread.id, ...)] then has to reload [thread], which
    the async session cannot do from an attribute access, and raises before
    anything is stored. *)
Fixpoint receive_loop (expired : bool) (fuel : nat) (chat_id : string)
    (user : User) (thread : Thread) (inbox : list Inbound) : M unit :=
  match inbox with
  | [] => raise WebSocketDisconnect
  | Malformed :: _ => raise (PyException "JSONDecodeError")
  | Text payload :: rest =>
      if expired then raise (PyException "MissingGreenlet")
      else
        expired ← on_frame fuel chat_id user thread payload;
        receive_loop expired fuel chat_id user thread rest
  end.

(** The [try] statement of [websocket_endpoint]: the loop, and the two
    handlers, which both unregister the identity. *)
Definition serve (fuel : nat) (chat_id : string) (user : User)
    (thread : Thread) (inbox : list Inbound) : M unit :=
  try_catch (receive_loop false fuel chat_id user thread inbox)
    (fun e => UserConnectionManager.disconnect chat_id).

(** The user and thread the connection works with. *)
Definition resolve_thread (chat_id : string) : M (User * Thread) :=
  w ← get_world;
  match select_user chat_id (db w) with
  | None =>
      user ← db_add_user chat_id;
      thread ← db_add_thread E (user_id user);
      mret (user, thread)
  | Some user =>
      match latest_thread (user_id user) (db w) with
      | Some thread => mret (user, thread)
      | None =>
          thread ← db_add_thread E (user_id user);
          mret (user, thread)
      end
  end.

(** The handshake, the close and the statements on the store are taken to
    succeed; what can fail is inside [serve]. *)
Definition websocket_endpoint (fuel : nat) (websocket : WebSocket)
    (query_chat_id : option string) (inbox : list Inbound) : M unit :=
  if negb (str_truthy query_chat_id) then close websocket 1008
  else
    let chat_id := default "" query_chat_id in
    UserConnectionManager.connect chat_id websocket;;
    '(user, thread) ← resolve_thread chat_id;
    serve fuel chat_id user thread inbox.

(** The receive loop of a manager connection: frames are only logged. *)
Fixpoint manager_receive_loop (inbox : list string) : M unit :=
  match inbox with
  | [] => raise WebSocketDisconnect
  | _ :: rest => manager_receive_loop rest
  end.

Definition manager_websocket_endpoint (websocket : WebSocket)
    (inbox : list string) : M unit :=
  ManagerConnectionManager.connect websocket;;
  try_catch (manager_receive_loop inbox)
    (fun e => ManagerConnectionManager.disconnect websocket).

Definition send_manager_message (payload : ManagerPayload) : M Frame :=
  let chat_id := p_chat_id payload in
  let message := p_message payload in
  let action := p_action payload in
  let manager_status := p_managerStatus payload in
  if negb (str_truthy chat_id) || negb (str_truthy message) then
    raise (HTTPException 400 "chat_id and message are required")
  else
    let chat_id := default "" chat_id in
    let message := default "" message in
    (if negb (is_none manager_status) then
       if truthy manager_status
       then modify (set_active_manager_chats (fun s => s ∪ {[chat_id]}))
       else modify (set_active_manager_chats (fun s => s ∖ {[chat_id]}))
     else mret tt);;
    w ← get_world;
    match select_user chat_id (db w) with
    | None => raise (HTTPException 404 "User not found")
    | Some user =>
        match latest_thread (user_id user) (db w) with
        | None => raise (HTTPException 404 "Thread not found")
        | Some thread =>
            db_add_message E (thread_id thread)
              (if is_none action then "manager" else "action") message;;
            let response_payload : Frame :=
              if negb (truthy action)
              then [("type", "message"); ("message", message);
                    ("sender", "manager")]
              else [("type", "message"); ("message", message);
                    ("sender", "action")] in
            UserConnectionManager.send_personal_message E
              response_payload chat_id;;
            ManagerConnectionManager.broadcast E
              [("chat_id", chat_id); ("type", "message");
               ("message", message);
               ("sender", if is_none action then "manager " else "action")];;
            mret [("status", "ok")]
        end
    end.

Definition get_chat_history (chat_id : string) : M (list HistoryEntry) :=
  w ← get_world;
  match select_user chat_id (db w) with
  | None => mret []
  | Some user =>
      match latest_thread (user_id user) (db w) with
      | None => mret []
      | Some thread =>
          mret (history_of (messages_of (thread_id thread) (db w)))
      end
  end.

Definition get_manager_chats : M (list ChatEntry) :=
  w ← get_world;
  mret (sort_chats (collect_chats (db w) (users (db w)))).
End Main.

(** ** Reading the trace *)

Definition extend (evs : list Event) (w : World) : World :=
  {| db := db w; clock_reads := clock_reads w;
     user_connections := user_connections w;
     manager_connections := manager_connections w;
     active_manager_chats := active_manager_chats w;
     trace := trace w ++ evs |}.

(** The events a broadcast of [frame] leaves, one per registered manager
    connection: a send, or a failed send the loop steps over. *)
Fixpoint broadcast_events (E : Env) (tr : list Event)
    (conns : list WebSocket) (frame : Frame) : list Event :=
  match conns with
  | [] => []
  | c :: cs =>
      let ev := match send_text_ans E tr c frame with
                | None => EvSendText c frame
                | Some _ => EvSendFailed c frame
                end in
      ev :: broadcast_events E (tr ++ [ev]) cs frame
  end.

(** [frame["sender"]]. *)
Fixpoint frame_get (key : string) (frame : Frame) : option string :=
  match frame with
  | [] => None
  | (k, v) :: rest => if String.eqb k key then Some v else frame_get key rest
  end.

(** The frame an event put on a websocket, if it is a send. *)
Definition event_frame (ev : Event) : option Frame :=
  match ev with
  | EvSendText _ frame | EvSendFailed _ frame => Some frame
  | _ => None
  end.

(** Calls of the completion provider. *)
Definition provider_event (ev : Event) : bool :=
  match ev with
  | EvThreadsCreate _ | EvRunsList _ | EvMessagesCreate _ _
  | EvSubmitToolOutputs _ _ _ | EvCreateAndPoll _ _ | EvMessagesList _ _ =>
      true
  | _ => false
  end.

Definition is_submit (ev : Event) : bool :=
  match ev with EvSubmitToolOutputs _ _ _ => true | _ => false end.

(** ** Scenarios

    Concrete environments and states the properties are exercised on. *)

Definition clock0 (n : nat) : Datetime :=
  {| year := 2024; month := 1; day := 1; hour := 12; minute := 0;
     second := N.of_nat n; microsecond := 0 |}.

(** No AI credentials; every send succeeds; the provider is idle. *)
Definition env_echo : Env :=
  {| OPENAI_KEY := None; ASSISTANT_ID := None;
     utcnow_plus_hour := clock0;
     send_text_ans := fun _ _ _ => None;
     threads_create_ans := fun _ _ => inr "thread_1";
     runs_list_ans := fun _ _ => inr [];
     messages_create_ans := fun _ _ _ => inr tt;
     submit_tool_outputs_ans := fun _ _ _ _ => inr tt;
     create_and_poll_ans := fun _ _ =>
       inr {| run_id := "run_1"; run_status := "completed" |};
     messages_list_ans := fun _ _ _ => inr [{| am_content := [Some "hi"] |}];
     re_sub_citations := fun s => s |}.

Definition w_empty : World :=
  {| db := empty_db; clock_reads := 0; user_connections := ∅;
     manager_connections := []; active_manager_chats := ∅; trace := [] |}.

Definition user1 : User :=
  {| user_id := 1; user_chat_id := "u1";
     user_email := None; user_phone := None |}.

Definition thread1 : Thread :=
  {| thread_id := 1; thread_user_id := 1; thread_created_at := clock0 0 |}.

(** One known user with a conversation, connected on websocket 1, and one
    manager connected on websocket 7. *)
Definition w_known : World :=
  {| db := {| users := [user1]; threads := [thread1]; messages := [];
              openai_threads := [] |};
     clock_reads := 1;
     user_connections := {[ "u1" := 1 ]};
     manager_connections := [7];
     active_manager_chats := ∅;
     trace := [] |}.

(** ** Statements under test *)

(** What a disconnect by a superseded session would have to satisfy: after
    [old] and then [new] connect under [chat_id] and the session of [old]
    disconnects, [new] is still registered. *)
Definition stale_disconnect_keeps_newer (chat_id : string)
    (old new : WebSocket) (w : World) : Prop :=
  exists w',
    (UserConnectionManager.connect chat_id old;;
     UserConnectionManager.connect chat_id new;;
     UserConnectionManager.disconnect chat_id) w = Ok tt w' /\
    user_connections w' !! chat_id = Some new.

(** A manager-send request without [message]. *)
Definition payload_no_message : ManagerPayload :=
  {| p_chat_id := Some "u1"; p_message := None;
     p_action := PNone; p_managerStatus := PBool true |}.

(** A plain manager message for the known user. *)
Definition payload_hi : ManagerPayload :=
  {| p_chat_id := Some "u1"; p_message := Some "hi";
     p_action := PNone; p_managerStatus := PNone |}.

(** A claim for an identity the store does not know. *)
Definition payload_claim_ghost : ManagerPayload :=
  {| p_chat_id := Some "ghost"; p_message := Some "hi";
     p_action := PNone; p_managerStatus := PBool true |}.

(** The handoff update of a manager-send request carrying [status]. *)
Definition toggle_handoff (chat_id : string) (status : pyval)
    (s : gset string) : gset string :=
  if truthy status then s ∪ {[chat_id]} else s ∖ {[chat_id]}.

(** What C6 asks of the history surface at an identity. *)
Definition history_is_client_error (chat_id : string) (w : World) : Prop :=
  exists status,
    http_status (get_chat_history chat_id w) = Some status /\
    client_error status = true.

(** The state once an inbound user message is stored and shown to the
    managers, before the handoff set is consulted. *)
Definition after_user_message (E : Env) (chat_id : string) (thread : Thread)
    (message_text : string) (w : World) : World :=
  let w1 := set_db (add_message (thread_id thread) "user" message_text
                      (utcnow_plus_hour E (clock_reads w))) (tick w) in
  extend (broadcast_events E (trace w1) (manager_connections w1)
            (user_frame chat_id message_text)) w1.

(** The row [add_message] appends. *)
Definition message_row (d : DB) (tid : nat) (sender content : string)
    (now : Datetime) : Message :=
  {| message_id := next_id message_id (messages d);
     message_thread_id := tid; message_sender := sender;
     message_content := content; message_timestamp := now |}.

(** What C2 asks of the reply to [text] when AI is not configured. *)
Definition echo_reply_is (E : Env) (chat_id : string) (user : User)
    (thread : Thread) (text expected : string) (w : World) : Prop :=
  exists w',
    on_user_message E 0 chat_id user thread {[ "message" := text ]} w
      = Ok tt w' /\
    (exists m, m ∈ messages (db w') /\ message_sender m = "bot" /\
               message_content m = expected) /\
    (exists ws, EvSendText ws (bot_frame expected) ∈ trace w').

(** The events of handing [reply] out from state [wr]: the frame for the
    user's registered connection, if there is one, then the broadcast. *)
Definition reply_delivery_events (E : Env) (chat_id reply : string)
    (wr : World) : list Event :=
  let evs := match user_connections wr !! chat_id with
             | Some ws => [EvSendText ws (bot_frame reply)]
             | None => []
             end in
  (evs ++ broadcast_events E (trace wr ++ evs) (manager_connections wr)
            (bot_broadcast_frame chat_id reply))%list.

(** The state in which the echo reply to [message_text] is stored, four
    seconds after [w1]. *)
Definition after_echo_stored (E : Env) (thread : Thread)
    (message_text : string) (w1 : World) : World :=
  set_db (add_message (thread_id thread) "bot" ("Bot echo: " +:+ message_text)
            (utcnow_plus_hour E (clock_reads w1)))
         (tick (log_event (EvSleep 4) w1)).

(** A computation that only appends events satisfying [p] to the trace,
    leaves the rest of the state alone, and returns a value in [Q]. *)
Definition emits {A : Type} (p : Event -> Prop) (Q : A -> Prop) (m : M A)
    : Prop :=
  forall w,
    match m w with
    | Ok a w' => (exists evs, w' = extend evs w /\ Forall p evs) /\ Q a
    | Raise _ w' => exists evs, w' = extend evs w /\ Forall p evs
    | Diverge => True
    end.

Definition not_submit (ev : Event) : Prop := is_submit ev = false.
Definition count_events (f : Event -> bool) (tr : list Event) : nat :=
  length (List.filter f tr).

Definition is_runs_list (ev : Event) : bool :=
  match ev with EvRunsList _ => true | _ => false end.

Definition is_messages_create (ev : Event) : bool :=
  match ev with EvMessagesCreate _ _ => true | _ => false end.

Definition busy_msg : string :=
  "Can't add messages to thread_1 while a run run_1 is active.".

Definition run_1 (status : string) : Run :=
  {| run_id := "run_1"; run_status := status |}.

(** AI configured.  The first listing shows no run in progress; then
    [run_1] is active: the provider rejects the first five appends, the
    next listing shows [run_1] in progress, and later listings show it
    completed. *)
Definition env_busy : Env :=
  {| OPENAI_KEY := Some "sk"; ASSISTANT_ID := Some "asst_1";
     utcnow_plus_hour := clock0;
     send_text_ans := fun _ _ _ => None;
     threads_create_ans := fun _ _ => inr "thread_1";
     runs_list_ans := fun tr _ =>
       match count_events is_runs_list tr with
       | 0 => inr []
       | 1 => inr [run_1 "in_progress"]
       | _ => inr [run_1 "completed"]
       end;
     messages_create_ans := fun tr _ _ =>
       if (count_events is_messages_create tr <? 5)%nat
       then inl (BadRequestError busy_msg) else inr tt;
     submit_tool_outputs_ans := fun _ _ _ _ => inr tt;
     create_and_poll_ans := fun _ _ => inr (run_1 "completed");
     messages_list_ans := fun _ _ _ => inr [{| am_content := [Some "hi"] |}];
     re_sub_citations := fun s => s |}.

(** AI configured.  No run is ever listed in progress, and the provider
    rejects every append. *)
Definition env_blocked : Env :=
  {| OPENAI_KEY := Some "sk"; ASSISTANT_ID := Some "asst_1";
     utcnow_plus_hour := clock0;
     send_text_ans := fun _ _ _ => None;
     threads_create_ans := fun _ _ => inr "thread_1";
     runs_list_ans := fun _ _ => inr [run_1 "requires_action"];
     messages_create_ans := fun _ _ _ => inl (BadRequestError busy_msg);
     submit_tool_outputs_ans := fun _ _ _ _ => inr tt;
     create_and_poll_ans := fun _ _ => inr (run_1 "completed");
     messages_list_ans := fun _ _ _ => inr [{| am_content := [Some "hi"] |}];
     re_sub_citations := fun s => s |}.

(** The known user, already bound to the provider thread [thread_1]. *)
Definition w_ai : World :=
  set_db (fun d => snd (add_openai_thread 1 "thread_1" (clock0 0) d)) w_known.

(** One rejected append and the pause after it. *)
Definition rejected_attempt : list Event :=
  [EvMessagesCreate "thread_1" "hello"; EvSleep 1].

(** The trace up to the fifth rejection under [env_busy]. *)
Definition five_rejections : list Event :=
  (EvRunsList "thread_1" ::
   rejected_attempt ++ rejected_attempt ++ rejected_attempt ++
   rejected_attempt ++ rejected_attempt)%list.

(** The listing entry of a user, from the latest conversation. *)
Definition chat_entry (d : DB) (user : User) : ChatEntry :=
  {| c_id := user_chat_id user;
     c_userName := last6 (user_chat_id user);
     c_messages :=
       history_of (match latest_thread (user_id user) d with
                   | Some thread => messages_of (thread_id thread) d
                   | None => []
                   end) |}.

Definition has_thread (d : DB) (user : User) : bool :=
  match latest_thread (user_id user) d with Some _ => true | None => false end.

(** The timestamp of the last message of the user's latest conversation. *)
Definition last_activity (d : DB) (user : User) : option Datetime :=
  match latest_thread (user_id user) d with
  | Some thread => message_timestamp <$> last (messages_of (thread_id thread) d)
  | None => None
  end.

(** Descending order of last activity, users without messages last. *)
Definition activity_ge (a b : option Datetime) : Prop :=
  match a, b with
  | _, None => True
  | None, Some _ => False
  | Some x, Some y => dt_leb y x = true
  end.

(** A user row that at least one conversation row points to. *)
Definition owns_thread (d : DB) (user : User) : bool :=
  existsb (fun t => Nat.eqb (thread_user_id t) (user_id user)) (threads d).

(** A text that does not begin in the middle of a character. *)
Definition starts_character (s : string) : Prop :=
  forall c rest, s = String c rest -> is_continuation c = false.

(** [label] is the end of [s]: its last six characters, or all of it. *)
Definition label_of (s label : string) : Prop :=
  (exists p, s = p +:+ label) /\
  char_count label = Nat.min 6 (char_count s) /\
  starts_character label /\
  (starts_character s -> char_count s <= 6 -> label = s).

(** What the entry [chat] shows of [user], read on the rows of the store:
    the identity and its label; the messages of one conversation, which is
    a conversation of this user and no other conversation of the user was
    created later; all messages of that conversation, oldest first; and the
    last activity of the user is the timestamp of the last of them, which
    none of them is later than. *)
Definition listed_entry (d : DB) (user : User) (chat : ChatEntry) : Prop :=
  c_id chat = user_chat_id user /\
  label_of (user_chat_id user) (c_userName chat) /\
  exists (thread : Thread) (rows : list Message),
    thread ∈ threads d /\
    thread_user_id thread = user_id user /\
    (forall t, t ∈ threads d -> thread_user_id t = user_id user ->
       dt_leb (thread_created_at t) (thread_created_at thread) = true) /\
    rows ≡ₚ filter (fun m => message_thread_id m = thread_id thread)
                   (messages d) /\
    StronglySorted
      (fun a b => dt_leb (message_timestamp a) (message_timestamp b) = true)
      rows /\
    c_messages chat = history_of rows /\
    last_activity d user = message_timestamp <$> last rows /\
    (forall m, m ∈ rows ->
       activity_ge (last_activity d user) (Some (message_timestamp m))).

(** What C8 asks first: an entry for every user row. *)
Definition listing_has_every_user (w : World) : Prop :=
  exists chats,
    get_manager_chats w = Ok chats w /\
    forall user, user ∈ users (db w) ->
      exists chat, chat ∈ chats /\ c_id chat = user_chat_id user.

Definition mk_user (id : nat) (chat_id : string) : User :=
  {| user_id := id; user_chat_id := chat_id;
     user_email := None; user_phone := None |}.

Definition mk_message (id tid : nat) (sender content : string) (at_ : nat)
    : Message :=
  {| message_id := id; message_thread_id := tid; message_sender := sender;
     message_content := content; message_timestamp := clock0 at_ |}.

(** Four users: [alice] wrote at second 2 and was answered at second 3,
    [bob] has a conversation without messages, [carol] has no conversation,
    [dave] wrote at second 5 in the later of two conversations. *)
Definition db_listing : DB :=
  {| users := [mk_user 1 "visitor-alice"; mk_user 2 "bob";
               mk_user 3 "carol"; mk_user 4 "visitor-dave"];
     threads :=
       [{| thread_id := 1; thread_user_id := 1; thread_created_at := clock0 0 |};
        {| thread_id := 2; thread_user_id := 2; thread_created_at := clock0 1 |};
        {| thread_id := 3; thread_user_id := 4; thread_created_at := clock0 1 |};
        {| thread_id := 4; thread_user_id := 4; thread_created_at := clock0 4 |}];
     messages :=
       [mk_message 1 1 "user" "hello" 2;
        mk_message 2 1 "bot" "Bot echo: hello" 3;
        mk_message 3 3 "user" "old" 1;
        mk_message 4 4 "user" "anyone?" 5];
     openai_threads := [] |}.

Definition w_listing : World :=
  {| db := db_listing; clock_reads := 6; user_connections := ∅;
     manager_connections := []; active_manager_chats := ∅; trace := [] |}.

(** A manager taking the conversation of the known user over, and handing
    it back. *)
Definition payload_claim : ManagerPayload :=
  {| p_chat_id := Some "u1"; p_message := Some "I take over";
     p_action := PNone; p_managerStatus := PBool true |}.

Definition payload_release : ManagerPayload :=
  {| p_chat_id := Some "u1"; p_message := Some "back to the bot";
     p_action := PNone; p_managerStatus := PBool false |}.

(** The senders of the stored messages, oldest first. *)
Definition stored_senders (r : Res unit) : list string :=
  match r with
  | Ok _ w | Raise _ w => map message_sender (messages (db w))
  | Diverge => []
  end.

(** ** Further readings of the state *)



(** Three manager connections, the middle one dead under [env_dead8]. *)
Definition w_managers : World :=
  set_manager_connections (fun _ => [7; 8; 9]) w_known.
(** What may change between two states of one user session working on
    thread [tid]: the store only grows, by message rows of that thread sent
    by the user or the bot and by provider bindings; the user and thread
    tables, both registries and the handoff set stay. *)
Definition session_step (tid : nat) (w w' : World) : Prop :=
  users (db w') = users (db w) /\
  threads (db w') = threads (db w) /\
  user_connections w' = user_connections w /\
  manager_connections w' = manager_connections w /\
  active_manager_chats w' = active_manager_chats w /\
  (exists rows,
     messages (db w') = (messages (db w) ++ rows)%list /\
     Forall (fun m => message_thread_id m = tid /\
                      (message_sender m = "user" \/ message_sender m = "bot"))
            rows) /\
  (exists more,
     openai_threads (db w') = (openai_threads (db w) ++ more)%list).

(** Every outcome of [m] is related to the state it started from. *)
Definition keeps {A : Type} (R : World -> World -> Prop) (m : M A) : Prop :=
  forall w,
    match m w with
    | Ok _ w' | Raise _ w' => R w w'
    | Diverge => True
    end.

(** Referential integrity of the thread table. *)
Definition threads_have_users (d : DB) : Prop :=
  forall t, t ∈ threads d -> exists u, u ∈ users d /\ user_id u = thread_user_id t.

(** The entry the history surface shows for a message row. *)
Definition history_entry (sender content : string) (now : Datetime)
    : HistoryEntry :=
  {| h_sender := sender; h_text := content; h_timestamp := isoformat now |}.
(** The handoff set after the [managerStatus] block of a manager-send
    request. *)
Definition handoff_after (chat_id : string) (status : pyval)
    (s : gset string) : gset string :=
  if is_none status then s else toggle_handoff chat_id status s.

(** The sender a manager message is stored with. *)
Definition stored_sender (action : pyval) : string :=
  if is_none action then "manager" else "action".

(** The frame of a manager message for the user. *)
Definition manager_user_frame (message : string) (action : pyval) : Frame :=
  [("type", "message"); ("message", message);
   ("sender", if truthy action then "action" else "manager")].

(** The frame of a manager message for the managers. *)
Definition manager_broadcast_frame (chat_id message : string)
    (action : pyval) : Frame :=
  [("chat_id", chat_id); ("type", "message"); ("message", message);
   ("sender", if is_none action then "manager " else "action")].

(** A manager message flagged [action: false]. *)
Definition payload_action_false : ManagerPayload :=
  {| p_chat_id := Some "u1"; p_message := Some "note";
     p_action := PBool false; p_managerStatus := PNone |}.

(** A user row without any conversation, beside the known user. *)
Definition w_threadless : World :=
  set_db (fun d => snd (add_user "u9" d)) w_known.

Definition payload_claim_u9 : ManagerPayload :=
  {| p_chat_id := Some "u9"; p_message := Some "hi";
     p_action := PNone; p_managerStatus := PBool true |}.
(** A computation that only appends to the trace, among which at most [n]
    events counted by [c], and returns a value in [Q]. *)
Definition emits_le {A : Type} (c : Event -> bool) (n : nat) (Q : A -> Prop)
    (m : M A) : Prop :=
  forall w,
    match m w with
    | Ok a w' =>
        (exists evs, w' = extend evs w /\ count_events c evs <= n) /\ Q a
    | Raise _ w' => exists evs, w' = extend evs w /\ count_events c evs <= n
    | Diverge => True
    end.

(** The rejections after which [add_user_message] tries again. *)
Definition busy_rejection (e : Exn) : bool :=
  match e with
  | BadRequestError msg => str_contains "Can't add messages to" msg
  | _ => false
  end.

(** A provider that refuses the append for a reason of its own. *)
Definition env_refusing : Env :=
  {| OPENAI_KEY := Some "sk"; ASSISTANT_ID := Some "asst_1";
     utcnow_plus_hour := clock0;
     send_text_ans := fun _ _ _ => None;
     threads_create_ans := fun _ _ => inr "thread_1";
     runs_list_ans := fun _ _ => inr [run_1 "completed"];
     messages_create_ans := fun _ _ _ =>
       inl (BadRequestError "Invalid 'content': string too long.");
     submit_tool_outputs_ans := fun _ _ _ _ => inr tt;
     create_and_poll_ans := fun _ _ => inr (run_1 "completed");
     messages_list_ans := fun _ _ _ => inr [{| am_content := [Some "hi"] |}];
     re_sub_citations := fun s => s |}.
(** The texts of the content blocks of a provider message. *)
Definition block_texts (message : AssistantMessage) : list string :=
  map (default "") (am_content message).

(** Every content block of the message is a text block. *)
Definition text_only (message : AssistantMessage) : Prop :=
  Forall is_Some (am_content message).

(** The text [create_run] reads off a page: the first block of the message
    that comes last, or nothing for an empty page. *)
Definition run_text (page : list AssistantMessage) : string :=
  match last page with
  | Some message => default "" (head (block_texts message))
  | None => ""
  end.

(** A page of two answers, the second with a citation mark. *)
Definition page_two : list AssistantMessage :=
  [{| am_content := [Some "first"; Some "more"] |};
   {| am_content := [Some "second"] |}].

Definition env_two : Env :=
  {| OPENAI_KEY := Some "sk"; ASSISTANT_ID := Some "asst_1";
     utcnow_plus_hour := clock0;
     send_text_ans := fun _ _ _ => None;
     threads_create_ans := fun _ _ => inr "thread_1";
     runs_list_ans := fun _ _ => inr [];
     messages_create_ans := fun _ _ _ => inr tt;
     submit_tool_outputs_ans := fun _ _ _ _ => inr tt;
     create_and_poll_ans := fun _ _ => inr (run_1 "completed");
     messages_list_ans := fun _ _ _ => inr page_two;
     re_sub_citations := fun s => s |}.

(** A page with an answer that has no content block. *)
Definition page_hollow : list AssistantMessage :=
  [{| am_content := [Some "first"] |}; {| am_content := [] |}].

Definition env_hollow : Env :=
  {| OPENAI_KEY := Some "sk"; ASSISTANT_ID := Some "asst_1";
     utcnow_plus_hour := clock0;
     send_text_ans := fun _ _ _ => None;
     threads_create_ans := fun _ _ => inr "thread_1";
     runs_list_ans := fun _ _ => inr [];
     messages_create_ans := fun _ _ _ => inr tt;
     submit_tool_outputs_ans := fun _ _ _ _ => inr tt;
     create_and_poll_ans := fun _ _ => inr (run_1 "completed");
     messages_list_ans := fun _ _ _ => inr page_hollow;
     re_sub_citations := fun s => s |}.
(** The text a failed AI turn is answered with. *)
Definition error_reply (e : Exn) : string :=
  "Openai error: " +:+ exn_str e +:+ ".".


Definition same_messages (w w' : World) : Prop :=
  messages (db w') = messages (db w).


(** Two users with a conversation each; the identity of the first ends in
    four Cyrillic letters. *)
Definition w_cyrillic : World :=
  {| db := {| users := [mk_user 1 "visitor-даша"; mk_user 2 "bob"];
              threads :=
                [{| thread_id := 1; thread_user_id := 1;
                    thread_created_at := clock0 0 |};
                 {| thread_id := 2; thread_user_id := 2;
                    thread_created_at := clock0 1 |}];
              messages := [mk_message 1 1 "user" "привет" 2];
              openai_threads := [] |};
     clock_reads := 3; user_connections := ∅;
     manager_connections := []; active_manager_chats := ∅; trace := [] |}.

(** ** The citation filter on UTF-8 text

    [re.sub(r'【[^】]+】', '', content)] read on the UTF-8 bytes of
    [content]: the opening bracket is the bytes 227 128 144, the closing one
    227 128 145, and in well-formed UTF-8 these triples occur only where the
    brackets are.  A match starts at an opening bracket and ends at the next
    closing bracket, provided something stands between them; a bracket that
    is closed at once or never is kept. *)

Definition opener : string :=
  String "227"%char (String "128"%char (String "144"%char EmptyString)).

Definition closer : string :=
  String "227"%char (String "128"%char (String "145"%char EmptyString)).

Definition is_opener (c1 c2 c3 : ascii) : bool :=
  Ascii.eqb c1 "227" && Ascii.eqb c2 "128" && Ascii.eqb c3 "144".

Definition is_closer (c1 c2 c3 : ascii) : bool :=
  Ascii.eqb c1 "227" && Ascii.eqb c2 "128" && Ascii.eqb c3 "145".

(** [pending] holds what followed an opening bracket that is not closed
    yet. *)
Fixpoint strip_citations_from (s : string) (pending : option string)
    : string :=
  match s with
  | EmptyString =>
      match pending with
      | Some run => opener +:+ run
      | None => EmptyString
      end
  | String c1 r1 =>
      match r1 with
      | String c2 (String c3 r3) =>
          if is_closer c1 c2 c3 then
            match pending with
            | Some EmptyString =>
                opener +:+ closer +:+ strip_citations_from r3 None
            | Some _ => strip_citations_from r3 None
            | None => closer +:+ strip_citations_from r3 None
            end
          else if is_opener c1 c2 c3 then
            match pending with
            | Some run => strip_citations_from r3 (Some (run +:+ opener))
            | None => strip_citations_from r3 (Some EmptyString)
            end
          else
            match pending with
            | Some run =>
                strip_citations_from r1 (Some (run +:+ String c1 EmptyString))
            | None => String c1 (strip_citations_from r1 None)
            end
      | _ =>
          match pending with
          | Some run =>
              strip_citations_from r1 (Some (run +:+ String c1 EmptyString))
          | None => String c1 (strip_citations_from r1 None)
          end
      end
  end.

Definition strip_citations (content : string) : string :=
  strip_citations_from content None.

(** Text in which no byte is 227, the first byte of both brackets. *)
Fixpoint bracket_free (s : string) : Prop :=
  match s with
  | EmptyString => True
  | String c rest => c <> "227"%char /\ bracket_free rest
  end.
(** The known user's connection is dead; the manager's is alive. *)
Definition env_dead1 : Env :=
  {| OPENAI_KEY := None; ASSISTANT_ID := None;
     utcnow_plus_hour := clock0;
     send_text_ans := fun _ ws _ =>
       if Nat.eqb ws 1 then Some (PyException "closed") else None;
     threads_create_ans := fun _ _ => inr "thread_1";
     runs_list_ans := fun _ _ => inr [];
     messages_create_ans := fun _ _ _ => inr tt;
     submit_tool_outputs_ans := fun _ _ _ _ => inr tt;
     create_and_poll_ans := fun _ _ =>
       inr {| run_id := "run_1"; run_status := "completed" |};
     messages_list_ans := fun _ _ _ => inr [{| am_content := [Some "hi"] |}];
     re_sub_citations := fun s => s |}.

(** The state in which a manager message is stored. *)
Definition after_manager_stored (E : Env) (payload : ManagerPayload)
    (chat_id message : string) (thread : Thread) (w : World) : World :=
  let w0 := set_active_manager_chats
              (handoff_after chat_id (p_managerStatus payload)) w in
  set_db (add_message (thread_id thread) (stored_sender (p_action payload))
            message (utcnow_plus_hour E (clock_reads w0))) (tick w0).

(** ** The reply branch, read on the state *)

(** The outcome of handing [reply] out from [wr]: the send to the user's
    connection, if one is registered, then the broadcast to the managers.  A
    send to the user that fails ends the turn. *)
Definition reply_handed_out (E : Env) (chat_id reply : string) (wr : World)
    : Res unit :=
  match user_connections wr !! chat_id with
  | Some ws =>
      match send_text_ans E (trace wr) ws (bot_frame reply) with
      | None => Ok tt (extend (reply_delivery_events E chat_id reply wr) wr)
      | Some e => Raise e (log_event (EvSendFailed ws (bot_frame reply)) wr)
      end
  | None => Ok tt (extend (reply_delivery_events E chat_id reply wr) wr)
  end.

(** The call an AI turn opens with: a provider thread is created from the
    message when the user has none, and the runs of the user's provider
    thread are listed when it has one. *)
Definition first_provider_call (d : DB) (user : User) (message_text : string)
    : Event :=
  match select_openai_thread (user_id user) d with
  | None => EvThreadsCreate message_text
  | Some openai_thread => EvRunsList (openai_thread_id openai_thread)
  end.

(** What the provider shim leaves in the trace. *)
Definition ai_event (ev : Event) : Prop :=
  provider_event ev = true \/ exists n, ev = EvSleep n.

(** The state [wr] in which an AI turn for [message_text], started in [w1],
    has its [reply]: the provider was called, first with
    [first_provider_call]; then either the assistant was run on the
    provider thread of the user and its messages were read, and [reply] is
    stored as a bot row of the conversation, or the turn failed, [reply] is
    the error text, and the message table is as in [w1]. *)
Definition ai_answered (E : Env) (user : User) (thread : Thread)
    (message_text : string) (w1 wr : World) (reply : string) : Prop :=
  users (db wr) = users (db w1) /\
  threads (db wr) = threads (db w1) /\
  user_connections wr = user_connections w1 /\
  manager_connections wr = manager_connections w1 /\
  active_manager_chats wr = active_manager_chats w1 /\
  exists evs,
    trace wr =
      (trace w1 ++ first_provider_call (db w1) user message_text :: evs)%list /\
    Forall ai_event evs /\
    ((exists row binding run before,
        messages (db wr) = (messages (db w1) ++ [row])%list /\
        message_thread_id row = thread_id thread /\
        message_sender row = "bot" /\
        message_content row = reply /\
        select_openai_thread (user_id user) (db wr) = Some binding /\
        (first_provider_call (db w1) user message_text :: evs =
         before ++ [EvCreateAndPoll (openai_thread_id binding)
                      (ASSISTANT_ID E);
                    EvMessagesList (openai_thread_id binding) run])%list) \/
     (messages (db wr) = messages (db w1) /\
      exists e, reply = error_reply e)).

(** ** Turns of one identity

    A handler runs without interruption from one suspension to the next, and
    while it is suspended the event loop serves the other connections.  In
    [asyncio.sleep(4)] the echo turn is suspended for four seconds: the turn
    is cut there into two steps. *)
Inductive TurnStep :=
| UntilSleep (message_text : string)
| AfterSleep (message_text : string).

(** From the arrival of the frame to the call of [asyncio.sleep(4)], in the
    echo branch of an unclaimed conversation. *)
Definition turn_until_sleep (E : Env) (chat_id : string) (thread : Thread)
    (message_text : string) : M unit :=
  db_add_message E (thread_id thread) "user" message_text;;
  ManagerConnectionManager.broadcast E (user_frame chat_id message_text);;
  sleep 4.

(** From the end of the sleep to the end of the pass. *)
Definition turn_after_sleep (E : Env) (chat_id : string) (thread : Thread)
    (message_text : string) : M unit :=
  let bot_response := "Bot echo: " +:+ message_text in
  db_add_message E (thread_id thread) "bot" bot_response;;
  UserConnectionManager.send_personal_message E
    (bot_frame bot_response) chat_id;;
  ManagerConnectionManager.broadcast E
    (bot_broadcast_frame chat_id bot_response).

Definition run_step (E : Env) (chat_id : string) (thread : Thread)
    (step : TurnStep) : M unit :=
  match step with
  | UntilSleep message_text => turn_until_sleep E chat_id thread message_text
  | AfterSleep message_text => turn_after_sleep E chat_id thread message_text
  end.

(** The steps the event loop runs, one after the other. *)
Fixpoint run_schedule (E : Env) (chat_id : string) (thread : Thread)
    (schedule : list TurnStep) : M unit :=
  match schedule with
  | [] => mret tt
  | step :: rest =>
      run_step E chat_id thread step;; run_schedule E chat_id thread rest
  end.

Definition turn_steps (message_text : string) : list TurnStep :=
  [UntilSleep message_text; AfterSleep message_text].

(** The ways the event loop can run the steps of two handlers: each
    handler's steps in their own order. *)
Inductive interleaving {A : Type} : list A -> list A -> list A -> Prop :=
| interleaving_nil : interleaving [] [] []
| interleaving_left x l r s :
    interleaving l r s -> interleaving (x :: l) r (x :: s)
| interleaving_right x l r s :
    interleaving l r s -> interleaving l (x :: r) (x :: s).

(** The contents of the stored messages, oldest first. *)
Definition stored_contents (r : Res unit) : list string :=
  match r with
  | Ok _ w | Raise _ w => map message_content (messages (db w))
  | Diverge => []
  end.

(** What C9 asks of two messages of one identity that arrive on two
    connections, [second] after [first]: however the event loop runs the two
    handlers, the turn of [first] is stored whole before the turn of
    [second] begins. *)
Definition turns_in_sequence (E : Env) (chat_id : string) (thread : Thread)
    (first second : string) (w : World) : Prop :=
  forall schedule,
    interleaving (turn_steps first) (turn_steps second) schedule ->
    head schedule = Some (UntilSleep first) ->
    stored_contents (run_schedule E chat_id thread schedule w) =
      (map message_content (messages (db w)) ++
       [first; "Bot echo: " +:+ first; second; "Bot echo: " +:+ second])%list.

(** The known user, connected a second time: the registry holds the later
    websocket. *)
Definition w_two_connections : World :=
  set_user_connections (<[ "u1" := 2 ]>) w_known.

(** The rows a pass over a frame with [message_text] stores in the
    conversation [tid]: the user row, then at most one bot row, which
    without AI credentials is the echo of the message. *)
Inductive turn_rows (E : Env) (tid : nat) (message_text : string)
    : list Message -> Prop :=
| turn_unanswered (u : Message) :
    message_thread_id u = tid -> message_sender u = "user" ->
    message_content u = message_text ->
    turn_rows E tid message_text [u]
| turn_answered (u b : Message) :
    message_thread_id u = tid -> message_sender u = "user" ->
    message_content u = message_text ->
    message_thread_id b = tid -> message_sender b = "bot" ->
    (AI_configured E = false ->
     message_content b = "Bot echo: " +:+ message_text) ->
    turn_rows E tid message_text [u; b].

(** The rows a connection stores for the frames it receives: the rows of
    the first frame, then those of the second, and so on, up to the frame
    at which the session ends. *)
Inductive session_rows (E : Env) (tid : nat)
    : list Inbound -> list Message -> Prop :=
| session_ends inbox : session_rows E tid inbox []
| session_turn payload inbox rows more :
    turn_rows E tid (default "" (payload !! "message")) rows ->
    session_rows E tid inbox more ->
    session_rows E tid (Text payload :: inbox) (rows ++ more)%list.

(** * Properties *)

(** ** Traces and broadcasts *)

Lemma extend_nil w : extend [] w = w.
Proof. destruct w; unfold extend; simpl. by rewrite app_nil_r. Qed.

Lemma extend_log_event evs e w :
  extend evs (log_event e w) = extend (e :: evs) w.
Proof. unfold extend, log_event; simpl. by rewrite <- app_assoc. Qed.

Lemma extend_extend evs1 evs2 w :
  extend evs2 (extend evs1 w) = extend (evs1 ++ evs2) w.
Proof. unfold extend; simpl. by rewrite <- app_assoc. Qed.

Lemma log_event_extend e w : log_event e w = extend [e] w.
Proof. reflexivity. Qed.

Section BroadcastFacts.
Context (E : Env).

Lemma broadcast_to_run conns frame w :
  ManagerConnectionManager.broadcast_to E conns frame w =
  Ok tt (extend (broadcast_events E (trace w) conns frame) w).
Proof.
  revert w. induction conns as [|c cs IH]; intros w; simpl.
  - by rewrite extend_nil.
  - unfold mbind, M_bind, try_catch, send_text.
    destruct (send_text_ans E (trace w) c frame) as [e|]; simpl;
      rewrite IH, extend_log_event; reflexivity.
Qed.

Lemma broadcast_run frame w :
  ManagerConnectionManager.broadcast E frame w =
  Ok tt (extend (broadcast_events E (trace w) (manager_connections w) frame)
                w).
Proof.
  unfold ManagerConnectionManager.broadcast, mbind, M_bind, get_world.
  apply broadcast_to_run.
Qed.

(** A broadcast only puts [frame] on manager connections. *)
Lemma broadcast_events_frames tr conns frame :
  Forall (fun ev => event_frame ev = Some frame)
         (broadcast_events E tr conns frame).
Proof.
  revert tr. induction conns as [|c cs IH]; intros tr; simpl.
  - constructor.
  - constructor; [|apply IH].
    by destruct (send_text_ans E tr c frame).
Qed.

End BroadcastFacts.

(** ** The user registry *)

(** C3, as stated, fails: the disconnect of the superseded websocket 1
    removes websocket 2, which replaced it. *)
Lemma stale_disconnect_removes_newer :
  ~ stale_disconnect_keeps_newer "u1" 1 2 w_empty.
Proof.
  intros (w' & Hrun & Hreg).
  vm_compute in Hrun. injection Hrun as <-.
  vm_compute in Hreg. discriminate.
Qed.

(** C3 (amended): [disconnect] takes the identity alone and removes the
    entry registered under it, whichever connection that is; the entries
    of other identities, and the rest of the state, stay as they are. *)
Theorem disconnect_removes_registered (chat_id : string) (w : World) :
  UserConnectionManager.disconnect chat_id w =
    Ok tt (set_user_connections (delete chat_id) w) /\
  user_connections (set_user_connections (delete chat_id) w) !! chat_id
    = None.
Proof.
  split.
  - unfold UserConnectionManager.disconnect, modify. f_equal.
    unfold set_user_connections. f_equal.
    destruct (user_connections w !! chat_id) eqn:Hreg; [done|].
    symmetry. by apply delete_id.
  - simpl. apply lookup_delete_eq.
Qed.

(** A second connect under the same identity replaces the first. *)
Lemma connect_replaces (chat_id : string) (old new : WebSocket) (w : World) :
  exists w',
    (UserConnectionManager.connect chat_id old;;
     UserConnectionManager.connect chat_id new) w = Ok tt w' /\
    user_connections w' !! chat_id = Some new.
Proof.
  eexists. split; [reflexivity|]. simpl. apply lookup_insert_eq.
Qed.

(** ** The manager-send surface *)

Lemma send_manager_message_requires (E : Env) (payload : ManagerPayload)
    (w : World) :
  str_truthy (p_chat_id payload) && str_truthy (p_message payload) = false ->
  send_manager_message E payload w =
    Raise (HTTPException 400 "chat_id and message are required") w.
Proof.
  intros H. unfold send_manager_message.
  destruct (str_truthy (p_chat_id payload)),
           (str_truthy (p_message payload)); done.
Qed.

(** C5: a manager-send request that lacks [message] or [chat_id] is
    answered with the client error 400 and leaves the whole state as it
    was: nothing persisted, nothing sent, handoff membership unchanged. *)
Theorem manager_send_missing_field (E : Env) (payload : ManagerPayload)
    (w : World) :
  p_message payload = None \/ p_chat_id payload = None ->
  send_manager_message E payload w =
    Raise (HTTPException 400 "chat_id and message are required") w /\
  http_status (send_manager_message E payload w) = Some 400 /\
  client_error 400 = true.
Proof.
  intros H.
  assert (Hrun : send_manager_message E payload w =
            Raise (HTTPException 400 "chat_id and message are required") w).
  { apply send_manager_message_requires.
    destruct H as [-> | ->]; simpl; [apply andb_false_r | done]. }
  by rewrite Hrun.
Qed.

Lemma manager_send_missing_field_witness :
  send_manager_message env_echo payload_no_message w_known =
    Raise (HTTPException 400 "chat_id and message are required") w_known /\
  http_status (send_manager_message env_echo payload_no_message w_known)
    = Some 400 /\
  client_error 400 = true.
Proof.
  apply (manager_send_missing_field env_echo payload_no_message w_known).
  left. reflexivity.
Defined.

(** C10: with [chat_id], [message] and a [managerStatus] flag present, the
    handoff set is updated before the user is looked up; for an identity
    the store does not know the answer is 404 and the update stays. *)
Theorem manager_send_toggle_precedes_lookup (E : Env)
    (payload : ManagerPayload) (chat_id message : string) (w : World) :
  p_chat_id payload = Some chat_id -> chat_id <> "" ->
  p_message payload = Some message -> message <> "" ->
  p_managerStatus payload <> PNone ->
  select_user chat_id (db w) = None ->
  let w' := set_active_manager_chats
              (toggle_handoff chat_id (p_managerStatus payload)) w in
  send_manager_message E payload w =
    Raise (HTTPException 404 "User not found") w' /\
  (chat_id ∈ active_manager_chats w' <->
   truthy (p_managerStatus payload) = true).
Proof.
  intros Hc Hc0 Hm Hm0 Hs Hu w'. split.
  - unfold send_manager_message. rewrite Hc, Hm. simpl.
    apply String.eqb_neq in Hc0, Hm0. rewrite Hc0, Hm0. simpl.
    unfold mbind, M_bind, modify, get_world, mret, M_ret, raise.
    subst w'. unfold toggle_handoff.
    destruct (p_managerStatus payload) as [|b|z|s] eqn:Hst; [done|..];
      simpl; (match goal with |- context [if ?c then _ else _] =>
                destruct c end); simpl; by rewrite Hu.
  - subst w'. unfold toggle_handoff. simpl.
    destruct (truthy (p_managerStatus payload)).
    + split; [done|]. intros _. apply elem_of_union. right.
      by apply elem_of_singleton.
    + split; [|done]. intros [_ Hnot]%elem_of_difference.
      exfalso. apply Hnot. by apply elem_of_singleton.
Qed.

Lemma manager_send_toggle_precedes_lookup_witness :
  send_manager_message env_echo payload_claim_ghost w_known =
    Raise (HTTPException 404 "User not found")
      (set_active_manager_chats (toggle_handoff "ghost" (PBool true)) w_known)
  /\
  ("ghost" ∈ active_manager_chats
     (set_active_manager_chats (toggle_handoff "ghost" (PBool true)) w_known)
   <-> truthy (PBool true) = true).
Proof.
  apply (manager_send_toggle_precedes_lookup env_echo payload_claim_ghost
           "ghost" "hi" w_known); try reflexivity; discriminate.
Defined.

(** ** The history surface *)

(** C6, as stated, fails: for an identity the store does not know the
    history surface answers 200 with an empty list. *)
Lemma history_unknown_answers_ok :
  ~ history_is_client_error "ghost" w_known.
Proof.
  intros (status & Hst & Herr).
  vm_compute in Hst. injection Hst as <-. vm_compute in Herr. discriminate.
Qed.

(** C6 (amended): for an identity without a user row, or whose user has no
    conversation, the history surface answers successfully with the empty
    history and changes nothing. *)
Theorem history_unknown_is_empty (chat_id : string) (w : World) :
  select_user chat_id (db w) = None \/
  (exists user, select_user chat_id (db w) = Some user /\
                latest_thread (user_id user) (db w) = None) ->
  get_chat_history chat_id w = Ok [] w /\
  http_status (get_chat_history chat_id w) = Some 200.
Proof.
  intros H.
  assert (Hrun : get_chat_history chat_id w = Ok [] w).
  { unfold get_chat_history, mbind, M_bind, get_world.
    destruct H as [-> | (user & -> & ->)]; reflexivity. }
  by rewrite Hrun.
Qed.

Lemma history_unknown_is_empty_witness :
  get_chat_history "ghost" w_known = Ok [] w_known /\
  http_status (get_chat_history "ghost" w_known) = Some 200.
Proof.
  apply (history_unknown_is_empty "ghost" w_known).
  left. reflexivity.
Defined.

(** ** Frames of the manager-send surface *)

(** C7 at the request [{"chat_id": "u1", "message": "hi"}]: the message is
    stored and sent to the user as sender [manager], and the frame
    broadcast to the managers carries the sender [manager ] with a trailing
    space, which is none of the four sender values. *)
Theorem manager_broadcast_sender_at_hi :
  exists w',
    send_manager_message env_echo payload_hi w_known
      = Ok [("status", "ok")] w' /\
    map message_sender (messages (db w')) = ["manager"] /\
    trace w' =
      [EvSendText 1 [("type", "message"); ("message", "hi");
                     ("sender", "manager")];
       EvSendText 7 [("chat_id", "u1"); ("type", "message");
                     ("message", "hi"); ("sender", "manager ")]] /\
    Exists (fun ev => exists frame sender,
              ev = EvSendText 7 frame /\
              frame_get "sender" frame = Some sender /\
              sender ∉ ["user"; "bot"; "manager"; "action"])
           (trace w').
Proof.
  eexists. split; [vm_compute; reflexivity|].
  split; [reflexivity|]. split; [reflexivity|].
  apply Exists_cons_tl, Exists_cons_hd.
  eexists _, _. split; [reflexivity|]. split; [reflexivity|].
  intros Hin. repeat (apply elem_of_cons in Hin as [Heq|Hin];
                      [discriminate Heq|]).
  by apply elem_of_nil in Hin.
Qed.

(** ** The handoff gate *)

Lemma db_add_message_run (E : Env) (tid : nat) (sender content : string)
    (w : World) :
  db_add_message E tid sender content w =
  Ok tt (set_db (add_message tid sender content
                   (utcnow_plus_hour E (clock_reads w))) (tick w)).
Proof. reflexivity. Qed.

Lemma on_user_message_run (E : Env) (fuel : nat) (chat_id : string)
    (user : User) (thread : Thread) (payload : gmap string string)
    (w : World) :
  let message_text := default "" (payload !! "message") in
  let w1 := after_user_message E chat_id thread message_text w in
  on_user_message E fuel chat_id user thread payload w =
  if decide (chat_id ∉ active_manager_chats w)
  then reply_turn E fuel chat_id user thread message_text w1
  else Ok tt w1.
Proof.
  intros message_text w1. unfold on_user_message.
  fold message_text. unfold mbind, M_bind.
  rewrite db_add_message_run, broadcast_run.
  unfold get_world.
  change (active_manager_chats (extend ?evs (set_db ?f (tick w))))
    with (active_manager_chats w).
  destruct (decide (chat_id ∉ active_manager_chats w)); reflexivity.
Qed.

Lemma send_personal_message_run (E : Env) (frame : Frame) (chat_id : string)
    (w : World) :
  UserConnectionManager.send_personal_message E frame chat_id w =
  match user_connections w !! chat_id with
  | Some websocket => send_text E websocket frame w
  | None => Ok tt w
  end.
Proof.
  unfold UserConnectionManager.send_personal_message, mbind, M_bind,
    get_world.
  by destruct (user_connections w !! chat_id).
Qed.

(** The gate at work: a claimed conversation gets no reply, and after the
    release the next message is answered again. *)
Example claim_then_release :
  let claimed := set_active_manager_chats (fun _ => {[ "u1" ]}) w_known in
  on_user_message env_echo 0 "u1" user1 thread1 {[ "message" := "hello" ]}
    claimed
  = Ok tt (after_user_message env_echo "u1" thread1 "hello" claimed) /\
  on_user_message env_echo 0 "u1" user1 thread1 {[ "message" := "hello" ]}
    w_known
  = reply_turn env_echo 0 "u1" user1 thread1 "hello"
      (after_user_message env_echo "u1" thread1 "hello" w_known).
Proof. split; reflexivity. Qed.

(** ** The echo responder *)

(** C2, as stated, fails: without AI credentials the message [hello] is
    not answered by [echo: hello]. *)
Lemma echo_reply_is_not_echo_hello :
  ~ echo_reply_is env_echo "u1" user1 thread1 "hello" "echo: hello" w_known.
Proof.
  intros (w' & Hrun & (m & Hin & _ & Hcontent) & _).
  vm_compute in Hrun. injection Hrun as <-. simpl in Hin.
  repeat (apply elem_of_cons in Hin as [-> | Hin]; [discriminate Hcontent|]).
  by apply elem_of_nil in Hin.
Qed.

(** C2 (amended): when AI is not configured and the identity is not in the
    handoff set, an inbound user message with text [t] is answered, after
    a sleep of four seconds, by the bot reply ["Bot echo: " + t]: it is
    stored with sender [bot], sent to the connection registered for the
    identity and broadcast to the managers. *)
Theorem echo_reply (E : Env) (fuel : nat) (chat_id : string) (user : User)
    (thread : Thread) (payload : gmap string string) (w : World) :
  AI_configured E = false ->
  chat_id ∉ active_manager_chats w ->
  (forall ws tr frame,
     user_connections w !! chat_id = Some ws ->
     send_text_ans E tr ws frame = None) ->
  let t := default "" (payload !! "message") in
  let reply := "Bot echo: " +:+ t in
  let w1 := after_user_message E chat_id thread t w in
  let wr := after_echo_stored E thread t w1 in
  let w' := extend (reply_delivery_events E chat_id reply wr) wr in
  on_user_message E fuel chat_id user thread payload w = Ok tt w' /\
  messages (db w') =
    (messages (db w1) ++
     [message_row (db w1) (thread_id thread) "bot" reply
        (utcnow_plus_hour E (clock_reads w1))])%list /\
  trace w' =
    (trace w1 ++ EvSleep 4 :: reply_delivery_events E chat_id reply wr)%list.
Proof.
  intros Hcfg Hfree Hsend t reply w1 wr w'.
  split; [|split].
  - pose proof (on_user_message_run E fuel chat_id user thread payload w)
      as Hrun. cbv zeta in Hrun. rewrite Hrun. clear Hrun.
    destruct (decide (chat_id ∉ active_manager_chats w)); [|contradiction].
    fold t. fold w1. unfold reply_turn. rewrite Hcfg.
    unfold mbind at 1, M_bind at 1, sleep, modify.
    unfold mbind at 1, M_bind at 1. rewrite db_add_message_run.
    change (set_db _ (tick (log_event (EvSleep 4) w1))) with wr.
    fold reply.
    unfold mbind, M_bind. rewrite send_personal_message_run.
    subst w'. unfold reply_delivery_events.
    change (user_connections wr) with (user_connections w).
    destruct (user_connections w !! chat_id) as [ws|] eqn:Hreg.
    + unfold send_text. rewrite (Hsend ws _ _ eq_refl).
      rewrite broadcast_run. by rewrite extend_log_event.
    + rewrite broadcast_run. by rewrite app_nil_r.
  - reflexivity.
  - subst w' wr. unfold extend, after_echo_stored. simpl.
    by rewrite <- app_assoc.
Qed.

Lemma echo_reply_witness :
  on_user_message env_echo 0 "u1" user1 thread1 {[ "message" := "hello" ]}
    w_known
  = Ok tt
      (extend
         (reply_delivery_events env_echo "u1" "Bot echo: hello"
            (after_echo_stored env_echo thread1 "hello"
               (after_user_message env_echo "u1" thread1 "hello" w_known)))
         (after_echo_stored env_echo thread1 "hello"
            (after_user_message env_echo "u1" thread1 "hello" w_known))).
Proof.
  refine (proj1 (echo_reply env_echo 0 "u1" user1 thread1
                   {[ "message" := "hello" ]} w_known _ _ _)).
  - reflexivity.
  - simpl. apply not_elem_of_empty.
  - reflexivity.
Defined.

(** What the run on [hello] leaves behind. *)
Example echo_hello :
  exists w',
    on_user_message env_echo 0 "u1" user1 thread1 {[ "message" := "hello" ]}
      w_known = Ok tt w' /\
    map (fun m => (message_sender m, message_content m)) (messages (db w'))
      = [("user", "hello"); ("bot", "Bot echo: hello")] /\
    trace w' =
      [EvSendText 7 (user_frame "u1" "hello");
       EvSleep 4;
       EvSendText 1 (bot_frame "Bot echo: hello");
       EvSendText 7 (bot_broadcast_frame "u1" "Bot echo: hello")].
Proof. eexists. split; [vm_compute; reflexivity|]. split; reflexivity. Qed.

(** ** The provider shim *)

Section Emits.
Context {A B : Type} (p : Event -> Prop).

Lemma emits_ret (Q : A -> Prop) (a : A) : Q a -> emits p Q (mret a).
Proof.
  intros Ha w. split; [|done]. exists []. by rewrite extend_nil.
Qed.

Lemma emits_raise (Q : A -> Prop) (e : Exn) : emits p Q (raise e).
Proof. intros w. exists []. by rewrite extend_nil. Qed.

Lemma emits_diverge (Q : A -> Prop) : emits p Q diverge.
Proof. by intros w. Qed.

Lemma emits_bind (Q : A -> Prop) (R : B -> Prop) (m : M A) (f : A -> M B) :
  emits p Q m -> (forall a, Q a -> emits p R (f a)) ->
  emits p R (m ≫= f).
Proof.
  intros Hm Hf w. unfold mbind, M_bind. specialize (Hm w).
  destruct (m w) as [a w1|e w1|]; [|done..].
  destruct Hm as [(evs1 & -> & Hp1) Ha].
  specialize (Hf a Ha (extend evs1 w)).
  destruct (f a (extend evs1 w)) as [b w2|e w2|]; [| |done].
  - destruct Hf as [(evs2 & -> & Hp2) Hb]. split; [|done].
    exists (evs1 ++ evs2)%list.
    split; [apply extend_extend | by apply Forall_app].
  - destruct Hf as (evs2 & -> & Hp2).
    exists (evs1 ++ evs2)%list.
    split; [apply extend_extend | by apply Forall_app].
Qed.

Lemma emits_try_catch (Q : A -> Prop) (m : M A) (h : Exn -> M A) :
  emits p Q m -> (forall e, emits p Q (h e)) -> emits p Q (try_catch m h).
Proof.
  intros Hm Hh w. unfold try_catch. specialize (Hm w).
  destruct (m w) as [a w1|e w1|]; [done| |done].
  destruct Hm as (evs1 & -> & Hp1).
  specialize (Hh e (extend evs1 w)).
  destruct (h e (extend evs1 w)) as [b w2|e2 w2|]; [| |done].
  - destruct Hh as [(evs2 & -> & Hp2) Hb]. split; [|done].
    exists (evs1 ++ evs2)%list.
    split; [apply extend_extend | by apply Forall_app].
  - destruct Hh as (evs2 & -> & Hp2).
    exists (evs1 ++ evs2)%list.
    split; [apply extend_extend | by apply Forall_app].
Qed.

Lemma emits_external (ev : Event) (ans : list Event -> Exn + A) :
  p ev -> emits p (fun _ => True) (external ev ans).
Proof.
  intros Hev w. unfold external.
  destruct (ans (trace w)); [|split; [|done]];
    exists [ev]; split; try reflexivity; by constructor.
Qed.

Lemma emits_weaken (Q Q' : A -> Prop) (m : M A) :
  (forall a, Q a -> Q' a) -> emits p Q m -> emits p Q' m.
Proof.
  intros HQ Hm w. specialize (Hm w).
  destruct (m w) as [a w1|e w1|]; [|done..].
  destruct Hm as [Hevs Ha]. split; [done | by apply HQ].
Qed.
End Emits.

Lemma emits_sleep (p : Event -> Prop) (seconds : nat) :
  p (EvSleep seconds) -> emits p (fun _ => True) (sleep seconds).
Proof.
  intros Hev w. split; [|done].
  exists [EvSleep seconds]. split; [reflexivity | by constructor].
Qed.

Section ShimFacts.
Context (E : Env) (p : Event -> Prop).
Context (p_sleep : forall n, p (EvSleep n)).
Context (p_list : forall thread, p (EvRunsList thread)).
Context (p_create : forall thread content, p (EvMessagesCreate thread content)).

(** The first polling loop is only left with [active_runs] empty. *)
Lemma wait_active_runs_emits (fuel : nat) (thread : string) :
  emits p (fun active_runs => active_runs = [])
        (ai_handler.wait_active_runs E fuel thread).
Proof.
  induction fuel as [|fuel IH]; simpl; [apply emits_diverge|].
  eapply emits_bind; [apply emits_external, p_list|].
  intros runs _.
  destruct (List.filter ai_handler.in_progress runs) as [|r rs].
  - by apply emits_ret.
  - eapply emits_bind; [apply emits_sleep, p_sleep|]. intros _ _. apply IH.
Qed.

Lemma check_active_runs_emits (fuel : nat) (thread : string) :
  emits p (fun _ => True) (ai_handler.check_active_runs E fuel thread).
Proof.
  induction fuel as [|fuel IH]; simpl; [apply emits_diverge|].
  eapply emits_bind; [apply emits_external, p_list|].
  intros runs _.
  destruct (List.filter ai_handler.in_progress runs) as [|r rs].
  - by apply emits_ret.
  - eapply emits_bind; [apply emits_sleep, p_sleep|]. intros _ _. apply IH.
Qed.

Lemma messages_create_emits (thread content : string) :
  emits p (fun _ => True) (ai_handler.messages_create E thread content).
Proof. apply emits_external, p_create. Qed.

Lemma send_attempts_emits (budget attempt : nat)
    (thread user_message : string) :
  emits p (fun _ => True)
        (ai_handler.send_attempts E budget attempt thread user_message).
Proof.
  revert attempt. induction budget as [|budget IH]; intros attempt; simpl;
    destruct (attempt <? ai_handler.max_attempts)%nat;
    try (by apply emits_ret); [apply emits_diverge|].
  apply emits_try_catch.
  - eapply emits_bind; [apply messages_create_emits|].
    intros _ _. by apply emits_ret.
  - intros [status detail|msg|msg| |msg]; try apply emits_raise.
    destruct (str_contains _ msg); [|apply emits_raise].
    eapply emits_bind; [apply emits_sleep, p_sleep|]. intros _ _. apply IH.
Qed.

(** With the list [add_user_message] hands to it, forced completion has
    nothing to iterate over. *)
Lemma add_user_message_emits (fuel : nat) (thread user_message : string) :
  emits p (fun _ => True)
        (ai_handler.add_user_message E fuel thread user_message).
Proof.
  unfold ai_handler.add_user_message.
  apply emits_try_catch; [|intros e; apply emits_raise].
  eapply emits_bind; [apply wait_active_runs_emits|].
  intros active_runs ->.
  eapply emits_bind; [apply send_attempts_emits|].
  intros [attempt|] _; [|by apply emits_ret].
  destruct (ai_handler.max_attempts <=? attempt)%nat; [|by apply emits_ret].
  eapply (emits_bind _ (fun _ => True)); [by apply emits_ret|]. intros _ _.
  eapply emits_bind; [apply check_active_runs_emits|].
  intros [] _; [|by apply emits_ret].
  apply emits_try_catch; [apply messages_create_emits|].
  intros e; apply emits_raise.
Qed.
End ShimFacts.

(** Whatever the provider answers, [add_user_message] never submits a
    completion for a run: the only list the loop over [active_runs] ever
    sees is the empty one the first polling loop left. *)
Lemma add_user_message_never_submits (E : Env) (fuel : nat)
    (thread user_message : string) :
  emits not_submit (fun _ => True)
        (ai_handler.add_user_message E fuel thread user_message).
Proof. by apply add_user_message_emits. Qed.
(** C4 at a provider that keeps [run_1] active: the append is rejected five
    times, one second apart; right after the fifth rejection the provider
    lists [run_1] as in progress, yet [add_user_message] submits no
    completion for it.  It polls until the run is over by itself and then
    appends once more. *)
Theorem forced_completion_skipped_at_busy :
  ai_handler.add_user_message env_busy 3 "thread_1" "hello" w_ai =
    Ok tt (extend (five_rejections ++
                   [EvRunsList "thread_1"; EvSleep 1; EvRunsList "thread_1";
                    EvMessagesCreate "thread_1" "hello"]) w_ai) /\
  runs_list_ans env_busy (trace w_ai ++ five_rejections) "thread_1" =
    inr [run_1 "in_progress"] /\
  Forall not_submit
    (five_rejections ++
     [EvRunsList "thread_1"; EvSleep 1; EvRunsList "thread_1";
      EvMessagesCreate "thread_1" "hello"]).
Proof.
  split; [vm_compute; reflexivity|]. split; [reflexivity|].
  repeat constructor.
Qed.

(** When the append after the wait is rejected as well, the turn still
    ends with a bot frame: the error text goes to the user and to the
    managers, and no bot row is stored. *)
Example provider_error_becomes_reply :
  exists w',
    on_user_message env_blocked 3 "u1" user1 thread1 {[ "message" := "hello" ]}
      w_ai = Ok tt w' /\
    map message_sender (messages (db w')) = ["user"] /\
    trace w' =
      (EvSendText 7 (user_frame "u1" "hello") ::
       five_rejections ++
       [EvRunsList "thread_1"; EvMessagesCreate "thread_1" "hello";
        EvSendText 1 (bot_frame ("Openai error: " +:+ busy_msg +:+ "."));
        EvSendText 7 (bot_broadcast_frame "u1"
                        ("Openai error: " +:+ busy_msg +:+ "."))])%list.
Proof. eexists. split; [vm_compute; reflexivity|]. split; reflexivity. Qed.

(** With a provider that answers, the configured branch stores and hands
    out the provider's text. *)
Example provider_reply :
  exists w',
    on_user_message env_busy 3 "u1" user1 thread1 {[ "message" := "hello" ]}
      w_known = Ok tt w' /\
    map (fun m => (message_sender m, message_content m)) (messages (db w'))
      = [("user", "hello"); ("bot", "hi")] /\
    trace w' =
      [EvSendText 7 (user_frame "u1" "hello");
       EvThreadsCreate "hello";
       EvCreateAndPoll "thread_1" (Some "asst_1");
       EvMessagesList "thread_1" "run_1";
       EvSendText 1 (bot_frame "hi");
       EvSendText 7 (bot_broadcast_frame "u1" "hi")].
Proof. eexists. split; [vm_compute; reflexivity|]. split; reflexivity. Qed.

(** ** Sorting *)

Section SortFacts.
Context {A : Type} (le : A -> A -> bool).

Lemma insert_by_perm (x : A) (l : list A) : insert_by le x l ≡ₚ x :: l.
Proof.
  induction l as [|y l IH]; simpl; [done|].
  destruct (le x y); [done|]. rewrite IH. apply Permutation_swap.
Qed.

Lemma sort_by_perm (l : list A) : sort_by le l ≡ₚ l.
Proof.
  induction l as [|x l IH]; simpl; [done|].
  by rewrite insert_by_perm, IH.
Qed.

Context (le_total : forall a b, le a b = true \/ le b a = true).
Context (le_trans : forall a b c,
            le a b = true -> le b c = true -> le a c = true).

Lemma insert_by_sorted (x : A) (l : list A) :
  StronglySorted (fun a b => le a b = true) l ->
  StronglySorted (fun a b => le a b = true) (insert_by le x l).
Proof.
  induction l as [|y l IH]; simpl; intros Hs.
  - repeat constructor.
  - apply StronglySorted_inv in Hs as [Hl Hy].
    destruct (le x y) eqn:Hxy.
    + constructor; [by constructor|].
      constructor; [done|].
      eapply Forall_impl; [exact Hy|]. intros z Hyz. by eapply le_trans.
    + constructor; [by apply IH|].
      rewrite insert_by_perm. constructor; [|done].
      destruct (le_total x y) as [H|H]; [congruence|done].
Qed.

Lemma sort_by_sorted (l : list A) :
  StronglySorted (fun a b => le a b = true) (sort_by le l).
Proof.
  induction l as [|x l IH]; simpl; [constructor|].
  by apply insert_by_sorted.
Qed.
End SortFacts.

(** Sorting the image of a list is sorting the list by the image. *)
Lemma sort_by_map {A B : Type} (le : B -> B -> bool) (f : A -> B)
    (l : list A) :
  sort_by le (map f l) = map f (sort_by (fun a b => le (f a) (f b)) l).
Proof.
  induction l as [|x l IH]; simpl; [done|]. rewrite IH.
  generalize (sort_by (fun a b => le (f a) (f b)) l). intros s.
  induction s as [|y s IHs]; simpl; [done|].
  destruct (le (f x) (f y)); simpl; [done|]. by rewrite IHs.
Qed.

(** ** Timestamps and their text *)

Lemma lex_le_trans (a b c : N) (r12 r23 r13 : comparison) :
  (r12 <> Gt -> r23 <> Gt -> r13 <> Gt) ->
  lex (a ?= b)%N r12 <> Gt -> lex (b ?= c)%N r23 <> Gt ->
  lex (a ?= c)%N r13 <> Gt.
Proof.
  intros Hr. unfold lex.
  destruct (N.compare_spec a b), (N.compare_spec b c),
           (N.compare_spec a c); try done; try lia; intros; subst; auto.
Qed.

Lemma dt_leb_trans (a b c : Datetime) :
  dt_leb a b = true -> dt_leb b c = true -> dt_leb a c = true.
Proof.
  assert (Hgt : forall x y, dt_leb x y = true <-> dt_compare x y <> Gt).
  { intros x y. unfold dt_leb. by destruct (dt_compare x y). }
  rewrite !Hgt. unfold dt_compare.
  repeat (apply lex_le_trans).
  destruct (N.compare_spec (microsecond a) (microsecond b)),
           (N.compare_spec (microsecond b) (microsecond c)),
           (N.compare_spec (microsecond a) (microsecond c));
    try done; lia.
Qed.

Lemma lex_opp (c1 c2 : comparison) :
  CompOpp (lex c1 c2) = lex (CompOpp c1) (CompOpp c2).
Proof. by destruct c1. Qed.

Lemma dt_compare_antisym (a b : Datetime) :
  dt_compare b a = CompOpp (dt_compare a b).
Proof.
  unfold dt_compare. rewrite !lex_opp, <- !N.compare_antisym. reflexivity.
Qed.

Lemma dt_leb_total (a b : Datetime) :
  dt_leb a b = true \/ dt_leb b a = true.
Proof.
  unfold dt_leb. rewrite (dt_compare_antisym a b).
  destruct (dt_compare a b); auto.
Qed.
Lemma string_app_assoc (s1 s2 s3 : string) :
  (s1 +:+ s2) +:+ s3 = s1 +:+ (s2 +:+ s3).
Proof.
  induction s1 as [|c s1 IH]; [done|].
  change (String c ((s1 +:+ s2) +:+ s3) = String c (s1 +:+ (s2 +:+ s3))).
  by rewrite IH.
Qed.

Lemma compare_String (c1 c2 : ascii) (s t : string) :
  String.compare (String c1 s) (String c2 t) =
  lex (Ascii.compare c1 c2) (String.compare s t).
Proof. simpl. by destruct (Ascii.compare c1 c2). Qed.

Lemma compare_digit_char (a b : N) :
  (a < 10)%N -> (b < 10)%N ->
  Ascii.compare (digit_char a) (digit_char b) = (a ?= b)%N.
Proof.
  intros Ha Hb. unfold Ascii.compare, digit_char.
  rewrite !N_ascii_embedding by lia.
  destruct (N.compare_spec (48 + a) (48 + b)), (N.compare_spec a b);
    try done; lia.
Qed.

Lemma lex_div_mod (a b : N) (r : comparison) :
  lex (a / 10 ?= b / 10)%N (lex (a mod 10 ?= b mod 10)%N r) =
  lex (a ?= b)%N r.
Proof.
  pose proof (N.div_mod a 10 ltac:(done)) as Ha.
  pose proof (N.div_mod b 10 ltac:(done)) as Hb.
  pose proof (N.mod_lt a 10 ltac:(done)) as Hra.
  pose proof (N.mod_lt b 10 ltac:(done)) as Hrb.
  revert Ha Hb Hra Hrb.
  generalize (a / 10)%N (a mod 10)%N (b / 10)%N (b mod 10)%N.
  intros qa ra qb rb -> -> Hra Hrb.
  unfold lex.
  destruct (N.compare_spec qa qb), (N.compare_spec ra rb),
           (N.compare_spec (10 * qa + ra) (10 * qb + rb));
    try done; lia.
Qed.

(** Zero-padded numbers of one width compare as the numbers do. *)
Lemma compare_zpad (width : nat) (a b : N) (s t : string) :
  (a < 10 ^ N.of_nat width)%N -> (b < 10 ^ N.of_nat width)%N ->
  String.compare (zpad width a +:+ s) (zpad width b +:+ t) =
  lex (a ?= b)%N (String.compare s t).
Proof.
  revert a b s t. induction width as [|width IH]; intros a b s t Ha Hb.
  - change (10 ^ N.of_nat 0)%N with 1%N in Ha, Hb.
    assert (a = 0%N) as -> by lia. assert (b = 0%N) as -> by lia. done.
  - rewrite Nat2N.inj_succ, N.pow_succ_r' in Ha, Hb. simpl zpad.
    rewrite !string_app_assoc.
    change (String ?c "" +:+ ?u) with (String c u).
    rewrite IH by (apply N.Div0.div_lt_upper_bound; lia).
    rewrite compare_String, compare_digit_char by (apply N.mod_lt; done).
    apply lex_div_mod.
Qed.

Lemma compare_sep (c : ascii) (s t : string) :
  String.compare (String c "" +:+ s) (String c "" +:+ t) = String.compare s t.
Proof.
  change (String c "" +:+ ?u) with (String c u).
  rewrite compare_String. unfold Ascii.compare. by rewrite N.compare_refl.
Qed.

Lemma zpad_app_nil (width : nat) (a : N) : zpad width a = zpad width a +:+ "".
Proof.
  generalize (zpad width a). intros s.
  induction s as [|c s IH]; [done|].
  change (String c s = String c (s +:+ "")). by rewrite <- IH.
Qed.

Lemma compare_fraction (a b : N) :
  (a < 1000000)%N -> (b < 1000000)%N ->
  String.compare (if (a =? 0)%N then "" else "." +:+ zpad 6 a)
                 (if (b =? 0)%N then "" else "." +:+ zpad 6 b) =
  (a ?= b)%N.
Proof.
  intros Ha Hb.
  destruct (N.eqb_spec a 0) as [->|Ha0], (N.eqb_spec b 0) as [->|Hb0].
  - done.
  - symmetry. apply N.compare_lt_iff. lia.
  - symmetry. apply N.compare_gt_iff. lia.
  - rewrite (zpad_app_nil 6 a), (zpad_app_nil 6 b), compare_sep.
    rewrite compare_zpad by done. by destruct (a ?= b)%N.
Qed.

(** On valid timestamps the ISO text orders as time does. *)
Lemma isoformat_compare (a b : Datetime) :
  dt_valid a -> dt_valid b ->
  String.compare (isoformat a) (isoformat b) = dt_compare a b.
Proof.
  intros (Hy & Hm & Hd & Hh & Hmi & Hs & Hu) (Hy' & Hm' & Hd' & Hh' & Hmi' & Hs' & Hu').
  unfold isoformat, dt_compare.
  rewrite compare_zpad by (change (10 ^ N.of_nat 4)%N with 10000%N; lia).
  rewrite compare_sep.
  rewrite compare_zpad by (change (10 ^ N.of_nat 2)%N with 100%N; lia).
  rewrite compare_sep.
  rewrite compare_zpad by (change (10 ^ N.of_nat 2)%N with 100%N; lia).
  rewrite compare_sep.
  rewrite compare_zpad by (change (10 ^ N.of_nat 2)%N with 100%N; lia).
  rewrite compare_sep.
  rewrite compare_zpad by (change (10 ^ N.of_nat 2)%N with 100%N; lia).
  rewrite compare_sep.
  rewrite compare_zpad by (change (10 ^ N.of_nat 2)%N with 100%N; lia).
  by rewrite compare_fraction.
Qed.

Lemma isoformat_leb (a b : Datetime) :
  dt_valid a -> dt_valid b ->
  String.leb (isoformat a) (isoformat b) = dt_leb a b.
Proof.
  intros Ha Hb. unfold String.leb, dt_leb. by rewrite isoformat_compare.
Qed.

Lemma isoformat_not_empty (a : Datetime) : isoformat a <> "".
Proof.
  unfold isoformat. simpl zpad.
  rewrite !string_app_assoc.
  change (String ?c "" +:+ ?u) with (String c u). change ("" +:+ ?u) with u.
  discriminate.
Qed.
(** ** The listing surface *)

Lemma last_map {A B : Type} (f : A -> B) (l : list A) :
  last (map f l) = f <$> last l.
Proof.
  induction l as [|x [|y l] IH]; [done..|].
  change (last (map f (y :: l)) = f <$> last (y :: l)). exact IH.
Qed.

(** In a list sorted by a reflexive order the last element is on the right
    of every element. *)
Lemma sorted_last {A : Type} (R : A -> A -> Prop) (l : list A) (x : A) :
  (forall a, R a a) -> StronglySorted R l -> last l = Some x ->
  Forall (fun y => R y x) l.
Proof.
  intros Hrefl Hs. induction Hs as [|y l Hs IH Hy]; intros Hlast; [done|].
  destruct l as [|z l].
  - injection Hlast as <-. by repeat constructor.
  - rewrite last_cons_cons in Hlast. constructor; [|by apply IH].
    rewrite Forall_forall in Hy. apply Hy. by apply last_Some_elem_of.
Qed.

Lemma dt_leb_refl (a : Datetime) : dt_leb a a = true.
Proof. by destruct (dt_leb_total a a). Qed.

Lemma messages_of_sorted (tid : nat) (d : DB) :
  StronglySorted
    (fun a b => dt_leb (message_timestamp a) (message_timestamp b) = true)
    (messages_of tid d).
Proof.
  unfold messages_of.
  apply (sort_by_sorted
           (fun a b => dt_leb (message_timestamp a) (message_timestamp b))).
  - intros a b. apply dt_leb_total.
  - intros a b c. apply dt_leb_trans.
Qed.

(** The history of a conversation holds exactly its messages. *)
Lemma messages_of_full (tid : nat) (d : DB) :
  messages_of tid d ≡ₚ filter (fun m => message_thread_id m = tid) (messages d).
Proof. apply sort_by_perm. Qed.

Lemma messages_of_elem (tid : nat) (d : DB) (m : Message) :
  m ∈ messages_of tid d <-> message_thread_id m = tid /\ m ∈ messages d.
Proof. by rewrite messages_of_full, list_elem_of_filter. Qed.

(** The last message of a history is the most recent one. *)
Lemma messages_of_last_latest (tid : nat) (d : DB) (m x : Message) :
  last (messages_of tid d) = Some x -> m ∈ messages_of tid d ->
  dt_leb (message_timestamp m) (message_timestamp x) = true.
Proof.
  intros Hlast Hin.
  pose proof (sorted_last _ _ x (fun a => dt_leb_refl (message_timestamp a))
                (messages_of_sorted tid d) Hlast) as Hall.
  rewrite Forall_forall in Hall. by apply Hall.
Qed.

(** The conversation a listing entry shows is the user's most recent. *)
Lemma latest_thread_latest (uid : nat) (d : DB) (thread : Thread) :
  latest_thread uid d = Some thread ->
  thread ∈ threads d /\ thread_user_id thread = uid /\
  forall t, t ∈ threads d -> thread_user_id t = uid ->
    dt_leb (thread_created_at t) (thread_created_at thread) = true.
Proof.
  unfold latest_thread. intros Hhead.
  assert (Hperm : threads_of uid d ≡ₚ
                  filter (fun t => thread_user_id t = uid) (threads d))
    by apply sort_by_perm.
  assert (Hin : forall t, t ∈ threads_of uid d <->
                          thread_user_id t = uid /\ t ∈ threads d)
    by (intros t; by rewrite Hperm, list_elem_of_filter).
  pose proof (head_Some_elem_of _ _ Hhead) as Hthread.
  apply Hin in Hthread as [Huid Hthread]. split; [done|]. split; [done|].
  intros t Ht Hu.
  assert (Hs : StronglySorted
            (fun a b => dt_leb (thread_created_at b) (thread_created_at a)
                        = true) (threads_of uid d)).
  { unfold threads_of.
    apply (sort_by_sorted
             (fun a b => dt_leb (thread_created_at b) (thread_created_at a))).
    - intros a b. apply dt_leb_total.
    - intros a b c H1 H2. by eapply dt_leb_trans. }
  apply head_Some in Hhead as [rest Hrest]. rewrite Hrest in Hs.
  apply StronglySorted_inv in Hs as [_ Hall]. rewrite Forall_forall in Hall.
  assert (Ht' : t ∈ threads_of uid d) by (by apply Hin).
  rewrite Hrest in Ht'. apply elem_of_cons in Ht' as [->|Ht'].
  - apply dt_leb_refl.
  - by apply Hall.
Qed.

Lemma collect_chats_filter (d : DB) (us : list User) :
  collect_chats d us = map (chat_entry d) (List.filter (has_thread d) us).
Proof.
  induction us as [|user us IH]; simpl; [done|].
  rewrite IH.
  assert (Hhas : has_thread d user =
                 match latest_thread (user_id user) d with
                 | Some _ => true | None => false end) by done.
  rewrite Hhas.
  destruct (latest_thread (user_id user) d) as [thread|] eqn:Hthread;
    simpl; [|done].
  f_equal. unfold chat_entry. by rewrite Hthread.
Qed.

Lemma chat_key_entry (d : DB) (user : User) :
  chat_key (chat_entry d user) =
  match last_activity d user with
  | Some ts => isoformat ts
  | None => ""
  end.
Proof.
  unfold chat_key, chat_entry, last_activity, history_of. simpl.
  rewrite last_map.
  destruct (latest_thread (user_id user) d) as [thread|]; [|done].
  by destruct (last (messages_of (thread_id thread) d)).
Qed.

Lemma last_activity_valid (d : DB) (user : User) (ts : Datetime) :
  (forall m, m ∈ messages d -> dt_valid (message_timestamp m)) ->
  last_activity d user = Some ts -> dt_valid ts.
Proof.
  intros Hvalid. unfold last_activity.
  destruct (latest_thread (user_id user) d) as [thread|]; [|done].
  destruct (last (messages_of (thread_id thread) d)) as [m|] eqn:Hlast;
    [|done].
  intros [= <-]. apply Hvalid.
  apply last_Some_elem_of in Hlast. by apply messages_of_elem in Hlast as [_ ?].
Qed.

(** The comparison of [chats.sort], read on the users behind the entries,
    is the descending order of last activity. *)
Lemma chat_key_order (d : DB) (u v : User) :
  (forall m, m ∈ messages d -> dt_valid (message_timestamp m)) ->
  String.leb (chat_key (chat_entry d v)) (chat_key (chat_entry d u)) = true ->
  activity_ge (last_activity d u) (last_activity d v).
Proof.
  intros Hvalid. rewrite !chat_key_entry.
  destruct (last_activity d u) as [x|] eqn:Hu,
           (last_activity d v) as [y|] eqn:Hv; simpl.
  - rewrite isoformat_leb; eauto using last_activity_valid.
  - done.
  - pose proof (isoformat_not_empty y) as Hne.
    unfold String.leb. by destruct (isoformat y).
  - done.
Qed.
Lemma StronglySorted_weaken {A : Type} (R R' : A -> A -> Prop) (l : list A) :
  (forall a b, R a b -> R' a b) -> StronglySorted R l -> StronglySorted R' l.
Proof.
  intros HR Hs. induction Hs as [|x l Hs IH Hx]; constructor; [done|].
  eapply Forall_impl; [exact Hx | apply HR].
Qed.

Lemma string_leb_trans (a b c : string) :
  String.leb a b = true -> String.leb b c = true -> String.leb a c = true.
Proof.
  intros Hab Hbc. apply Is_true_true.
  change (String.le a c). transitivity b; by apply Is_true_true.
Qed.

(** C8, as stated, fails: [carol], a user without a conversation, has no
    entry in the listing. *)
Lemma listing_omits_user_without_thread : ~ listing_has_every_user w_listing.
Proof.
  intros (chats & Hrun & Hall).
  vm_compute in Hrun. injection Hrun as <-.
  destruct (Hall (mk_user 3 "carol")) as (chat & Hin & Hid).
  { simpl. rewrite !elem_of_cons. auto. }
  repeat (apply elem_of_cons in Hin as [-> | Hin]; [discriminate Hid|]).
  by apply elem_of_nil in Hin.
Qed.

(** The label: the last six characters of the identity. *)
Lemma last_chars_suffix (n : nat) (s : string) :
  exists p, s = p +:+ last_chars n s.
Proof.
  induction s as [|c s [p Hp]]; [by exists EmptyString|].
  cbn [last_chars].
  destruct (negb (is_continuation c) && (char_count (String c s) <=? n)%nat).
  - by exists EmptyString.
  - exists (String c p).
    change (String c p +:+ ?x) with (String c (p +:+ x)). by rewrite <- Hp.
Qed.

Lemma last_chars_count (n : nat) (s : string) :
  char_count (last_chars n s) = Nat.min n (char_count s).
Proof.
  induction s as [|c s IH]; [simpl; lia|].
  cbn [last_chars]. destruct (is_continuation c) eqn:Hc; cbn [negb andb].
  - rewrite IH. cbn [char_count]. rewrite Hc. lia.
  - destruct (Nat.leb_spec (char_count (String c s)) n) as [Hle|Hgt]; [lia|].
    rewrite IH. cbn [char_count] in *. rewrite Hc in *. lia.
Qed.

Lemma last_chars_start (n : nat) (s : string) :
  starts_character (last_chars n s).
Proof.
  induction s as [|c s IH]; [done|].
  cbn [last_chars]. destruct (is_continuation c) eqn:Hc; cbn [negb andb].
  - exact IH.
  - destruct (char_count (String c s) <=? n)%nat; [|exact IH].
    by intros c' rest [= <- _].
Qed.

Lemma last_chars_short (n : nat) (s : string) :
  starts_character s -> char_count s <= n -> last_chars n s = s.
Proof.
  destruct s as [|c s]; [done|]. intros Hstart Hn.
  cbn [last_chars]. rewrite (Hstart c s eq_refl). cbn [negb andb].
  by destruct (Nat.leb_spec (char_count (String c s)) n); [|lia].
Qed.

Lemma last6_label (s : string) : label_of s (last6 s).
Proof.
  unfold label_of, last6. split; [apply last_chars_suffix|].
  split; [apply last_chars_count|]. split; [apply last_chars_start|].
  apply last_chars_short.
Qed.

(** The label counts characters, not bytes. *)
Example last6_cyrillic : last6 "visitor-даша" = "r-даша".
Proof. reflexivity. Qed.

(** A user has a latest conversation exactly when a conversation row points
    to it. *)
Lemma has_thread_owns (d : DB) (user : User) :
  has_thread d user = owns_thread d user.
Proof.
  unfold has_thread, owns_thread.
  destruct (latest_thread (user_id user) d) as [thread|] eqn:Hthread.
  - apply latest_thread_latest in Hthread as (Hin & Huid & _).
    symmetry. apply existsb_exists. exists thread.
    split; [by apply list_elem_of_In|]. by apply Nat.eqb_eq.
  - symmetry. apply not_true_is_false. intros Hex.
    apply existsb_exists in Hex as (t & Hin & Huid).
    apply Nat.eqb_eq in Huid. apply list_elem_of_In in Hin.
    unfold latest_thread in Hthread. apply head_None in Hthread.
    assert (Ht : t ∈ threads_of (user_id user) d).
    { unfold threads_of. rewrite sort_by_perm. by apply list_elem_of_filter. }
    rewrite Hthread in Ht. by apply elem_of_nil in Ht.
Qed.

Lemma filter_has_thread_owns (d : DB) (us : list User) :
  List.filter (has_thread d) us = List.filter (owns_thread d) us.
Proof.
  induction us as [|u us IH]; [done|]. simpl.
  by rewrite has_thread_owns, IH.
Qed.

(** The entry of a user that has a conversation shows the most recently
    created one. *)
Lemma chat_entry_listed (d : DB) (user : User) :
  has_thread d user = true -> listed_entry d user (chat_entry d user).
Proof.
  unfold has_thread, listed_entry, chat_entry, last_activity. simpl.
  destruct (latest_thread (user_id user) d) as [thread|] eqn:Hthread;
    [intros _|done].
  split; [done|]. split; [apply last6_label|].
  apply latest_thread_latest in Hthread as (Hin & Huid & Hlatest).
  exists thread, (messages_of (thread_id thread) d).
  split; [done|]. split; [done|]. split; [done|].
  split; [apply messages_of_full|]. split; [apply messages_of_sorted|].
  split; [done|]. split; [done|].
  intros m Hm.
  destruct (last (messages_of (thread_id thread) d)) as [x|] eqn:Hlast.
  - simpl. by eapply messages_of_last_latest.
  - apply last_None in Hlast. rewrite Hlast in Hm.
    by apply elem_of_nil in Hm.
Qed.

(** C8 (amended): the listing holds one entry for every user that has a
    conversation and none for the others.  Each entry carries the identity,
    its last six characters as label and the whole history, oldest first,
    of the conversation of that user that was created last.  The entries
    are in descending order of the timestamp of the last message of that
    history, and the entries without messages come after all others. *)
Theorem manager_chats_listing (w : World) :
  (forall m, m ∈ messages (db w) -> dt_valid (message_timestamp m)) ->
  exists listed : list User,
    get_manager_chats w = Ok (map (chat_entry (db w)) listed) w /\
    listed ≡ₚ List.filter (owns_thread (db w)) (users (db w)) /\
    StronglySorted
      (fun u v => activity_ge (last_activity (db w) u)
                              (last_activity (db w) v)) listed /\
    Forall (fun u => listed_entry (db w) u (chat_entry (db w) u)) listed.
Proof.
  intros Hvalid.
  set (le' := fun u v : User =>
         String.leb (chat_key (chat_entry (db w) v))
                    (chat_key (chat_entry (db w) u))).
  exists (sort_by le' (List.filter (has_thread (db w)) (users (db w)))).
  split; [|split; [|split]].
  - unfold get_manager_chats, mbind, M_bind, get_world, mret, M_ret.
    f_equal. rewrite collect_chats_filter. unfold sort_chats.
    by rewrite sort_by_map.
  - rewrite <- filter_has_thread_owns. apply sort_by_perm.
  - eapply StronglySorted_weaken;
      [|apply (sort_by_sorted le')].
    + intros u v Huv. by apply chat_key_order.
    + intros u v. apply String.leb_total.
    + intros u v x Huv Hvx. unfold le' in *. by eapply string_leb_trans.
  - apply Forall_forall. intros u Hu.
    rewrite sort_by_perm in Hu.
    apply list_elem_of_In, filter_In in Hu as [_ Hu].
    by apply chat_entry_listed.
Qed.

Lemma manager_chats_listing_witness :
  exists listed : list User,
    get_manager_chats w_listing = Ok (map (chat_entry db_listing) listed)
                                     w_listing /\
    listed ≡ₚ List.filter (owns_thread db_listing) (users db_listing) /\
    StronglySorted
      (fun u v => activity_ge (last_activity db_listing u)
                              (last_activity db_listing v)) listed /\
    Forall (fun u => listed_entry db_listing u (chat_entry db_listing u))
           listed.
Proof.
  apply (manager_chats_listing w_listing).
  intros m Hin. simpl in Hin.
  repeat (apply elem_of_cons in Hin as [-> | Hin];
          [unfold dt_valid; simpl; lia|]).
  by apply elem_of_nil in Hin.
Defined.

(** The listing of the four users: [dave] first, then [alice], then [bob]
    who has no messages; [carol] is absent. *)
Example listing_of_four :
  exists chats,
    get_manager_chats w_listing = Ok chats w_listing /\
    map (fun c => (c_id c, c_userName c, map h_text (c_messages c))) chats =
      [("visitor-dave", "r-dave", ["anyone?"]);
       ("visitor-alice", "-alice", ["hello"; "Bot echo: hello"]);
       ("bob", "bob", [])] /\
    map chat_key chats =
      ["2024-01-01T12:00:05"; "2024-01-01T12:00:03"; ""].
Proof. eexists. split; [vm_compute; reflexivity|]. split; reflexivity. Qed.

(** ** Sessions *)

(** A manager claims the conversation, the user writes, the manager
    releases it, the user writes again: only the second message of the
    user is answered by the bot. *)
Example claim_suppresses_release_restores :
  stored_senders
    ((send_manager_message env_echo payload_claim;;
      on_user_message env_echo 0 "u1" user1 thread1 {[ "message" := "one" ]};;
      send_manager_message env_echo payload_release;;
      on_user_message env_echo 0 "u1" user1 thread1 {[ "message" := "two" ]})
       w_known)
  = ["manager"; "user"; "manager"; "user"; "bot"].
Proof. reflexivity. Qed.

(** On one connection the frames are handled one after the other: the
    reply to a frame is stored before the next frame is. *)
Example one_connection_in_order :
  exists w',
    websocket_endpoint env_echo 0 1 (Some "u2")
      [Text {[ "message" := "first" ]}; Text {[ "message" := "second" ]}]
      w_known = Ok tt w' /\
    map message_content (messages (db w')) =
      ["first"; "Bot echo: first"; "second"; "Bot echo: second"] /\
    user_connections w' !! "u2" = None.
Proof. eexists. split; [vm_compute; reflexivity|]. split; reflexivity. Qed.

(** ** The reply branch *)

Lemma reply_handed_out_run (E : Env) (chat_id reply : string) (wr : World) :
  (UserConnectionManager.send_personal_message E (bot_frame reply) chat_id;;
   ManagerConnectionManager.broadcast E (bot_broadcast_frame chat_id reply))
    wr = reply_handed_out E chat_id reply wr.
Proof.
  unfold mbind, M_bind, reply_handed_out, reply_delivery_events.
  rewrite send_personal_message_run.
  destruct (user_connections wr !! chat_id) as [ws|] eqn:Hreg.
  - unfold send_text.
    destruct (send_text_ans E (trace wr) ws (bot_frame reply)); [done|].
    rewrite broadcast_run. by rewrite extend_log_event.
  - rewrite broadcast_run. by rewrite app_nil_r.
Qed.

Section ProviderFacts.
Context (E : Env).

Lemma ai_event_sleep (n : nat) : ai_event (EvSleep n).
Proof. right. by exists n. Qed.

Lemma ai_event_provider (ev : Event) : provider_event ev = true -> ai_event ev.
Proof. by left. Qed.

(** Reading the page of messages touches nothing. *)
Lemma messages_to_dicts_pure (page : list AssistantMessage) (w : World) :
  (exists ds, ai_handler.messages_to_dicts page w = Ok ds w) \/
  (exists e, ai_handler.messages_to_dicts page w = Raise e w).
Proof.
  induction page as [|message page IH]; simpl; [left; by eexists|].
  unfold mbind, M_bind.
  assert (Hdict : (exists d, ai_handler.message_to_dict message w = Ok d w) \/
                  (exists e, ai_handler.message_to_dict message w = Raise e w)).
  { unfold ai_handler.message_to_dict.
    induction (am_content message) as [|[text|] blocks IHb]; simpl.
    - left; by eexists.
    - unfold mbind, M_bind.
      destruct IHb as [[texts ->]|[e ->]]; [left|right]; by eexists.
    - right; by eexists. }
  destruct Hdict as [[d ->]|[e ->]]; [|right; by eexists].
  destruct IH as [[ds ->]|[e ->]]; [left|right]; by eexists.
Qed.

Lemma last_response_text_pure (response_text : string)
    (messages_list : list (list string)) (w : World) :
  (exists text, ai_handler.last_response_text response_text messages_list w
                = Ok text w) \/
  (exists e, ai_handler.last_response_text response_text messages_list w
             = Raise e w).
Proof.
  revert response_text.
  induction messages_list as [|[|text blocks] rest IH];
    intros response_text; simpl.
  - left; by eexists.
  - right; by eexists.
  - apply IH.
Qed.

(** A run of the assistant: it ends, and when it returns a text the
    assistant was run and its messages were read. *)
Lemma create_run_outcome (thread : string) (w : World) :
  (exists text run,
     ai_handler.create_run E thread w =
       Ok text (extend [EvCreateAndPoll thread (ASSISTANT_ID E);
                        EvMessagesList thread run] w)) \/
  (exists e evs,
     ai_handler.create_run E thread w = Raise e (extend evs w) /\
     Forall ai_event evs).
Proof.
  unfold ai_handler.create_run, try_catch, mbind, M_bind, external, raise.
  destruct (create_and_poll_ans E (trace w) thread) as [e|run].
  { right. exists e, [EvCreateAndPoll thread (ASSISTANT_ID E)].
    split; [done|]. constructor; [by left|done]. }
  destruct (messages_list_ans E _ thread (run_id run)) as [e|page].
  { right. exists e, [EvCreateAndPoll thread (ASSISTANT_ID E);
                      EvMessagesList thread (run_id run)].
    split; [by rewrite !log_event_extend, extend_extend|].
    repeat constructor; by left. }
  match goal with |- context [ai_handler.messages_to_dicts page ?w0] =>
    set (w2 := w0) end.
  assert (Hw2 : w2 = extend [EvCreateAndPoll thread (ASSISTANT_ID E);
                             EvMessagesList thread (run_id run)] w)
    by (subst w2; by rewrite !log_event_extend, extend_extend).
  assert (Hevs : Forall ai_event [EvCreateAndPoll thread (ASSISTANT_ID E);
                                  EvMessagesList thread (run_id run)])
    by (repeat constructor; by left).
  destruct (messages_to_dicts_pure page w2) as [[ds ->]|[e ->]];
    [|right; exists e; eexists; by rewrite Hw2].
  destruct (last_response_text_pure "" ds w2) as [[text ->]|[e ->]];
    [|right; exists e; eexists; by rewrite Hw2].
  left. exists (ai_handler.remove_square_brackets E text), (run_id run).
  by rewrite Hw2.
Qed.

(** [add_user_message] opens by listing the runs of the thread. *)
Lemma add_user_message_opens (fuel : nat) (thread user_message : string)
    (w : World) :
  match ai_handler.add_user_message E fuel thread user_message w with
  | Ok _ w' | Raise _ w' =>
      exists evs, w' = extend (EvRunsList thread :: evs) w /\
                  Forall ai_event evs
  | Diverge => True
  end.
Proof.
  destruct fuel as [|fuel]; [done|].
  unfold ai_handler.add_user_message.
  cbn [ai_handler.wait_active_runs].
  set (k := fun runs : list Run =>
         match List.filter ai_handler.in_progress runs with
         | [] => mret (List.filter ai_handler.in_progress runs)
         | _ :: _ => sleep 1;; ai_handler.wait_active_runs E fuel thread
         end).
  set (body := fun active_runs : list Run =>
         r ← ai_handler.send_attempts E ai_handler.max_attempts 0 thread
               user_message;
         match r with
         | None => mret tt
         | Some attempt =>
             if (ai_handler.max_attempts <=? attempt)%nat then
               ai_handler.force_complete E thread active_runs [];;
               settled ← ai_handler.check_active_runs E (S fuel) thread;
               if settled : bool
               then try_catch
                      (ai_handler.messages_create E thread user_message)
                      (fun e => raise e)
               else mret tt
             else mret tt
         end).
  assert (Hk : forall runs, emits ai_event (fun active_runs => active_runs = [])
                              (k runs)).
  { intros runs. unfold k.
    destruct (List.filter ai_handler.in_progress runs) as [|r rs].
    - by apply emits_ret.
    - eapply emits_bind; [apply emits_sleep, ai_event_sleep|].
      intros _ _. apply wait_active_runs_emits;
        [apply ai_event_sleep | intros; by left]. }
  assert (Hbody : emits ai_event (fun _ => True) (body [])).
  { unfold body.
    eapply emits_bind;
      [apply send_attempts_emits;
         [apply ai_event_sleep | intros; by left]|].
    intros [attempt|] _; [|by apply emits_ret].
    destruct (ai_handler.max_attempts <=? attempt)%nat; [|by apply emits_ret].
    eapply (emits_bind _ (fun _ => True)); [by apply emits_ret|]. intros _ _.
    eapply emits_bind;
      [apply check_active_runs_emits;
         [apply ai_event_sleep | intros; by left]|].
    intros [] _; [|by apply emits_ret].
    apply emits_try_catch;
      [apply messages_create_emits; intros; by left|].
    intros e; apply emits_raise. }
  change (match try_catch
                  ((ai_handler.runs_list E thread ≫= k) ≫= body)
                  (fun e => raise e) w with
          | Ok _ w' | Raise _ w' =>
              exists evs, w' = extend (EvRunsList thread :: evs) w /\
                          Forall ai_event evs
          | Diverge => True
          end).
  unfold try_catch, mbind, M_bind, ai_handler.runs_list, external.
  destruct (runs_list_ans E (trace w) thread) as [e|runs].
  { exists []. split; [done|constructor]. }
  specialize (Hk runs (log_event (EvRunsList thread) w)).
  destruct (k runs (log_event (EvRunsList thread) w))
    as [active_runs w1|e w1|]; [| |done].
  - destruct Hk as [(evs1 & -> & Hevs1) ->].
    specialize (Hbody (extend evs1 (log_event (EvRunsList thread) w))).
    destruct (body [] _) as [[] w2|e w2|]; [| |done].
    + destruct Hbody as [(evs2 & -> & Hevs2) _].
      exists (evs1 ++ evs2)%list.
      rewrite extend_extend, extend_log_event.
      split; [done | by apply Forall_app].
    + destruct Hbody as (evs2 & -> & Hevs2).
      exists (evs1 ++ evs2)%list.
      unfold raise. rewrite extend_extend, extend_log_event.
      split; [done | by apply Forall_app].
  - destruct Hk as (evs1 & -> & Hevs1).
    exists evs1. unfold raise. by rewrite extend_log_event.
Qed.
End ProviderFacts.

(** An AI turn calls the provider, and stores the reply it returns. *)
Lemma ai_turn_outcome (E : Env) (fuel : nat) (user : User) (thread : Thread)
    (message_text : string) (w : World) :
  match ai_turn E fuel user thread message_text w with
  | Ok reply wr => ai_answered E user thread message_text w wr reply
  | Raise e wr => ai_answered E user thread message_text w wr (error_reply e)
  | Diverge =>
      exists openai_thread,
        select_openai_thread (user_id user) (db w) = Some openai_thread /\
        ai_handler.add_user_message E fuel (openai_thread_id openai_thread)
          message_text w = Diverge
  end.
Proof.
  unfold ai_turn, ai_answered, first_provider_call.
  unfold mbind at 1, M_bind at 1, get_world.
  destruct (select_openai_thread (user_id user) (db w)) as [oat|] eqn:Hsel.
  - unfold mbind at 1, M_bind at 1. unfold mbind at 1, M_bind at 1.
    pose proof (add_user_message_opens E fuel (openai_thread_id oat)
                  message_text w) as Hopen.
    destruct (ai_handler.add_user_message E fuel (openai_thread_id oat)
                message_text w) as [[] w2|e w2|] eqn:Hadd;
      [| |by exists oat].
    + destruct Hopen as (evs & -> & Hevs). cbn [mret M_ret].
      unfold mbind at 1, M_bind at 1.
      destruct (create_run_outcome E (openai_thread_id oat)
                  (extend (EvRunsList (openai_thread_id oat) :: evs) w))
        as [(text & run & ->)|(e & evs2 & -> & Hevs2)].
      * rewrite extend_extend. unfold mbind, M_bind.
        rewrite db_add_message_run. cbn [mret M_ret].
        do 5 (split; [done|]).
        exists (evs ++ [EvCreateAndPoll (openai_thread_id oat) (ASSISTANT_ID E);
                        EvMessagesList (openai_thread_id oat) run])%list.
        split; [done|]. split.
        { apply Forall_app. split; [done|]. repeat constructor; by left. }
        left. eexists _, oat, run,
                (EvRunsList (openai_thread_id oat) :: evs).
        by split; [reflexivity|].
      * rewrite extend_extend. do 5 (split; [done|]).
        exists (evs ++ evs2)%list. split; [done|].
        split; [by apply Forall_app|]. right. split; [done|]. by exists e.
    + destruct Hopen as (evs & -> & Hevs). do 5 (split; [done|]).
      exists evs. split; [done|]. split; [done|].
      right. split; [done|]. by exists e.
  - unfold mbind at 1, M_bind at 1. unfold mbind at 1, M_bind at 1.
    unfold ai_handler.create_thread, external.
    destruct (threads_create_ans E (trace w) message_text) as [e|handle].
    + do 5 (split; [done|]). exists []. split; [done|]. split; [done|].
      right. split; [done|]. by exists e.
    + match goal with |- context [db_add_openai_thread E ?u ?h ?w0] =>
        destruct (db_add_openai_thread E u h w0) as [oat w2|e w2|] eqn:Hadd
      end; [|discriminate Hadd..].
      injection Hadd as <- <-.
      unfold mbind at 1, M_bind at 1.
      match goal with |- context [ai_handler.create_run E ?h ?w0] =>
        destruct (create_run_outcome E h w0)
          as [(text & run & ->)|(e & evs2 & -> & Hevs2)]
      end.
      * unfold mbind, M_bind. rewrite db_add_message_run. cbn [mret M_ret].
        do 5 (split; [done|]).
        exists [EvCreateAndPoll handle (ASSISTANT_ID E);
                EvMessagesList handle run].
        split; [simpl; by rewrite <- app_assoc|]. split.
        { repeat constructor; by left. }
        left. eexists _, _, run, [EvThreadsCreate message_text].
        split; [reflexivity|]. do 3 (split; [done|]). split.
        { unfold select_openai_thread in *. apply head_None in Hsel.
          simpl. rewrite filter_app, Hsel. simpl.
          by rewrite filter_cons_True. }
        reflexivity.
      * do 5 (split; [done|]). exists evs2.
        split; [simpl; by rewrite <- app_assoc|]. split; [done|].
        right. split; [done|]. by exists e.
Qed.

(** The reply of an unclaimed conversation, step by step. *)
Lemma reply_turn_run (E : Env) (fuel : nat) (chat_id : string) (user : User)
    (thread : Thread) (message_text : string) (w1 : World) :
  reply_turn E fuel chat_id user thread message_text w1 =
  if AI_configured E then
    match ai_turn E fuel user thread message_text w1 with
    | Ok reply wr => reply_handed_out E chat_id reply wr
    | Raise e wr => reply_handed_out E chat_id (error_reply e) wr
    | Diverge => Diverge
    end
  else reply_handed_out E chat_id ("Bot echo: " +:+ message_text)
         (after_echo_stored E thread message_text w1).
Proof.
  unfold reply_turn. destruct (AI_configured E).
  - unfold mbind at 1, M_bind at 1. unfold try_catch.
    destruct (ai_turn E fuel user thread message_text w1)
      as [reply wr|e wr|]; [| |done]; apply reply_handed_out_run.
  - unfold mbind at 1, M_bind at 1, sleep, modify.
    unfold mbind at 1, M_bind at 1. rewrite db_add_message_run.
    apply reply_handed_out_run.
Qed.

(** C1: an inbound user message is stored and broadcast to the managers
    whatever the handoff set holds, and nothing but the membership of the
    identity in that set decides what follows.  If the identity is in the
    set, that is all: no provider call, no bot row, no bot frame.  If it is
    not, the responder runs.  Without AI credentials the turn sleeps four
    seconds, stores the echo of the message as a bot row and hands it to the
    user's connection and to the managers.  With them the provider is
    called, first for a thread created from the message or for the runs of
    the user's provider thread; unless the shim polls the runs of that
    thread without end, a reply is handed out the same way: the text the
    run of the assistant returned, stored as a bot row of the conversation,
    or the error text of a failed turn, which is not stored. *)
Theorem handoff_membership_gates_reply (E : Env) (fuel : nat)
    (chat_id : string) (user : User) (thread : Thread)
    (payload : gmap string string) (w : World) :
  let message_text := default "" (payload !! "message") in
  let w1 := after_user_message E chat_id thread message_text w in
  let outcome := on_user_message E fuel chat_id user thread payload w in
  (messages (db w1) =
     (messages (db w) ++
      [message_row (db w) (thread_id thread) "user" message_text
         (utcnow_plus_hour E (clock_reads w))])%list /\
   openai_threads (db w1) = openai_threads (db w) /\
   exists evs, trace w1 = (trace w ++ evs)%list /\
     Forall (fun ev => event_frame ev = Some (user_frame chat_id message_text)
                       /\ provider_event ev = false) evs) /\
  if decide (chat_id ∈ active_manager_chats w) then outcome = Ok tt w1
  else if AI_configured E then
    (outcome = Diverge /\
     exists openai_thread,
       select_openai_thread (user_id user) (db w) = Some openai_thread /\
       ai_handler.add_user_message E fuel (openai_thread_id openai_thread)
         message_text w1 = Diverge) \/
    (exists reply wr,
       outcome = reply_handed_out E chat_id reply wr /\
       ai_answered E user thread message_text w1 wr reply)
  else
    outcome = reply_handed_out E chat_id ("Bot echo: " +:+ message_text)
                (after_echo_stored E thread message_text w1).
Proof.
  intros message_text w1 outcome. subst outcome.
  pose proof (on_user_message_run E fuel chat_id user thread payload w)
    as Hrun. cbv zeta in Hrun. fold message_text in Hrun. fold w1 in Hrun.
  split.
  - split; [reflexivity|]. split; [reflexivity|].
    eexists. split; [reflexivity|].
    eapply Forall_impl; [apply broadcast_events_frames|].
    intros ev Hev. split; [exact Hev|]. by destruct ev.
  - rewrite Hrun.
    destruct (decide (chat_id ∈ active_manager_chats w)) as [Hin|Hout];
      destruct (decide (chat_id ∉ active_manager_chats w)); try done.
    rewrite reply_turn_run. destruct (AI_configured E); [|done].
    pose proof (ai_turn_outcome E fuel user thread message_text w1)
      as Hturn.
    destruct (ai_turn E fuel user thread message_text w1)
      as [reply wr|e wr|].
    + right. by exists reply, wr.
    + right. by exists (error_reply e), wr.
    + left. by split.
Qed.

(** The responder of an unclaimed conversation at work, for a user that
    has a provider thread: its runs are listed, the message is appended,
    the assistant is run, and its answer is stored and handed to the user
    and to the manager. *)
Example unclaimed_turn_calls_provider :
  exists w',
    on_user_message env_two 1 "u1" user1 thread1 {[ "message" := "hello" ]}
      w_ai = Ok tt w' /\
    trace w' =
      [EvSendText 7 (user_frame "u1" "hello"); EvRunsList "thread_1";
       EvMessagesCreate "thread_1" "hello";
       EvCreateAndPoll "thread_1" (Some "asst_1");
       EvMessagesList "thread_1" "run_1";
       EvSendText 1 (bot_frame "second");
       EvSendText 7 (bot_broadcast_frame "u1" "second")] /\
    map (fun m => (message_sender m, message_content m)) (messages (db w')) =
      [("user", "hello"); ("bot", "second")].
Proof. eexists. split; [vm_compute; reflexivity|]. split; reflexivity. Qed.

(** ** Turns of one identity *)

Lemma user_disconnect_run (chat_id : string) (w : World) :
  UserConnectionManager.disconnect chat_id w =
  Ok tt (set_user_connections (delete chat_id) w).
Proof.
  unfold UserConnectionManager.disconnect, modify, set_user_connections.
  destruct (user_connections w !! chat_id) eqn:Hreg; [done|].
  by rewrite delete_id.
Qed.

(** A pass of the loop is [on_user_message], with the flag left out. *)
Lemma on_frame_erase (E : Env) (fuel : nat) (chat_id : string)
    (user : User) (thread : Thread) (payload : gmap string string)
    (w : World) :
  (on_frame E fuel chat_id user thread payload;; mret tt) w =
  on_user_message E fuel chat_id user thread payload w.
Proof.
  rewrite on_user_message_run. cbv zeta.
  unfold on_frame. unfold mbind, M_bind.
  rewrite db_add_message_run, broadcast_run. unfold get_world.
  change (active_manager_chats (extend ?evs (set_db ?f (tick w))))
    with (active_manager_chats w).
  fold (after_user_message E chat_id thread
          (default "" (payload !! "message")) w).
  destruct (decide (chat_id ∉ active_manager_chats w)); [|done].
  unfold reply_turn. unfold mbind, M_bind.
  destruct (AI_configured E).
  - unfold try_catch.
    destruct (ai_turn E fuel user thread _ _) as [reply wr|e wr|];
      [| |done]; simpl.
    + destruct (UserConnectionManager.send_personal_message E _ chat_id wr)
        as [[] ws|e ws|]; [|done..].
      by destruct (ManagerConnectionManager.broadcast E _ ws)
        as [[] wb|e wb|].
    + destruct (UserConnectionManager.send_personal_message E _ chat_id wr)
        as [[] ws|e' ws|]; [|done..].
      by destruct (ManagerConnectionManager.broadcast E _ ws)
        as [[] wb|e' wb|].
  - destruct (sleep 4 _) as [[] w2|e w2|]; [|done..].
    destruct (db_add_message E _ _ _ w2) as [[] w3|e w3|]; [|done..].
    destruct (UserConnectionManager.send_personal_message E _ chat_id w3)
      as [[] ws|e ws|]; [|done..].
    by destruct (ManagerConnectionManager.broadcast E _ ws)
      as [[] wb|e wb|].
Qed.

Lemma on_frame_outcome (E : Env) (fuel : nat) (chat_id : string)
    (user : User) (thread : Thread) (payload : gmap string string)
    (w : World) :
  match on_frame E fuel chat_id user thread payload w with
  | Ok _ w1 => on_user_message E fuel chat_id user thread payload w = Ok tt w1
  | Raise e w1 =>
      on_user_message E fuel chat_id user thread payload w = Raise e w1
  | Diverge => on_user_message E fuel chat_id user thread payload w = Diverge
  end.
Proof.
  rewrite <- on_frame_erase. unfold mbind, M_bind.
  by destruct (on_frame E fuel chat_id user thread payload w).
Qed.

(** The echo turn of an unclaimed conversation is its two steps. *)
Lemma echo_turn_in_steps (E : Env) (fuel : nat) (chat_id : string)
    (user : User) (thread : Thread) (payload : gmap string string)
    (w : World) :
  AI_configured E = false -> chat_id ∉ active_manager_chats w ->
  on_user_message E fuel chat_id user thread payload w =
  run_schedule E chat_id thread
    (turn_steps (default "" (payload !! "message"))) w.
Proof.
  intros Hcfg Hout. rewrite on_user_message_run. cbv zeta.
  destruct (decide (chat_id ∉ active_manager_chats w)); [|done].
  rewrite reply_turn_run, Hcfg.
  unfold turn_steps, run_schedule, run_step, turn_until_sleep,
    turn_after_sleep.
  unfold mbind at 1, M_bind at 1. unfold mbind at 1, M_bind at 1.
  rewrite db_add_message_run.
  unfold mbind at 1, M_bind at 1. rewrite broadcast_run.
  unfold sleep at 1, modify at 1.
  unfold mbind at 1, M_bind at 1. unfold mbind at 1, M_bind at 1.
  rewrite db_add_message_run. rewrite reply_handed_out_run.
  unfold after_echo_stored, after_user_message.
  match goal with |- ?l = match ?r with Ok _ _ => _ | _ => _ end =>
    change r with l; by destruct l as [[] ?|? ?|] end.
Qed.

(** C9, as stated, fails: the user has two connections open and writes
    [first] on one and [second] on the other; the handler of the one sleeps
    when the frame of the other arrives, and [second] is stored before the
    reply to [first]. *)
Lemma concurrent_turns_interleave :
  ~ turns_in_sequence env_echo "u1" thread1 "first" "second"
      w_two_connections.
Proof.
  intros Hseq.
  specialize (Hseq [UntilSleep "first"; UntilSleep "second";
                    AfterSleep "first"; AfterSleep "second"]).
  discriminate Hseq; [|reflexivity].
  apply interleaving_left, interleaving_right, interleaving_left,
    interleaving_right, interleaving_nil.
Qed.

(** What the two handlers leave in the store and on the wire. *)
Example interleaved_turns_run :
  exists w',
    run_schedule env_echo "u1" thread1
      [UntilSleep "first"; UntilSleep "second";
       AfterSleep "first"; AfterSleep "second"] w_two_connections
    = Ok tt w' /\
    map message_content (messages (db w')) =
      ["first"; "second"; "Bot echo: first"; "Bot echo: second"] /\
    trace w' =
      [EvSendText 7 (user_frame "u1" "first"); EvSleep 4;
       EvSendText 7 (user_frame "u1" "second"); EvSleep 4;
       EvSendText 2 (bot_frame "Bot echo: first");
       EvSendText 7 (bot_broadcast_frame "u1" "Bot echo: first");
       EvSendText 2 (bot_frame "Bot echo: second");
       EvSendText 7 (bot_broadcast_frame "u1" "Bot echo: second")].
Proof. eexists. split; [vm_compute; reflexivity|]. split; reflexivity. Qed.

Lemma reply_handed_out_messages (E : Env) (chat_id reply : string)
    (wr : World) :
  match reply_handed_out E chat_id reply wr with
  | Ok _ w' | Raise _ w' => messages (db w') = messages (db wr)
  | Diverge => False
  end.
Proof.
  unfold reply_handed_out.
  destruct (user_connections wr !! chat_id) as [ws|]; [|done].
  by destruct (send_text_ans E (trace wr) ws (bot_frame reply)).
Qed.

(** The rows of one pass of the receive loop. *)
Lemma on_user_message_rows (E : Env) (fuel : nat) (chat_id : string)
    (user : User) (thread : Thread) (payload : gmap string string)
    (w : World) :
  match on_user_message E fuel chat_id user thread payload w with
  | Ok _ w' | Raise _ w' =>
      exists rows,
        messages (db w') = (messages (db w) ++ rows)%list /\
        turn_rows E (thread_id thread) (default "" (payload !! "message"))
          rows
  | Diverge => AI_configured E = true
  end.
Proof.
  rewrite on_user_message_run. cbv zeta.
  set (message_text := default "" (payload !! "message")).
  set (w1 := after_user_message E chat_id thread message_text w).
  set (u := message_row (db w) (thread_id thread) "user" message_text
              (utcnow_plus_hour E (clock_reads w))).
  assert (Hw1 : messages (db w1) = (messages (db w) ++ [u])%list) by done.
  destruct (decide (chat_id ∉ active_manager_chats w)).
  2: { exists [u]. split; [done|]. by constructor. }
  rewrite reply_turn_run.
  destruct (AI_configured E) eqn:Hcfg.
  - pose proof (ai_turn_outcome E fuel user thread message_text w1) as Hturn.
    assert (Hrows : forall reply wr,
              ai_answered E user thread message_text w1 wr reply ->
              exists rows,
                messages (db wr) = (messages (db w) ++ rows)%list /\
                turn_rows E (thread_id thread) message_text rows).
    { intros reply wr (_ & _ & _ & _ & _ & evs & _ & _ & Hstored).
      destruct Hstored as [(row & _ & _ & _ & Hm & Htid & Hs & _)|[Hm _]].
      - exists [u; row]. rewrite Hm, Hw1, <- app_assoc. split; [done|].
        constructor; try done. intros Hno. congruence.
      - exists [u]. rewrite Hm, Hw1. split; [done|]. by constructor. }
    destruct (ai_turn E fuel user thread message_text w1)
      as [reply wr|e wr|]; [| |done].
    + pose proof (reply_handed_out_messages E chat_id reply wr) as Hout.
      destruct (reply_handed_out E chat_id reply wr) as [[] w'|e' w'|];
        [| |done]; rewrite Hout; by eapply Hrows.
    + pose proof (reply_handed_out_messages E chat_id (error_reply e) wr)
        as Hout.
      destruct (reply_handed_out E chat_id (error_reply e) wr)
        as [[] w'|e' w'|]; [| |done]; rewrite Hout; by eapply Hrows.
  - pose proof (reply_handed_out_messages E chat_id
                  ("Bot echo: " +:+ message_text)
                  (after_echo_stored E thread message_text w1)) as Hout.
    assert (Hrows : exists rows,
              messages (db (after_echo_stored E thread message_text w1)) =
                (messages (db w) ++ rows)%list /\
              turn_rows E (thread_id thread) message_text rows).
    { eexists [u; _]. split.
      - unfold after_echo_stored. simpl. by rewrite <- app_assoc.
      - by constructor. }
    destruct (reply_handed_out E chat_id _ _) as [[] w'|e' w'|];
      [| |done]; by rewrite Hout.
Qed.

Lemma receive_loop_rows (E : Env) (expired : bool) (fuel : nat)
    (chat_id : string) (user : User) (thread : Thread)
    (inbox : list Inbound) (w : World) :
  match receive_loop E expired fuel chat_id user thread inbox w with
  | Ok _ _ => False
  | Raise _ w' =>
      exists rows,
        messages (db w') = (messages (db w) ++ rows)%list /\
        session_rows E (thread_id thread) inbox rows
  | Diverge => AI_configured E = true
  end.
Proof.
  assert (Hstop : forall inbox',
            exists rows, messages (db w) = (messages (db w) ++ rows)%list /\
                         session_rows E (thread_id thread) inbox' rows).
  { intros inbox'. exists []. rewrite app_nil_r. split; [done|constructor]. }
  revert expired w Hstop.
  induction inbox as [|[payload|] inbox IH]; intros expired w Hstop; simpl;
    [apply Hstop| |apply Hstop].
  destruct expired; [apply Hstop|].
  unfold mbind, M_bind.
  pose proof (on_user_message_rows E fuel chat_id user thread payload w)
    as Hturn.
  pose proof (on_frame_outcome E fuel chat_id user thread payload w)
    as Hframe.
  destruct (on_frame E fuel chat_id user thread payload w)
    as [expired w1|e w1|]; rewrite Hframe in Hturn; [| |done].
  - destruct Hturn as (rows & Hrows & Hshape).
    assert (Hstop1 : forall inbox',
              exists rows1,
                messages (db w1) = (messages (db w1) ++ rows1)%list /\
                session_rows E (thread_id thread) inbox' rows1).
    { intros inbox'. exists []. rewrite app_nil_r.
      split; [done|constructor]. }
    specialize (IH expired w1 Hstop1).
    destruct (receive_loop E expired fuel chat_id user thread inbox w1)
      as [[] w2|e w2|]; [done| |done].
    destruct IH as (more & Hmore & Hsession).
    exists (rows ++ more)%list. split.
    + by rewrite Hmore, Hrows, <- app_assoc.
    + by constructor.
  - destruct Hturn as (rows & Hrows & Hshape).
    exists (rows ++ [])%list. split; [by rewrite app_nil_r|].
    constructor; [done|constructor].
Qed.

(** C9 (amended): the frames of one connection are handled strictly one
    after the other.  When the session ends, the store holds, after what it
    held before, the rows of the pass over the first frame, then the rows
    of the pass over the second, and so on up to the frame the session
    ended at; the rows of a pass are the user row of the frame and then at
    most one bot row, which without AI credentials is the echo of that
    message.  Nothing orders the turns of two connections of one
    identity. *)
Theorem one_connection_is_sequential (E : Env) (fuel : nat)
    (chat_id : string) (user : User) (thread : Thread)
    (inbox : list Inbound) (w : World) :
  match serve E fuel chat_id user thread inbox w with
  | Ok _ w' =>
      exists rows,
        messages (db w') = (messages (db w) ++ rows)%list /\
        session_rows E (thread_id thread) inbox rows
  | Raise _ _ => False
  | Diverge => AI_configured E = true
  end.
Proof.
  unfold serve, try_catch.
  pose proof (receive_loop_rows E false fuel chat_id user thread inbox w)
    as Hloop.
  destruct (receive_loop E false fuel chat_id user thread inbox w)
    as [[] w2|e w2|]; [done| |done].
  by rewrite user_disconnect_run.
Qed.

(** A session after a failed AI turn: the error text is handed out, and the
    next frame ends the session before it is stored. *)
Example failed_turn_ends_session :
  exists w',
    serve env_hollow 1 "u1" user1 thread1
      [Text {[ "message" := "first" ]}; Text {[ "message" := "second" ]}]
      w_ai = Ok tt w' /\
    map (fun m => (message_sender m, message_content m)) (messages (db w')) =
      [("user", "first")] /\
    trace w' =
      [EvSendText 7 (user_frame "u1" "first"); EvRunsList "thread_1";
       EvMessagesCreate "thread_1" "first";
       EvCreateAndPoll "thread_1" (Some "asst_1");
       EvMessagesList "thread_1" "run_1";
       EvSendText 1 (bot_frame "Openai error: list index out of range.");
       EvSendText 7 (bot_broadcast_frame "u1"
                       "Openai error: list index out of range.")] /\
    user_connections w' !! "u1" = None.
Proof.
  eexists. split; [vm_compute; reflexivity|]. repeat split; reflexivity.
Qed.

(** Two frames on one connection of the known user. *)
Lemma one_connection_is_sequential_witness :
  exists w' rows,
    serve env_echo 0 "u1" user1 thread1
      [Text {[ "message" := "first" ]}; Text {[ "message" := "second" ]}]
      w_known = Ok tt w' /\
    messages (db w') = (messages (db w_known) ++ rows)%list /\
    session_rows env_echo (thread_id thread1)
      [Text {[ "message" := "first" ]}; Text {[ "message" := "second" ]}]
      rows /\
    map message_content rows =
      ["first"; "Bot echo: first"; "second"; "Bot echo: second"].
Proof.
  pose proof (one_connection_is_sequential env_echo 0 "u1" user1 thread1
                [Text {[ "message" := "first" ]};
                 Text {[ "message" := "second" ]}] w_known) as Hseq.
  destruct (serve env_echo 0 "u1" user1 thread1 _ w_known)
    as [[] w'|e w'|] eqn:Hrun; [|done|discriminate Hseq].
  destruct Hseq as (rows & Hrows & Hsession).
  exists w', rows. do 3 (split; [done|]).
  vm_compute in Hrun. injection Hrun as <-.
  simpl in Hrows. by rewrite <- Hrows.
Defined.

(** * Further properties *)

(** ** The registries *)

(** X1: connecting twice under one identity leaves the registry as a
    single connect of the second websocket would: one entry for the
    identity, holding the second websocket, and both websockets accepted. *)
Theorem connect_twice_last_wins (chat_id : string) (old new : WebSocket)
    (w : World) :
  exists w2,
    (UserConnectionManager.connect chat_id old;;
     UserConnectionManager.connect chat_id new) w = Ok tt w2 /\
    user_connections w2 = <[chat_id := new]> (user_connections w) /\
    user_connections w2 !! chat_id = Some new /\
    trace w2 = (trace w ++ [EvAccept old; EvAccept new])%list /\
    db w2 = db w /\ active_manager_chats w2 = active_manager_chats w.
Proof.
  eexists. split; [reflexivity|]. simpl.
  split; [apply insert_insert_eq|].
  split; [apply lookup_insert_eq|].
  split; [by rewrite <- app_assoc|done].
Qed.


(** X2: once an identity is disconnected, a personal message for it is
    dropped silently: no send, no exception, and whatever the environment
    would answer. *)
Theorem send_after_disconnect_is_dropped (E : Env) (frame : Frame)
    (chat_id : string) (w : World) :
  (UserConnectionManager.disconnect chat_id;;
   UserConnectionManager.send_personal_message E frame chat_id) w =
  Ok tt (set_user_connections (delete chat_id) w).
Proof.
  unfold mbind, M_bind.
  rewrite user_disconnect_run, send_personal_message_run. simpl.
  by rewrite lookup_delete_eq.
Qed.



Lemma remove_first_split (x : WebSocket) (l : list WebSocket) :
  x ∈ l ->
  exists l1 l2, l = (l1 ++ x :: l2)%list /\ (x ∉ l1) /\
                ManagerConnectionManager.remove_first x l = (l1 ++ l2)%list.
Proof.
  induction l as [|y l IH]; intros Hin; [by apply elem_of_nil in Hin|].
  simpl. destruct (Nat.eqb_spec x y) as [->|Hne].
  - exists [], l. split; [done|]. split; [apply not_elem_of_nil|done].
  - apply elem_of_cons in Hin as [?|Hin]; [done|].
    destruct (IH Hin) as (l1 & l2 & -> & Hnot & ->).
    exists (y :: l1), l2. split; [done|]. split; [|done].
    intros [?|?]%elem_of_cons; done.
Qed.

Lemma existsb_eqb_elem (x : WebSocket) (l : list WebSocket) :
  existsb (Nat.eqb x) l = true <-> x ∈ l.
Proof.
  rewrite existsb_exists, list_elem_of_In. split.
  - intros (y & Hin & Heq). by apply Nat.eqb_eq in Heq as ->.
  - intros Hin. exists x. split; [done | apply Nat.eqb_refl].
Qed.

(** X4: disconnecting a manager websocket removes its first registration
    and nothing else: the connections before and after it keep their
    places, and a second registration of the same websocket stays. *)
Theorem manager_disconnect_removes_first (websocket : WebSocket) (w : World) :
  websocket ∈ manager_connections w ->
  exists l1 l2,
    manager_connections w = (l1 ++ websocket :: l2)%list /\
    (websocket ∉ l1) /\
    ManagerConnectionManager.disconnect websocket w =
      Ok tt (set_manager_connections (fun _ => (l1 ++ l2)%list) w).
Proof.
  intros Hin.
  destruct (remove_first_split _ _ Hin) as (l1 & l2 & Hsplit & Hnot & Hrm).
  exists l1, l2. split; [done|]. split; [done|].
  unfold ManagerConnectionManager.disconnect, modify, set_manager_connections.
  apply existsb_eqb_elem in Hin. by rewrite Hin, Hrm.
Qed.

Lemma manager_disconnect_removes_first_witness :
  exists l1 l2,
    manager_connections w_managers = (l1 ++ 8 :: l2)%list /\
    (8 ∉ l1) /\
    ManagerConnectionManager.disconnect 8 w_managers =
      Ok tt (set_manager_connections (fun _ => (l1 ++ l2)%list) w_managers).
Proof.
  apply (manager_disconnect_removes_first 8 w_managers).
  simpl. rewrite !elem_of_cons. auto.
Defined.

(** X5: a manager connection that was not registered before is gone
    without a trace in the registry after its connect and disconnect; a
    disconnect of a websocket that is not registered changes nothing. *)
Theorem manager_connect_disconnect_round_trip (websocket : WebSocket)
    (w : World) :
  websocket ∉ manager_connections w ->
  ManagerConnectionManager.disconnect websocket w = Ok tt w /\
  exists w2,
    (ManagerConnectionManager.connect websocket;;
     ManagerConnectionManager.disconnect websocket) w = Ok tt w2 /\
    manager_connections w2 = manager_connections w /\
    trace w2 = (trace w ++ [EvAccept websocket])%list.
Proof.
  intros Hnot.
  assert (Hex : existsb (Nat.eqb websocket) (manager_connections w) = false).
  { destruct (existsb _ _) eqn:Hex; [|done].
    by apply existsb_eqb_elem in Hex. }
  split.
  - unfold ManagerConnectionManager.disconnect, modify,
      set_manager_connections. rewrite Hex. by destruct w.
  - eexists. split; [reflexivity|]. simpl. split; [|done].
    assert (Hin : websocket ∈ (manager_connections w ++ [websocket])%list).
    { apply elem_of_app. right. by apply list_elem_of_singleton. }
    pose proof Hin as Hex'. apply existsb_eqb_elem in Hex'. rewrite Hex'.
    destruct (remove_first_split _ _ Hin) as (l1 & l2 & Hsplit & Hn1 & ->).
    assert (Hl2 : l2 = []).
    { destruct l2 as [|z l2] using rev_ind; [done|].
      rewrite app_comm_cons, app_assoc in Hsplit.
      apply app_inj_tail in Hsplit as [Hsplit ->].
      exfalso. apply Hnot. rewrite Hsplit, elem_of_app, elem_of_cons. auto. }
    subst l2. rewrite app_nil_r.
    apply app_inj_tail in Hsplit as [-> _]. done.
Qed.

Lemma manager_connect_disconnect_round_trip_witness :
  ManagerConnectionManager.disconnect 5 w_managers = Ok tt w_managers /\
  exists w2,
    (ManagerConnectionManager.connect 5;;
     ManagerConnectionManager.disconnect 5) w_managers = Ok tt w2 /\
    manager_connections w2 = manager_connections w_managers /\
    trace w2 = (trace w_managers ++ [EvAccept 5])%list.
Proof.
  apply (manager_connect_disconnect_round_trip 5 w_managers).
  simpl. rewrite !elem_of_cons, elem_of_nil. intros [?|[?|[?|[]]]]; done.
Defined.
(** ** User sessions *)

Section Keeps.
Context (R : World -> World -> Prop).
Context (R_refl : forall w, R w w).
Context (R_trans : forall w1 w2 w3, R w1 w2 -> R w2 w3 -> R w1 w3).

Lemma keeps_ret {A : Type} (a : A) : keeps R (mret a).
Proof. intros w. apply R_refl. Qed.

Lemma keeps_raise {A : Type} (e : Exn) : keeps R (@raise A e).
Proof. intros w. apply R_refl. Qed.

Lemma keeps_get_world : keeps R get_world.
Proof. intros w. apply R_refl. Qed.

Lemma keeps_bind {A B : Type} (m : M A) (f : A -> M B) :
  keeps R m -> (forall a, keeps R (f a)) -> keeps R (m ≫= f).
Proof.
  intros Hm Hf w. unfold mbind, M_bind. specialize (Hm w).
  destruct (m w) as [a w1|e w1|]; [|done..].
  specialize (Hf a w1). destruct (f a w1); eauto.
Qed.

Lemma keeps_try_catch {A : Type} (m : M A) (h : Exn -> M A) :
  keeps R m -> (forall e, keeps R (h e)) -> keeps R (try_catch m h).
Proof.
  intros Hm Hh w. unfold try_catch. specialize (Hm w).
  destruct (m w) as [a w1|e w1|]; [done| |done].
  specialize (Hh e w1). destruct (h e w1); eauto.
Qed.

Lemma keeps_modify (f : World -> World) :
  (forall w, R w (f w)) -> keeps R (modify f).
Proof. intros Hf w. apply Hf. Qed.

(** A computation that only writes the trace keeps what the trace does not
    enter. *)
Lemma keeps_emits {A : Type} (p : Event -> Prop) (Q : A -> Prop) (m : M A) :
  (forall evs w, R w (extend evs w)) -> emits p Q m -> keeps R m.
Proof.
  intros Hext Hm w. specialize (Hm w).
  destruct (m w) as [a w1|e w1|]; [| |done].
  - destruct Hm as [(evs & -> & _) _]. apply Hext.
  - destruct Hm as (evs & -> & _). apply Hext.
Qed.
End Keeps.

Lemma session_step_refl (tid : nat) (w : World) : session_step tid w w.
Proof.
  do 5 (split; [done|]). split.
  - exists []. by rewrite app_nil_r.
  - exists []. by rewrite app_nil_r.
Qed.

Lemma session_step_trans (tid : nat) (w1 w2 w3 : World) :
  session_step tid w1 w2 -> session_step tid w2 w3 -> session_step tid w1 w3.
Proof.
  intros (Hu & Ht & Hc & Hm & Hh & (r1 & Hr1 & Hf1) & (o1 & Ho1))
         (Hu' & Ht' & Hc' & Hm' & Hh' & (r2 & Hr2 & Hf2) & (o2 & Ho2)).
  do 5 (split; [congruence|]). split.
  - exists (r1 ++ r2)%list. split; [|by apply Forall_app].
    by rewrite Hr2, Hr1, <- app_assoc.
  - exists (o1 ++ o2)%list. by rewrite Ho2, Ho1, <- app_assoc.
Qed.

Lemma session_step_extend (tid : nat) (evs : list Event) (w : World) :
  session_step tid w (extend evs w).
Proof.
  do 5 (split; [done|]). split.
  - exists []. by rewrite app_nil_r.
  - exists []. by rewrite app_nil_r.
Qed.

Lemma create_run_emits (E : Env) (thread : string) :
  emits (fun _ => True) (fun _ => True) (ai_handler.create_run E thread).
Proof.
  unfold ai_handler.create_run.
  apply emits_try_catch; [|intros e; apply emits_raise].
  eapply emits_bind; [by apply emits_external|]. intros run _.
  eapply emits_bind; [by apply emits_external|]. intros page _.
  eapply (emits_bind _ (fun _ => True)).
  - induction page as [|message page IH]; simpl; [by apply emits_ret|].
    eapply (emits_bind _ (fun _ => True)).
    + unfold ai_handler.message_to_dict.
      induction (am_content message) as [|[text|] blocks IHb]; simpl.
      * by apply emits_ret.
      * eapply emits_bind; [exact IHb|]. intros texts _. by apply emits_ret.
      * apply emits_raise.
    + intros d _. eapply emits_bind; [exact IH|].
      intros ds _. by apply emits_ret.
  - intros messages_list _.
    eapply (emits_bind _ (fun _ => True)); [|intros; by apply emits_ret].
    generalize "". induction messages_list as [|[|text blocks] rest IH];
      intros response_text; simpl.
    + by apply emits_ret.
    + apply emits_raise.
    + apply IH.
Qed.
Ltac step_bind :=
  apply (keeps_bind _ (session_step_trans _)).
Ltac step_ret :=
  first [apply (keeps_ret _ (session_step_refl _))
        |apply (keeps_get_world _ (session_step_refl _))].

Section SessionFacts.
Context (E : Env) (tid : nat).

Lemma keeps_db_add_message (sender content : string) :
  sender = "user" \/ sender = "bot" ->
  keeps (session_step tid) (db_add_message E tid sender content).
Proof.
  intros Hsender w. rewrite db_add_message_run.
  do 5 (split; [done|]). split.
  - exists [message_row (db w) tid sender content
              (utcnow_plus_hour E (clock_reads w))].
    split; [reflexivity|]. constructor; [|constructor].
    split; [reflexivity | exact Hsender].
  - exists []. by rewrite app_nil_r.
Qed.

Lemma keeps_db_add_openai_thread (uid : nat) (handle : string) :
  keeps (session_step tid) (db_add_openai_thread E uid handle).
Proof.
  intros w. simpl. do 5 (split; [done|]). split.
  - exists []. by rewrite app_nil_r.
  - eexists [_]. reflexivity.
Qed.

Lemma keeps_broadcast (frame : Frame) :
  keeps (session_step tid) (ManagerConnectionManager.broadcast E frame).
Proof. intros w. rewrite broadcast_run. apply session_step_extend. Qed.

Lemma keeps_send_personal_message (frame : Frame) (chat_id : string) :
  keeps (session_step tid)
        (UserConnectionManager.send_personal_message E frame chat_id).
Proof.
  intros w. rewrite send_personal_message_run.
  destruct (user_connections w !! chat_id) as [ws|];
    [|apply session_step_refl].
  unfold send_text. destruct (send_text_ans E (trace w) ws frame);
    rewrite log_event_extend; apply session_step_extend.
Qed.

Lemma keeps_sleep (seconds : nat) : keeps (session_step tid) (sleep seconds).
Proof. intros w. apply (session_step_extend tid [EvSleep seconds]). Qed.

Lemma keeps_ai_turn (fuel : nat) (user : User) (thread : Thread)
    (message_text : string) :
  thread_id thread = tid ->
  keeps (session_step tid) (ai_turn E fuel user thread message_text).
Proof.
  intros Htid. unfold ai_turn.
  pose proof (session_step_extend tid) as Hext.
  step_bind; [step_ret|]. intros w0. step_bind.
  - destruct (select_openai_thread (user_id user) (db w0)) as [oat|].
    + step_bind; [|intros; step_ret].
      eapply keeps_emits; [exact Hext|].
      by apply (add_user_message_emits E (fun _ => True)).
    + step_bind; [|intros; apply keeps_db_add_openai_thread].
      eapply keeps_emits; [exact Hext|].
      by apply (emits_external (fun _ => True)).
  - intros oat. step_bind.
    + eapply keeps_emits; [exact Hext|]. apply create_run_emits.
    + intros bot_response. rewrite Htid.
      step_bind; [|intros; step_ret].
      apply keeps_db_add_message. by right.
Qed.

Lemma keeps_reply_turn (fuel : nat) (chat_id : string) (user : User)
    (thread : Thread) (message_text : string) :
  thread_id thread = tid ->
  keeps (session_step tid)
        (reply_turn E fuel chat_id user thread message_text).
Proof.
  intros Htid. unfold reply_turn.
  destruct (AI_configured E).
  - step_bind.
    + apply (keeps_try_catch _ (session_step_trans tid));
        [by apply keeps_ai_turn|]. intros e. step_ret.
    + intros bot_response.
      step_bind; [apply keeps_send_personal_message|].
      intros; apply keeps_broadcast.
  - step_bind; [apply keeps_sleep|]. intros _.
    rewrite Htid. step_bind.
    + apply keeps_db_add_message. by right.
    + intros _. step_bind; [apply keeps_send_personal_message|].
      intros; apply keeps_broadcast.
Qed.
End SessionFacts.

(** X6: handling an inbound user message, on either reply branch and
    whether it completes or raises, only grows the store, by message rows
    of the session's thread with sender [user] or [bot] and by provider
    bindings.  The user and thread tables, both connection registries and
    the handoff set are as before. *)
Theorem on_user_message_only_appends (E : Env) (fuel : nat)
    (chat_id : string) (user : User) (thread : Thread)
    (payload : gmap string string) (w : World) :
  match on_user_message E fuel chat_id user thread payload w with
  | Ok _ w' | Raise _ w' => session_step (thread_id thread) w w'
  | Diverge => True
  end.
Proof.
  revert w. change (keeps (session_step (thread_id thread))
                      (on_user_message E fuel chat_id user thread payload)).
  unfold on_user_message.
  step_bind; [apply keeps_db_add_message; by left|].
  intros _. step_bind; [apply keeps_broadcast|].
  intros _. step_bind; [step_ret|].
  intros w0. destruct (decide (chat_id ∉ active_manager_chats w0)).
  - by apply keeps_reply_turn.
  - step_ret.
Qed.
Lemma echo_turn_terminates (E : Env) (fuel : nat) (chat_id : string)
    (user : User) (thread : Thread) (message_text : string) (w : World) :
  AI_configured E = false ->
  reply_turn E fuel chat_id user thread message_text w <> Diverge.
Proof.
  intros Hcfg. unfold reply_turn. rewrite Hcfg.
  unfold mbind at 1, M_bind at 1, sleep, modify.
  unfold mbind at 1, M_bind at 1. rewrite db_add_message_run.
  unfold mbind, M_bind. rewrite send_personal_message_run.
  match goal with |- context [user_connections ?w0 !! chat_id] =>
    destruct (user_connections w0 !! chat_id) as [ws|] end.
  - unfold send_text.
    match goal with |- context [send_text_ans E ?tr ws ?f] =>
      destruct (send_text_ans E tr ws f) end; [done|].
    by rewrite broadcast_run.
  - by rewrite broadcast_run.
Qed.

Lemma on_user_message_diverges (E : Env) (fuel : nat) (chat_id : string)
    (user : User) (thread : Thread) (payload : gmap string string)
    (w : World) :
  on_user_message E fuel chat_id user thread payload w = Diverge ->
  AI_configured E = true.
Proof.
  pose proof (on_user_message_run E fuel chat_id user thread payload w)
    as Hrun. cbv zeta in Hrun. rewrite Hrun.
  destruct (decide (chat_id ∉ active_manager_chats w)); [|done].
  intros Hdiv. destruct (AI_configured E) eqn:Hcfg; [done|].
  by apply echo_turn_terminates in Hdiv.
Qed.

Lemma keeps_on_user_message (E : Env) (fuel : nat) (chat_id : string)
    (user : User) (thread : Thread) (payload : gmap string string) :
  keeps (session_step (thread_id thread))
        (on_user_message E fuel chat_id user thread payload).
Proof.
  unfold on_user_message.
  step_bind; [apply keeps_db_add_message; by left|].
  intros _. step_bind; [apply keeps_broadcast|].
  intros _. step_bind; [step_ret|].
  intros w0. destruct (decide (chat_id ∉ active_manager_chats w0));
    [by apply keeps_reply_turn | step_ret].
Qed.

(** The receive loop is only left by an exception. *)
Lemma receive_loop_outcome (E : Env) (expired : bool) (fuel : nat)
    (chat_id : string) (user : User) (thread : Thread)
    (inbox : list Inbound) (w : World) :
  match receive_loop E expired fuel chat_id user thread inbox w with
  | Ok _ _ => False
  | Raise _ w' => session_step (thread_id thread) w w'
  | Diverge => AI_configured E = true
  end.
Proof.
  revert expired w.
  induction inbox as [|[payload|] inbox IH]; intros expired w; simpl.
  - apply session_step_refl.
  - destruct expired; [apply session_step_refl|].
    unfold mbind, M_bind.
    pose proof (keeps_on_user_message E fuel chat_id user thread payload w)
      as Hstep.
    pose proof (on_user_message_diverges E fuel chat_id user thread
                  payload w) as Hdiv.
    pose proof (on_frame_outcome E fuel chat_id user thread payload w)
      as Hframe.
    destruct (on_frame E fuel chat_id user thread payload w)
      as [expired w1|e w1|]; rewrite Hframe in Hstep;
      [|done|by apply Hdiv].
    specialize (IH expired w1).
    destruct (receive_loop E expired fuel chat_id user thread inbox w1)
      as [[] w2|e w2|]; [done| |done].
    by eapply session_step_trans.
  - apply session_step_refl.
Qed.

Lemma resolve_thread_ok (E : Env) (chat_id : string) (w : World) :
  exists user thread w1,
    resolve_thread E chat_id w = Ok (user, thread) w1 /\
    user_connections w1 = user_connections w /\
    manager_connections w1 = manager_connections w /\
    active_manager_chats w1 = active_manager_chats w.
Proof.
  unfold resolve_thread, mbind, M_bind, get_world.
  destruct (select_user chat_id (db w)) as [user|].
  - destruct (latest_thread (user_id user) (db w)) as [thread|].
    + by eexists _, _, _.
    + by eexists _, _, _.
  - by eexists _, _, _.
Qed.

(** X7: no exception escapes the [try] statement of a user session.
    Whatever ends the receive loop (the peer is gone, a frame does not
    parse, a send to the user fails, the session's objects have expired),
    the handler unregisters the identity and returns: the user registry is
    the one the loop started from without this identity, and the handoff
    set, the manager registry and the user and thread tables are as they
    were.  Only the polling of a configured provider can keep the statement
    from ending.  What runs before the [try] (the handshake and the look-up
    or creation of user and thread) is not covered. *)
Theorem websocket_session_outcome (E : Env) (fuel : nat) (chat_id : string)
    (user : User) (thread : Thread) (inbox : list Inbound) (w : World) :
  match serve E fuel chat_id user thread inbox w with
  | Ok _ w' =>
      user_connections w' = delete chat_id (user_connections w) /\
      active_manager_chats w' = active_manager_chats w /\
      manager_connections w' = manager_connections w /\
      users (db w') = users (db w) /\
      threads (db w') = threads (db w)
  | Raise _ _ => False
  | Diverge => AI_configured E = true
  end.
Proof.
  unfold serve, try_catch.
  pose proof (receive_loop_outcome E false fuel chat_id user thread inbox w)
    as Hloop.
  destruct (receive_loop E false fuel chat_id user thread inbox w)
    as [[] w2|e w2|]; [done| |done].
  rewrite user_disconnect_run. simpl.
  destruct Hloop as (Hu & Ht & Hc & Hm & Hh & _).
  rewrite Hc. destruct (user_connections w !! chat_id); by simpl.
Qed.
Lemma next_id_above {A : Type} (key : A -> nat) (rows : list A) (r : A) :
  r ∈ rows -> key r < next_id key rows.
Proof.
  unfold next_id. induction rows as [|x rows IH]; intros Hin.
  - by apply elem_of_nil in Hin.
  - simpl. apply elem_of_cons in Hin as [->|Hin]; [lia|].
    specialize (IH Hin). lia.
Qed.

Lemma select_user_added (chat_id : string) (d d' : DB) (user : User) :
  users d' = (users d ++ [user])%list -> user_chat_id user = chat_id ->
  select_user chat_id d = None -> select_user chat_id d' = Some user.
Proof.
  unfold select_user. intros -> Hid Hnone%head_None.
  rewrite filter_app, Hnone. simpl. by rewrite filter_cons_True.
Qed.

Lemma latest_thread_added (d d' : DB) (thread : Thread) :
  threads d' = (threads d ++ [thread])%list ->
  (forall t, t ∈ threads d -> thread_user_id t <> thread_user_id thread) ->
  latest_thread (thread_user_id thread) d' = Some thread.
Proof.
  unfold latest_thread, threads_of. intros -> Hfresh.
  rewrite filter_app.
  assert (Hnone : filter (fun t => thread_user_id t = thread_user_id thread)
                         (threads d) = []).
  { destruct (filter _ (threads d)) as [|t ts] eqn:Hf; [done|].
    assert (Hin : t ∈ filter
              (fun t => thread_user_id t = thread_user_id thread) (threads d))
      by (rewrite Hf; apply elem_of_cons; by left).
    apply list_elem_of_filter in Hin as [Hu Hin]. by apply Hfresh in Hin. }
  rewrite Hnone. simpl. by rewrite filter_cons_True.
Qed.

(** X8: on first contact of an identity, given that every thread row
    belongs to a user row, the session creates one user and one thread for
    it and nothing else; a later contact of the same identity finds exactly
    these two and creates nothing. *)
Theorem first_contact_creates_then_reuses (E : Env) (chat_id : string)
    (w : World) :
  select_user chat_id (db w) = None ->
  threads_have_users (db w) ->
  exists user thread w1,
    resolve_thread E chat_id w = Ok (user, thread) w1 /\
    users (db w1) = (users (db w) ++ [user])%list /\
    user_chat_id user = chat_id /\
    threads (db w1) = (threads (db w) ++ [thread])%list /\
    thread_user_id thread = user_id user /\
    messages (db w1) = messages (db w) /\
    resolve_thread E chat_id w1 = Ok (user, thread) w1.
Proof.
  intros Hnew Hfk.
  set (user := {| user_id := next_id user_id (users (db w));
                  user_chat_id := chat_id;
                  user_email := None; user_phone := None |}).
  set (thread := {| thread_id := next_id thread_id (threads (db w));
                    thread_user_id := user_id user;
                    thread_created_at :=
                      utcnow_plus_hour E (clock_reads w) |}).
  assert (Hrun : exists w1,
            resolve_thread E chat_id w = Ok (user, thread) w1 /\
            users (db w1) = (users (db w) ++ [user])%list /\
            threads (db w1) = (threads (db w) ++ [thread])%list /\
            messages (db w1) = messages (db w)).
  { unfold resolve_thread, mbind, M_bind, get_world. rewrite Hnew.
    eexists. split; [reflexivity|]. done. }
  destruct Hrun as (w1 & Hrun & Husers & Hthreads & Hmessages).
  exists user, thread, w1. do 6 (split; [done|]).
  unfold resolve_thread, mbind, M_bind, get_world.
  rewrite (select_user_added chat_id (db w) (db w1) user) by done.
  assert (Hlatest : latest_thread (thread_user_id thread) (db w1)
                    = Some thread).
  { apply (latest_thread_added (db w)); [done|].
    intros t Ht Hu. destruct (Hfk t Ht) as (u & Hin & Hid).
    apply (next_id_above user_id) in Hin. simpl in Hu. lia. }
  change (thread_user_id thread) with (user_id user) in Hlatest.
  by rewrite Hlatest.
Qed.

Lemma first_contact_creates_then_reuses_witness :
  exists user thread w1,
    resolve_thread env_echo "u2" w_known = Ok (user, thread) w1 /\
    users (db w1) = (users (db w_known) ++ [user])%list /\
    user_chat_id user = "u2" /\
    threads (db w1) = (threads (db w_known) ++ [thread])%list /\
    thread_user_id thread = user_id user /\
    messages (db w1) = messages (db w_known) /\
    resolve_thread env_echo "u2" w1 = Ok (user, thread) w1.
Proof.
  apply (first_contact_creates_then_reuses env_echo "u2" w_known).
  - reflexivity.
  - intros t Ht. simpl in Ht. apply list_elem_of_singleton in Ht as ->.
    exists user1. split; [|reflexivity]. simpl. by apply list_elem_of_singleton.
Defined.

(** ** The store read back *)

Lemma insert_by_snoc {A : Type} (le : A -> A -> bool) (y x : A) (s : list A) :
  le y x = true ->
  insert_by le y (s ++ [x]) = (insert_by le y s ++ [x])%list.
Proof.
  intros Hyx. induction s as [|z s IH]; simpl; [by rewrite Hyx|].
  destruct (le y z); [done|]. by rewrite IH.
Qed.

Lemma sort_by_snoc {A : Type} (le : A -> A -> bool) (x : A) (l : list A) :
  (forall y, y ∈ l -> le y x = true) ->
  sort_by le (l ++ [x]) = (sort_by le l ++ [x])%list.
Proof.
  induction l as [|y l IH]; intros Hle; simpl; [done|].
  rewrite IH by (intros z Hz; apply Hle; by apply elem_of_cons; right).
  apply insert_by_snoc. apply Hle. apply elem_of_cons. by left.
Qed.

(** Rows that no two of which compare equal have one ascending
    arrangement only. *)
Lemma sorted_perm_unique {A : Type} (R : A -> A -> Prop) (l l' : list A) :
  (forall x y, x ∈ l -> y ∈ l -> R x y -> R y x -> x = y) ->
  l ≡ₚ l' -> StronglySorted R l -> StronglySorted R l' -> l = l'.
Proof.
  revert l'. induction l as [|x l IH]; intros l' Hanti Hperm Hs Hs'.
  - by apply Permutation_nil_l in Hperm.
  - destruct l' as [|y l']; [by apply Permutation_nil_r in Hperm|].
    apply StronglySorted_inv in Hs as [Hs Hx].
    apply StronglySorted_inv in Hs' as [Hs' Hy].
    rewrite Forall_forall in Hx, Hy.
    assert (Hxy : x = y).
    { assert (Hx' : x ∈ y :: l') by (rewrite <- Hperm; by left).
      assert (Hy' : y ∈ x :: l) by (rewrite Hperm; by left).
      apply elem_of_cons in Hx' as [Heq|Hx']; [done|].
      pose proof Hy' as Hyin.
      apply elem_of_cons in Hy' as [Heq|Hy']; [done|].
      apply Hanti; [by left | done | by apply Hx | by apply Hy]. }
    subst y. apply Permutation_cons_inv in Hperm. f_equal.
    apply IH; [|done..].
    intros a b Ha Hb. apply Hanti; by right.
Qed.

Lemma dt_leb_both (a b : Datetime) :
  dt_leb a b = true -> dt_leb b a = true -> dt_compare a b = Eq.
Proof.
  unfold dt_leb. rewrite (dt_compare_antisym a b).
  by destruct (dt_compare a b).
Qed.

(** X9: a message stored in a user's conversation at a time after the
    messages already in it, when no two of those carry the same timestamp,
    is read back by the history surface as the last entry, after the
    unchanged earlier history.  The two readings do not depend on how the
    store orders rows: every ascending arrangement of the rows of the
    conversation reads the same, before and after the message is stored. *)
Theorem stored_message_is_read_back_last (E : Env) (chat_id : string)
    (user : User) (thread : Thread) (sender content : string) (w : World) :
  select_user chat_id (db w) = Some user ->
  latest_thread (user_id user) (db w) = Some thread ->
  (forall m, m ∈ messages (db w) -> message_thread_id m = thread_id thread ->
     dt_compare (message_timestamp m) (utcnow_plus_hour E (clock_reads w))
       = Lt) ->
  (forall m m', m ∈ messages (db w) -> m' ∈ messages (db w) ->
     message_thread_id m = thread_id thread ->
     message_thread_id m' = thread_id thread ->
     dt_compare (message_timestamp m) (message_timestamp m') = Eq ->
     m = m') ->
  exists history w',
    get_chat_history chat_id w = Ok history w /\
    (db_add_message E (thread_id thread) sender content;;
     get_chat_history chat_id) w =
      Ok (history ++ [history_entry sender content
                        (utcnow_plus_hour E (clock_reads w))])%list w' /\
    (forall rows,
       rows ≡ₚ filter (fun m => message_thread_id m = thread_id thread)
                      (messages (db w)) ->
       StronglySorted (fun a b => dt_leb (message_timestamp a)
                                         (message_timestamp b) = true) rows ->
       history_of rows = history) /\
    (forall rows,
       rows ≡ₚ filter (fun m => message_thread_id m = thread_id thread)
                      (messages (db w')) ->
       StronglySorted (fun a b => dt_leb (message_timestamp a)
                                         (message_timestamp b) = true) rows ->
       history_of rows =
         (history ++ [history_entry sender content
                        (utcnow_plus_hour E (clock_reads w))])%list).
Proof.
  intros Huser Hthread Hclock Hdistinct.
  set (now_ := utcnow_plus_hour E (clock_reads w)).
  set (row := message_row (db w) (thread_id thread) sender content now_).
  set (w' := set_db (add_message (thread_id thread) sender content now_)
                    (tick w)).
  assert (Hafter : messages_of (thread_id thread) (db w') =
                   (messages_of (thread_id thread) (db w) ++ [row])%list).
  { unfold messages_of. simpl.
    rewrite filter_app, filter_cons_True, filter_nil by done.
    apply sort_by_snoc.
    intros m [Htid Hin]%list_elem_of_filter. unfold dt_leb.
    change (message_timestamp row) with now_.
    pose proof (Hclock m Hin Htid) as Hlt. fold now_ in Hlt.
    by rewrite Hlt. }
  exists (history_of (messages_of (thread_id thread) (db w))), w'.
  split; [|split; [|split]].
  - unfold get_chat_history, mbind, M_bind, get_world.
    by rewrite Huser, Hthread.
  - unfold mbind at 1, M_bind at 1. rewrite db_add_message_run.
    unfold get_chat_history, mbind, M_bind, get_world.
    change (select_user chat_id (db (set_db ?f (tick w))))
      with (select_user chat_id (db w)).
    rewrite Huser.
    change (latest_thread (user_id user) (db (set_db ?f (tick w))))
      with (latest_thread (user_id user) (db w)).
    rewrite Hthread. unfold mret, M_ret. f_equal.
    fold now_. fold w'. rewrite Hafter.
    unfold history_of. by rewrite map_app.
  - intros rows Hperm Hsorted. f_equal.
    apply (sorted_perm_unique
             (fun a b => dt_leb (message_timestamp a) (message_timestamp b)
                         = true)); [| |done|apply messages_of_sorted].
    + intros x y Hx Hy Hxy Hyx.
      rewrite Hperm in Hx, Hy.
      apply list_elem_of_filter in Hx as [Hx1 Hx2].
      apply list_elem_of_filter in Hy as [Hy1 Hy2].
      apply Hdistinct; [done..|]. by apply dt_leb_both.
    + by rewrite Hperm, messages_of_full.
  - intros rows Hperm Hsorted.
    change (history_of rows =
            history_of (messages_of (thread_id thread) (db w)) ++
            history_of [row])%list.
    unfold history_of at 2 3. rewrite <- map_app, <- Hafter.
    fold (history_of (messages_of (thread_id thread) (db w'))). f_equal.
    apply (sorted_perm_unique
             (fun a b => dt_leb (message_timestamp a) (message_timestamp b)
                         = true)); [| |done|apply messages_of_sorted].
    + intros x y Hx Hy Hxy Hyx.
      pose proof (dt_leb_both _ _ Hxy Hyx) as Heq.
      rewrite Hperm in Hx, Hy.
      apply list_elem_of_filter in Hx as [Hx1 Hx2].
      apply list_elem_of_filter in Hy as [Hy1 Hy2].
      simpl in Hx2, Hy2.
      apply elem_of_app in Hx2 as [Hx2|Hx2];
        apply elem_of_app in Hy2 as [Hy2|Hy2].
      * by apply Hdistinct.
      * apply list_elem_of_singleton in Hy2. subst y.
        simpl in Heq. unfold now_ in Heq.
        by rewrite (Hclock x Hx2 Hx1) in Heq.
      * apply list_elem_of_singleton in Hx2. subst x.
        simpl in Heq. unfold now_ in Heq.
        rewrite dt_compare_antisym, (Hclock y Hy2 Hy1) in Heq.
        discriminate Heq.
      * apply list_elem_of_singleton in Hx2.
        apply list_elem_of_singleton in Hy2. congruence.
    + by rewrite Hperm, messages_of_full.
Qed.

(** The conversation of [alice], which holds a message and its reply. *)
Lemma stored_message_is_read_back_last_witness :
  exists w',
    get_chat_history "visitor-alice" w_listing =
      Ok [history_entry "user" "hello" (clock0 2);
          history_entry "bot" "Bot echo: hello" (clock0 3)] w_listing /\
    (db_add_message env_echo 1 "manager" "hi";;
     get_chat_history "visitor-alice") w_listing =
      Ok [history_entry "user" "hello" (clock0 2);
          history_entry "bot" "Bot echo: hello" (clock0 3);
          history_entry "manager" "hi" (clock0 6)] w'.
Proof.
  destruct (stored_message_is_read_back_last env_echo "visitor-alice"
              (mk_user 1 "visitor-alice")
              {| thread_id := 1; thread_user_id := 1;
                 thread_created_at := clock0 0 |}
              "manager" "hi" w_listing)
    as (history & w' & Hbefore & Hafter & _).
  - reflexivity.
  - reflexivity.
  - intros m Hin Htid. simpl in Hin.
    repeat (apply elem_of_cons in Hin as [-> | Hin];
            [first [reflexivity | discriminate Htid]|]).
    by apply elem_of_nil in Hin.
  - intros m m' Hin Hin' Htid Htid' Heq. simpl in Hin, Hin'.
    repeat (apply elem_of_cons in Hin as [-> | Hin];
            [|try (by apply elem_of_nil in Hin)]);
    repeat (apply elem_of_cons in Hin' as [-> | Hin'];
            [|try (by apply elem_of_nil in Hin')]);
    first [reflexivity | discriminate Htid | discriminate Htid'
          | discriminate Heq].
  - exists w'. vm_compute in Hbefore. injection Hbefore as <-.
    split; [reflexivity|exact Hafter].
Defined.

Lemma StronglySorted_map {A B : Type} (R : B -> B -> Prop) (f : A -> B)
    (l : list A) :
  StronglySorted (fun a b => R (f a) (f b)) l -> StronglySorted R (map f l).
Proof.
  induction 1 as [|x l Hs IH Hx]; simpl; constructor; [done|].
  clear Hs IH. induction Hx; simpl; by constructor.
Qed.

(** X10: for a known user the history surface changes nothing and returns
    one entry per message of the user's latest conversation, no more and no
    less, with timestamps, read as text, in non-decreasing order. *)
Theorem history_is_complete_and_ordered (chat_id : string) (user : User)
    (thread : Thread) (w : World) :
  select_user chat_id (db w) = Some user ->
  latest_thread (user_id user) (db w) = Some thread ->
  (forall m, m ∈ messages (db w) -> dt_valid (message_timestamp m)) ->
  exists rows,
    get_chat_history chat_id w = Ok (history_of rows) w /\
    rows ≡ₚ filter (fun m => message_thread_id m = thread_id thread)
              (messages (db w)) /\
    StronglySorted
      (fun a b => String.leb (h_timestamp a) (h_timestamp b) = true)
      (history_of rows).
Proof.
  intros Huser Hthread Hvalid.
  exists (messages_of (thread_id thread) (db w)).
  split; [|split].
  - unfold get_chat_history, mbind, M_bind, get_world.
    by rewrite Huser, Hthread.
  - apply messages_of_full.
  - apply StronglySorted_map. simpl.
    assert (Hall : Forall (fun m => dt_valid (message_timestamp m))
                          (messages_of (thread_id thread) (db w))).
    { apply Forall_forall. intros m Hin. apply Hvalid.
      by apply messages_of_elem in Hin as [_ ?]. }
    pose proof (messages_of_sorted (thread_id thread) (db w)) as Hs.
    induction Hs as [|m ms Hs IH Hm]; constructor.
    + apply IH. by apply Forall_inv_tail in Hall.
    + apply Forall_inv in Hall as Hvm.
      apply Forall_inv_tail in Hall. rewrite Forall_forall in *.
      intros m' Hin. rewrite isoformat_leb; auto.
Qed.

Lemma history_is_complete_and_ordered_witness :
  exists rows,
    get_chat_history "visitor-alice" w_listing = Ok (history_of rows) w_listing
    /\
    rows ≡ₚ filter (fun m => message_thread_id m = 1) (messages db_listing) /\
    StronglySorted
      (fun a b => String.leb (h_timestamp a) (h_timestamp b) = true)
      (history_of rows).
Proof.
  apply (history_is_complete_and_ordered "visitor-alice"
           (mk_user 1 "visitor-alice")
           {| thread_id := 1; thread_user_id := 1;
              thread_created_at := clock0 0 |} w_listing);
    [reflexivity..|].
  intros m Hin. simpl in Hin.
  repeat (apply elem_of_cons in Hin as [-> | Hin];
          [unfold dt_valid; simpl; lia|]).
  by apply elem_of_nil in Hin.
Defined.

(** X11: the conversation the handlers work with is the user's own and the
    one created last; they find none exactly when no thread row belongs to
    the user. *)
Theorem latest_thread_is_most_recent (uid : nat) (d : DB) :
  match latest_thread uid d with
  | Some thread =>
      thread ∈ threads d /\ thread_user_id thread = uid /\
      forall t, t ∈ threads d -> thread_user_id t = uid ->
        dt_leb (thread_created_at t) (thread_created_at thread) = true
  | None => forall t, t ∈ threads d -> thread_user_id t <> uid
  end.
Proof.
  destruct (latest_thread uid d) as [thread|] eqn:Hlatest.
  - by apply latest_thread_latest.
  - unfold latest_thread in Hlatest. apply head_None in Hlatest.
    intros t Ht Hu.
    assert (Hin : t ∈ threads_of uid d).
    { unfold threads_of. rewrite sort_by_perm.
      by apply list_elem_of_filter. }
    rewrite Hlatest in Hin. by apply elem_of_nil in Hin.
Qed.

Lemma latest_thread_is_most_recent_witness :
  latest_thread 4 db_listing =
    Some {| thread_id := 4; thread_user_id := 4;
            thread_created_at := clock0 4 |} /\
  dt_leb (clock0 1) (clock0 4) = true /\
  latest_thread 3 db_listing = None.
Proof.
  pose proof (latest_thread_is_most_recent 4 db_listing) as H4.
  pose proof (latest_thread_is_most_recent 3 db_listing) as H3.
  split; [reflexivity|]. split; [|reflexivity].
  destruct (latest_thread 4 db_listing) as [thread|] eqn:Hlatest;
    [|discriminate].
  injection Hlatest as <-. destruct H4 as (_ & _ & Hmax).
  apply (Hmax {| thread_id := 3; thread_user_id := 4;
                 thread_created_at := clock0 1 |}); [|reflexivity].
  simpl. rewrite !elem_of_cons. auto.
Defined.

(** ** The manager-send surface, further *)

Lemma send_manager_message_run (E : Env) (payload : ManagerPayload)
    (chat_id message : string) (w : World) :
  p_chat_id payload = Some chat_id -> chat_id <> "" ->
  p_message payload = Some message -> message <> "" ->
  let w0 := set_active_manager_chats
              (handoff_after chat_id (p_managerStatus payload)) w in
  send_manager_message E payload w =
  match select_user chat_id (db w) with
  | None => Raise (HTTPException 404 "User not found") w0
  | Some user =>
      match latest_thread (user_id user) (db w) with
      | None => Raise (HTTPException 404 "Thread not found") w0
      | Some thread =>
          (db_add_message E (thread_id thread)
             (stored_sender (p_action payload)) message;;
           UserConnectionManager.send_personal_message E
             (manager_user_frame message (p_action payload)) chat_id;;
           ManagerConnectionManager.broadcast E
             (manager_broadcast_frame chat_id message (p_action payload));;
           mret [("status", "ok")]) w0
      end
  end.
Proof.
  intros Hc Hc0 Hm Hm0 w0. unfold send_manager_message.
  rewrite Hc, Hm. simpl.
  apply String.eqb_neq in Hc0, Hm0. rewrite Hc0, Hm0. simpl.
  unfold mbind at 1, M_bind at 1.
  assert (Htoggle :
    (if negb (is_none (p_managerStatus payload))
     then if truthy (p_managerStatus payload)
          then modify (set_active_manager_chats (fun s => s ∪ {[chat_id]}))
          else modify (set_active_manager_chats (fun s => s ∖ {[chat_id]}))
     else mret tt) w = Ok tt w0).
  { subst w0. unfold handoff_after, toggle_handoff.
    destruct (is_none (p_managerStatus payload)); simpl.
    - unfold mret, M_ret. by destruct w.
    - by destruct (truthy (p_managerStatus payload)). }
  rewrite Htoggle. unfold mbind at 1, M_bind at 1, get_world.
  change (db w0) with (db w).
  destruct (select_user chat_id (db w)) as [user|]; [|done].
  destruct (latest_thread (user_id user) (db w)) as [thread|]; [|done].
  unfold manager_user_frame, stored_sender, manager_broadcast_frame.
  by destruct (truthy (p_action payload)).
Qed.

(** X12: a manager message for a known user with a conversation, whose
    connection (if any) takes the send, is answered [{"status": "ok"}].  One
    row is stored, with sender [manager] when the request has no [action]
    and [action] otherwise; the frame for the user says [action] only when
    [action] is truthy; the frame for the managers says [manager ] with a
    trailing space without [action] and [action] otherwise.  So a falsy,
    non-null [action] is stored as [action] but shown to the user as
    [manager]. *)
Theorem manager_message_is_stored_and_sent (E : Env)
    (payload : ManagerPayload) (chat_id message : string) (user : User)
    (thread : Thread) (w : World) :
  p_chat_id payload = Some chat_id -> chat_id <> "" ->
  p_message payload = Some message -> message <> "" ->
  select_user chat_id (db w) = Some user ->
  latest_thread (user_id user) (db w) = Some thread ->
  (forall ws tr frame, user_connections w !! chat_id = Some ws ->
                       send_text_ans E tr ws frame = None) ->
  exists w',
    send_manager_message E payload w = Ok [("status", "ok")] w' /\
    messages (db w') =
      (messages (db w) ++
       [message_row (db w) (thread_id thread)
          (stored_sender (p_action payload)) message
          (utcnow_plus_hour E (clock_reads w))])%list /\
    trace w' =
      (trace w ++
       match user_connections w !! chat_id with
       | Some ws =>
           [EvSendText ws (manager_user_frame message (p_action payload))]
       | None => []
       end ++
       broadcast_events E
         (trace w ++
          match user_connections w !! chat_id with
          | Some ws =>
              [EvSendText ws (manager_user_frame message (p_action payload))]
          | None => []
          end)
         (manager_connections w)
         (manager_broadcast_frame chat_id message (p_action payload)))%list /\
    active_manager_chats w' =
      handoff_after chat_id (p_managerStatus payload) (active_manager_chats w).
Proof.
  intros Hc Hc0 Hm Hm0 Huser Hthread Hsend.
  rewrite (send_manager_message_run E payload chat_id message w) by done.
  rewrite Huser, Hthread.
  set (w0 := set_active_manager_chats _ w).
  unfold mbind at 1, M_bind at 1. rewrite db_add_message_run.
  unfold mbind at 1, M_bind at 1. rewrite send_personal_message_run.
  change (user_connections (set_db _ (tick w0))) with (user_connections w).
  destruct (user_connections w !! chat_id) as [ws|] eqn:Hreg.
  - unfold send_text. rewrite (Hsend ws _ _ eq_refl).
    unfold mbind, M_bind. rewrite broadcast_run.
    eexists. split; [reflexivity|]. simpl.
    split; [done|]. split; [|done]. by rewrite <- app_assoc.
  - unfold mbind, M_bind. rewrite broadcast_run.
    eexists. split; [reflexivity|]. simpl.
    split; [done|]. split; [|done]. by rewrite app_nil_r.
Qed.

Lemma manager_message_is_stored_and_sent_witness :
  exists w',
    send_manager_message env_echo payload_action_false w_known
      = Ok [("status", "ok")] w' /\
    map message_sender (messages (db w')) = ["action"] /\
    trace w' =
      [EvSendText 1 [("type", "message"); ("message", "note");
                     ("sender", "manager")];
       EvSendText 7 [("chat_id", "u1"); ("type", "message");
                     ("message", "note"); ("sender", "action")]].
Proof.
  destruct (manager_message_is_stored_and_sent env_echo payload_action_false
              "u1" "note" user1 thread1 w_known)
    as (w' & Hrun & Hrows & Htrace & _);
    [reflexivity|discriminate|reflexivity|discriminate|reflexivity
    |reflexivity|reflexivity|].
  exists w'. split; [exact Hrun|]. split.
  - rewrite Hrows. reflexivity.
  - rewrite Htrace. reflexivity.
Defined.

(** X13: a manager message for a user row that has no conversation is
    answered 404 [Thread not found]; nothing is stored or sent, and the
    handoff update of the request, if it carried one, stays. *)
Theorem manager_send_thread_not_found (E : Env) (payload : ManagerPayload)
    (chat_id message : string) (user : User) (w : World) :
  p_chat_id payload = Some chat_id -> chat_id <> "" ->
  p_message payload = Some message -> message <> "" ->
  select_user chat_id (db w) = Some user ->
  latest_thread (user_id user) (db w) = None ->
  send_manager_message E payload w =
    Raise (HTTPException 404 "Thread not found")
      (set_active_manager_chats
         (handoff_after chat_id (p_managerStatus payload)) w).
Proof.
  intros Hc Hc0 Hm Hm0 Huser Hthread.
  rewrite (send_manager_message_run E payload chat_id message w) by done.
  by rewrite Huser, Hthread.
Qed.

Lemma manager_send_thread_not_found_witness :
  send_manager_message env_echo payload_claim_u9 w_threadless =
    Raise (HTTPException 404 "Thread not found")
      (set_active_manager_chats
         (handoff_after "u9" (PBool true)) w_threadless).
Proof.
  apply (manager_send_thread_not_found env_echo payload_claim_u9 "u9" "hi"
           (mk_user 2 "u9") w_threadless);
    try reflexivity; discriminate.
Defined.

(** ** The provider shim, further *)

Lemma count_events_app (c : Event -> bool) (l1 l2 : list Event) :
  count_events c (l1 ++ l2) = count_events c l1 + count_events c l2.
Proof.
  unfold count_events. by rewrite List.filter_app, length_app.
Qed.

Section EmitsLe.
Context (c : Event -> bool).

Lemma emits_le_ret {A : Type} (n : nat) (Q : A -> Prop) (a : A) :
  Q a -> emits_le c n Q (mret a).
Proof.
  intros Ha w. split; [|done]. exists []. rewrite extend_nil.
  split; [done|]. unfold count_events. simpl. lia.
Qed.

Lemma emits_le_raise {A : Type} (n : nat) (Q : A -> Prop) (e : Exn) :
  emits_le c n Q (raise e).
Proof.
  intros w. exists []. rewrite extend_nil.
  split; [done|]. unfold count_events. simpl. lia.
Qed.

Lemma emits_le_diverge {A : Type} (n : nat) (Q : A -> Prop) :
  emits_le c n Q diverge.
Proof. by intros w. Qed.

Lemma emits_le_bind {A B : Type} (n1 n2 : nat) (Q : A -> Prop)
    (R : B -> Prop) (m : M A) (f : A -> M B) :
  emits_le c n1 Q m -> (forall a, Q a -> emits_le c n2 R (f a)) ->
  emits_le c (n1 + n2) R (m ≫= f).
Proof.
  intros Hm Hf w. unfold mbind, M_bind. specialize (Hm w).
  destruct (m w) as [a w1|e w1|]; [| |done].
  - destruct Hm as [(evs1 & -> & Hn1) Ha].
    specialize (Hf a Ha (extend evs1 w)).
    destruct (f a (extend evs1 w)) as [b w2|e w2|]; [| |done].
    + destruct Hf as [(evs2 & -> & Hn2) Hb]. split; [|done].
      exists (evs1 ++ evs2)%list. rewrite extend_extend, count_events_app.
      split; [done|lia].
    + destruct Hf as (evs2 & -> & Hn2).
      exists (evs1 ++ evs2)%list. rewrite extend_extend, count_events_app.
      split; [done|lia].
  - destruct Hm as (evs1 & -> & Hn1). exists evs1. split; [done|lia].
Qed.

Lemma emits_le_try_catch {A : Type} (n1 n2 : nat) (Q : A -> Prop)
    (m : M A) (h : Exn -> M A) :
  emits_le c n1 Q m -> (forall e, emits_le c n2 Q (h e)) ->
  emits_le c (n1 + n2) Q (try_catch m h).
Proof.
  intros Hm Hh w. unfold try_catch. specialize (Hm w).
  destruct (m w) as [a w1|e w1|]; [| |done].
  - destruct Hm as [(evs1 & -> & Hn1) Ha]. split; [|done].
    exists evs1. split; [done|lia].
  - destruct Hm as (evs1 & -> & Hn1).
    specialize (Hh e (extend evs1 w)).
    destruct (h e (extend evs1 w)) as [b w2|e2 w2|]; [| |done].
    + destruct Hh as [(evs2 & -> & Hn2) Hb]. split; [|done].
      exists (evs1 ++ evs2)%list. rewrite extend_extend, count_events_app.
      split; [done|lia].
    + destruct Hh as (evs2 & -> & Hn2).
      exists (evs1 ++ evs2)%list. rewrite extend_extend, count_events_app.
      split; [done|lia].
Qed.

Lemma emits_le_external {A : Type} (ev : Event)
    (ans : list Event -> Exn + A) :
  emits_le c (if c ev then 1 else 0) (fun _ => True) (external ev ans).
Proof.
  intros w. unfold external.
  assert (Hn : count_events c [ev] <= (if c ev then 1 else 0)).
  { unfold count_events. simpl. by destruct (c ev). }
  destruct (ans (trace w)); [|split; [|done]]; by exists [ev].
Qed.

Lemma emits_le_sleep (seconds : nat) :
  emits_le c (if c (EvSleep seconds) then 1 else 0) (fun _ => True)
           (sleep seconds).
Proof.
  intros w. split; [|done]. exists [EvSleep seconds]. split; [done|].
  unfold count_events. simpl. by destruct (c (EvSleep seconds)).
Qed.

Lemma emits_le_weaken {A : Type} (n n' : nat) (Q Q' : A -> Prop) (m : M A) :
  n <= n' -> (forall a, Q a -> Q' a) ->
  emits_le c n Q m -> emits_le c n' Q' m.
Proof.
  intros Hn HQ Hm w. specialize (Hm w).
  destruct (m w) as [a w1|e w1|]; [| |done].
  - destruct Hm as [(evs & -> & Hle) Ha]. split; [|by apply HQ].
    exists evs. split; [done|lia].
  - destruct Hm as (evs & -> & Hle). exists evs. split; [done|lia].
Qed.
End EmitsLe.

Section AppendBound.
Context (E : Env).

Lemma wait_active_runs_appends_nothing (fuel : nat) (thread : string) :
  emits_le is_messages_create 0 (fun active_runs => active_runs = [])
           (ai_handler.wait_active_runs E fuel thread).
Proof.
  induction fuel as [|fuel IH]; simpl; [apply emits_le_diverge|].
  apply (emits_le_bind _ 0 0 (fun _ => True));
    [apply (emits_le_external is_messages_create (EvRunsList thread))|].
  intros runs _.
  destruct (List.filter ai_handler.in_progress runs) as [|r rs].
  - by apply emits_le_ret.
  - apply (emits_le_bind _ 0 0 (fun _ => True));
      [apply (emits_le_sleep is_messages_create 1)|]. intros _ _. apply IH.
Qed.

Lemma check_active_runs_appends_nothing (fuel : nat) (thread : string) :
  emits_le is_messages_create 0 (fun _ => True)
           (ai_handler.check_active_runs E fuel thread).
Proof.
  induction fuel as [|fuel IH]; simpl; [apply emits_le_diverge|].
  apply (emits_le_bind _ 0 0 (fun _ => True));
    [apply (emits_le_external is_messages_create (EvRunsList thread))|].
  intros runs _.
  destruct (List.filter ai_handler.in_progress runs) as [|r rs].
  - by apply emits_le_ret.
  - apply (emits_le_bind _ 0 0 (fun _ => True));
      [apply (emits_le_sleep is_messages_create 1)|]. intros _ _. apply IH.
Qed.

Lemma messages_create_appends_once (thread content : string) :
  emits_le is_messages_create 1 (fun _ => True)
           (ai_handler.messages_create E thread content).
Proof.
  apply (emits_le_external is_messages_create
           (EvMessagesCreate thread content)).
Qed.

(** The retry loop appends at most once per unit of its budget. *)
Lemma send_attempts_bound (budget attempt : nat)
    (thread user_message : string) :
  emits_le is_messages_create budget (fun _ => True)
           (ai_handler.send_attempts E budget attempt thread user_message).
Proof.
  revert attempt. induction budget as [|budget IH]; intros attempt; simpl;
    destruct (attempt <? ai_handler.max_attempts)%nat;
    try (by apply emits_le_ret); [apply emits_le_diverge|].
  apply (emits_le_try_catch _ 1 budget).
  - apply (emits_le_bind _ 1 0 (fun _ => True));
      [apply messages_create_appends_once|].
    intros _ _. by apply emits_le_ret.
  - intros [status detail|msg|msg| |msg]; try apply emits_le_raise.
    destruct (str_contains _ msg); [|apply emits_le_raise].
    apply (emits_le_bind _ 0 budget (fun _ => True));
      [apply (emits_le_sleep is_messages_create 1)|]. intros _ _. apply IH.
Qed.

Lemma add_user_message_bound (fuel : nat) (thread user_message : string) :
  emits_le is_messages_create 6 (fun _ => True)
           (ai_handler.add_user_message E fuel thread user_message).
Proof.
  unfold ai_handler.add_user_message.
  apply (emits_le_try_catch _ 6 0); [|intros e; apply emits_le_raise].
  apply (emits_le_bind _ 0 6 (fun active_runs => active_runs = []));
    [apply wait_active_runs_appends_nothing|].
  intros active_runs ->.
  apply (emits_le_bind _ 5 1 (fun _ => True));
    [apply (send_attempts_bound ai_handler.max_attempts)|].
  intros [attempt|] _; [|by apply emits_le_ret].
  destruct (ai_handler.max_attempts <=? attempt)%nat;
    [|by apply emits_le_ret].
  apply (emits_le_bind _ 0 1 (fun _ => True)); [by apply emits_le_ret|].
  intros _ _.
  apply (emits_le_bind _ 0 1 (fun _ => True));
    [apply check_active_runs_appends_nothing|].
  intros [] _; [|by apply emits_le_ret].
  apply (emits_le_try_catch _ 1 0); [apply messages_create_appends_once|].
  intros e; apply emits_le_raise.
Qed.
End AppendBound.

Lemma extend_inj (evs1 evs2 : list Event) (w : World) :
  extend evs1 w = extend evs2 w -> evs1 = evs2.
Proof.
  intros Heq. assert (Htr : trace (extend evs1 w) = trace (extend evs2 w))
    by (by rewrite Heq).
  simpl in Htr. by apply app_inv_head in Htr.
Qed.

(** X14: whatever the provider answers and whether it returns or raises,
    [add_user_message] changes nothing but the trace, asks the provider to
    append the message at most six times, and never submits tool outputs
    for a run. *)
Theorem add_user_message_effects (E : Env) (fuel : nat)
    (thread user_message : string) (w : World) :
  match ai_handler.add_user_message E fuel thread user_message w with
  | Ok _ w' | Raise _ w' =>
      exists evs,
        w' = extend evs w /\
        count_events is_messages_create evs <= 6 /\
        count_events is_submit evs = 0
  | Diverge => True
  end.
Proof.
  pose proof (add_user_message_bound E fuel thread user_message w) as Hle.
  assert (Hsub : emits not_submit (fun _ => True)
            (ai_handler.add_user_message E fuel thread user_message))
    by (by apply add_user_message_emits).
  specialize (Hsub w).
  assert (Hcount : forall evs, Forall not_submit evs ->
                               count_events is_submit evs = 0).
  { intros evs Hall. unfold count_events.
    induction Hall as [|ev evs Hev _ IH]; [done|].
    simpl. unfold not_submit in Hev. by rewrite Hev. }
  destruct (ai_handler.add_user_message E fuel thread user_message w)
    as [[] w'|e w'|]; [| |done].
  - destruct Hle as [(evs & -> & Hn) _], Hsub as [(evs' & Heq & Hall) _].
    apply extend_inj in Heq as <-. exists evs. auto.
  - destruct Hle as (evs & -> & Hn), Hsub as (evs' & Heq & Hall).
    apply extend_inj in Heq as <-. exists evs. auto.
Qed.

Lemma wait_active_runs_idle (E : Env) (fuel : nat) (thread : string)
    (runs : list Run) (w : World) :
  runs_list_ans E (trace w) thread = inr runs ->
  List.filter ai_handler.in_progress runs = [] ->
  ai_handler.wait_active_runs E (S fuel) thread w =
    Ok [] (log_event (EvRunsList thread) w).
Proof.
  intros Hans Hidle. simpl.
  unfold mbind, M_bind, ai_handler.runs_list, external.
  by rewrite Hans, Hidle.
Qed.

(** X15: when the provider lists no run in progress and takes the append,
    [add_user_message] is done after these two calls: no pause, no further
    listing. *)
Theorem add_user_message_idle_provider (E : Env) (fuel : nat)
    (thread user_message : string) (runs : list Run) (w : World) :
  runs_list_ans E (trace w) thread = inr runs ->
  List.filter ai_handler.in_progress runs = [] ->
  messages_create_ans E (trace w ++ [EvRunsList thread]) thread user_message
    = inr tt ->
  ai_handler.add_user_message E (S fuel) thread user_message w =
    Ok tt (extend [EvRunsList thread; EvMessagesCreate thread user_message] w).
Proof.
  intros Hlist Hidle Hcreate. unfold ai_handler.add_user_message, try_catch.
  unfold mbind at 1, M_bind at 1.
  rewrite (wait_active_runs_idle E fuel thread runs w Hlist Hidle).
  unfold mbind at 1, M_bind at 1. simpl ai_handler.send_attempts.
  unfold try_catch, mbind, M_bind, ai_handler.messages_create, external.
  simpl trace. rewrite Hcreate. unfold mret, M_ret.
  by rewrite !log_event_extend, extend_extend.
Qed.

Lemma add_user_message_idle_provider_witness :
  ai_handler.add_user_message env_echo 1 "thread_1" "hello" w_known =
    Ok tt (extend [EvRunsList "thread_1";
                   EvMessagesCreate "thread_1" "hello"] w_known).
Proof.
  apply (add_user_message_idle_provider env_echo 0 "thread_1" "hello" []
           w_known); reflexivity.
Defined.

(** X16: an append the provider refuses for any reason other than a run
    being active is not retried: the error is raised to the caller after
    the one attempt. *)
Theorem add_user_message_refused (E : Env) (fuel : nat)
    (thread user_message : string) (runs : list Run) (e : Exn) (w : World) :
  runs_list_ans E (trace w) thread = inr runs ->
  List.filter ai_handler.in_progress runs = [] ->
  messages_create_ans E (trace w ++ [EvRunsList thread]) thread user_message
    = inl e ->
  busy_rejection e = false ->
  ai_handler.add_user_message E (S fuel) thread user_message w =
    Raise e (extend [EvRunsList thread;
                     EvMessagesCreate thread user_message] w).
Proof.
  intros Hlist Hidle Hcreate Hbusy.
  unfold ai_handler.add_user_message.
  unfold try_catch at 1. unfold mbind at 1, M_bind at 1.
  rewrite (wait_active_runs_idle E fuel thread runs w Hlist Hidle).
  unfold mbind at 1, M_bind at 1. simpl ai_handler.send_attempts.
  unfold try_catch, mbind, M_bind, ai_handler.messages_create, external.
  simpl trace. rewrite Hcreate.
  assert (Hw : log_event (EvMessagesCreate thread user_message)
                 (log_event (EvRunsList thread) w) =
               extend [EvRunsList thread;
                       EvMessagesCreate thread user_message] w)
    by (by rewrite !log_event_extend, extend_extend).
  destruct e as [status detail|msg|msg| |msg]; simpl in Hbusy |- *;
    try (by rewrite Hw).
  rewrite Hbusy. by rewrite Hw.
Qed.

Lemma add_user_message_refused_witness :
  ai_handler.add_user_message env_refusing 1 "thread_1" "hello" w_ai =
    Raise (BadRequestError "Invalid 'content': string too long.")
      (extend [EvRunsList "thread_1";
               EvMessagesCreate "thread_1" "hello"] w_ai).
Proof.
  apply (add_user_message_refused env_refusing 0 "thread_1" "hello"
           [run_1 "completed"] _ w_ai); reflexivity.
Defined.

Section CreateRunFacts.
Context (E : Env).

Lemma message_to_dict_text (message : AssistantMessage) (w : World) :
  text_only message ->
  ai_handler.message_to_dict message w = Ok (block_texts message) w.
Proof.
  unfold ai_handler.message_to_dict, text_only, block_texts.
  induction (am_content message) as [|[text|] blocks IH]; intros Hall.
  - done.
  - simpl. unfold mbind, M_bind.
    rewrite IH by (by apply Forall_inv_tail in Hall). done.
  - apply Forall_inv in Hall. by destruct Hall.
Qed.

Lemma messages_to_dicts_text (page : list AssistantMessage) (w : World) :
  Forall text_only page ->
  ai_handler.messages_to_dicts page w = Ok (map block_texts page) w.
Proof.
  induction page as [|message page IH]; intros Hall; [done|]. simpl.
  unfold mbind, M_bind.
  rewrite message_to_dict_text by (by apply Forall_inv in Hall).
  rewrite IH by (by apply Forall_inv_tail in Hall). done.
Qed.

Lemma last_response_text_full (response_text : string)
    (dicts : list (list string)) (w : World) :
  Forall (fun d => d <> []) dicts ->
  ai_handler.last_response_text response_text dicts w =
    Ok (match last dicts with
        | Some d => default "" (head d)
        | None => response_text
        end) w.
Proof.
  revert response_text.
  induction dicts as [|[|text blocks] rest IH]; intros response_text Hall.
  - done.
  - apply Forall_inv in Hall. done.
  - simpl ai_handler.last_response_text.
    rewrite IH by (by apply Forall_inv_tail in Hall).
    destruct rest as [|d rest]; [done|]. rewrite last_cons_cons.
    destruct (last (d :: rest)) eqn:Hlast; [done|].
    by apply last_None in Hlast.
Qed.

Lemma last_response_text_hollow (response_text : string)
    (dicts : list (list string)) (w : World) :
  Exists (fun d => d = []) dicts ->
  ai_handler.last_response_text response_text dicts w =
    Raise (PyException "list index out of range") w.
Proof.
  revert response_text.
  induction dicts as [|[|text blocks] rest IH]; intros response_text Hex.
  - by apply Exists_nil in Hex.
  - done.
  - simpl. apply IH. by apply Exists_cons in Hex as [?|?].
Qed.
End CreateRunFacts.

(** X17: when the provider completes the run and lists its messages, all
    made of text blocks and none without a block, [create_run] returns the
    first block of the last listed message, passed through the citation
    filter, after exactly these two calls; for an empty list it returns
    the filtered empty text. *)
Theorem create_run_returns_last_message (E : Env) (thread : string)
    (run : Run) (page : list AssistantMessage) (w : World) :
  create_and_poll_ans E (trace w) thread = inr run ->
  messages_list_ans E
    (trace w ++ [EvCreateAndPoll thread (ASSISTANT_ID E)])
    thread (run_id run) = inr page ->
  Forall (fun message => text_only message /\ am_content message <> [])
         page ->
  ai_handler.create_run E thread w =
    Ok (re_sub_citations E (run_text page))
       (extend [EvCreateAndPoll thread (ASSISTANT_ID E);
                EvMessagesList thread (run_id run)] w).
Proof.
  intros Hrun Hpage Hall.
  unfold ai_handler.create_run, try_catch.
  unfold mbind at 1, M_bind at 1, external. rewrite Hrun.
  unfold mbind at 1, M_bind at 1, external. simpl trace. rewrite Hpage.
  unfold mbind at 1, M_bind at 1.
  rewrite messages_to_dicts_text
    by (eapply Forall_impl; [exact Hall|]; by intros m [? _]).
  unfold mbind at 1, M_bind at 1.
  rewrite last_response_text_full.
  - unfold mret, M_ret, ai_handler.remove_square_brackets.
    rewrite !log_event_extend, extend_extend. f_equal. f_equal.
    unfold run_text. rewrite last_map.
    by destruct (last page).
  - apply Forall_forall. intros d Hd.
    apply list_elem_of_In, in_map_iff in Hd as (m & <- & Hm).
    rewrite Forall_forall in Hall.
    apply list_elem_of_In, Hall in Hm as [_ Hne].
    unfold block_texts. by destruct (am_content m).
Qed.

Lemma create_run_returns_last_message_witness :
  ai_handler.create_run env_two "thread_1" w_ai =
    Ok "second"
       (extend [EvCreateAndPoll "thread_1" (Some "asst_1");
                EvMessagesList "thread_1" "run_1"] w_ai).
Proof.
  apply (create_run_returns_last_message env_two "thread_1"
           (run_1 "completed") page_two w_ai); [reflexivity..|].
  repeat constructor; try discriminate; by eexists.
Defined.

(** X18: when one of the listed messages, all made of text blocks, has no
    content block at all, [create_run] raises [list index out of range]
    after the two calls, whatever the other messages hold. *)
Theorem create_run_hollow_message (E : Env) (thread : string)
    (run : Run) (page : list AssistantMessage) (w : World) :
  create_and_poll_ans E (trace w) thread = inr run ->
  messages_list_ans E
    (trace w ++ [EvCreateAndPoll thread (ASSISTANT_ID E)])
    thread (run_id run) = inr page ->
  Forall text_only page ->
  Exists (fun message => am_content message = []) page ->
  ai_handler.create_run E thread w =
    Raise (PyException "list index out of range")
       (extend [EvCreateAndPoll thread (ASSISTANT_ID E);
                EvMessagesList thread (run_id run)] w).
Proof.
  intros Hrun Hpage Hall Hex.
  unfold ai_handler.create_run, try_catch.
  unfold mbind at 1, M_bind at 1, external. rewrite Hrun.
  unfold mbind at 1, M_bind at 1, external. simpl trace. rewrite Hpage.
  unfold mbind at 1, M_bind at 1.
  rewrite messages_to_dicts_text by done.
  unfold mbind at 1, M_bind at 1.
  rewrite last_response_text_hollow.
  - unfold raise. by rewrite !log_event_extend, extend_extend.
  - apply Exists_exists in Hex as (m & Hm & Hempty).
    apply Exists_exists. exists (block_texts m). split.
    + apply list_elem_of_In, in_map_iff. exists m.
      split; [done|]. by apply list_elem_of_In.
    + unfold block_texts. by rewrite Hempty.
Qed.

Lemma create_run_hollow_message_witness :
  ai_handler.create_run env_hollow "thread_1" w_ai =
    Raise (PyException "list index out of range")
       (extend [EvCreateAndPoll "thread_1" (Some "asst_1");
                EvMessagesList "thread_1" "run_1"] w_ai).
Proof.
  apply (create_run_hollow_message env_hollow "thread_1"
           (run_1 "completed") page_hollow w_ai); [reflexivity..| |].
  - repeat constructor; by eexists.
  - apply Exists_cons_tl, Exists_cons_hd. reflexivity.
Defined.

(** ** AI turns *)

Lemma raise_bind_inv {A B : Type} (m : M A) (f : A -> M B) (e : Exn)
    (w w' : World) :
  (m ≫= f) w = Raise e w' ->
  m w = Raise e w' \/ exists a w1, m w = Ok a w1 /\ f a w1 = Raise e w'.
Proof.
  unfold mbind, M_bind.
  destruct (m w) as [a w1|e1 w1|]; [|intros [= -> ->]; by left|done].
  intros Hf. right. by exists a, w1.
Qed.

Lemma keeps_outcome_raise {A : Type} (R : World -> World -> Prop) (m : M A)
    (e : Exn) (w w' : World) :
  keeps R m -> m w = Raise e w' -> R w w'.
Proof. intros Hm Hrun. specialize (Hm w). by rewrite Hrun in Hm. Qed.

Lemma keeps_outcome_ok {A : Type} (R : World -> World -> Prop) (m : M A)
    (a : A) (w w' : World) :
  keeps R m -> m w = Ok a w' -> R w w'.
Proof. intros Hm Hrun. specialize (Hm w). by rewrite Hrun in Hm. Qed.

Section AiTurnFacts.
Context (E : Env).

Lemma same_messages_trans (w1 w2 w3 : World) :
  same_messages w1 w2 -> same_messages w2 w3 -> same_messages w1 w3.
Proof. unfold same_messages. congruence. Qed.

Lemma keeps_messages_add_user_message (fuel : nat)
    (thread user_message : string) :
  keeps same_messages
        (ai_handler.add_user_message E fuel thread user_message).
Proof.
  eapply keeps_emits; [done|].
  by apply (add_user_message_emits E (fun _ => True)).
Qed.

Lemma keeps_messages_create_run (thread : string) :
  keeps same_messages (ai_handler.create_run E thread).
Proof. eapply keeps_emits; [done|]. apply create_run_emits. Qed.

(** The part of an AI turn before the reply is stored. *)
Lemma keeps_messages_binding (fuel : nat) (user : User)
    (message_text : string) (w0 : World) :
  keeps same_messages
    (match select_openai_thread (user_id user) (db w0) with
     | None =>
         handle ← ai_handler.create_thread E message_text;
         db_add_openai_thread E (user_id user) handle
     | Some openai_thread =>
         ai_handler.add_user_message E fuel
           (openai_thread_id openai_thread) message_text;;
         mret openai_thread
     end).
Proof.
  destruct (select_openai_thread (user_id user) (db w0)) as [oat|].
  - apply (keeps_bind _ same_messages_trans);
      [apply keeps_messages_add_user_message|].
    intros _ w. done.
  - apply (keeps_bind _ same_messages_trans).
    + eapply keeps_emits; [done|].
      by apply (emits_external (fun _ => True)).
    + intros handle w. done.
Qed.

Lemma ai_turn_raise_keeps_messages (fuel : nat) (user : User)
    (thread : Thread) (message_text : string) (e : Exn) (w wr : World) :
  ai_turn E fuel user thread message_text w = Raise e wr ->
  same_messages w wr.
Proof.
  unfold ai_turn. intros Hrun.
  apply raise_bind_inv in Hrun as [Hrun|(w0 & w1 & Hget & Hrun)];
    [done|].
  injection Hget as <- <-.
  apply raise_bind_inv in Hrun as [Hrun|(oat & w1 & Hbind & Hrun)].
  { eapply keeps_outcome_raise; [apply keeps_messages_binding|exact Hrun]. }
  apply (keeps_outcome_ok _ _ _ _ _ (keeps_messages_binding _ _ _ _))
    in Hbind.
  apply raise_bind_inv in Hrun as [Hrun|(resp & w2 & Hcreate & Hrun)].
  { eapply same_messages_trans; [exact Hbind|].
    eapply keeps_outcome_raise; [apply keeps_messages_create_run|exact Hrun]. }
  apply raise_bind_inv in Hrun as [Hrun|(u & w3 & _ & Hrun)];
    [by rewrite db_add_message_run in Hrun | done].
Qed.
End AiTurnFacts.

(** X19: when the AI turn of a configured responder fails, the user and
    the managers are sent the text [Openai error: <error>.] as the bot's
    reply, and this reply is not stored: the message table is as the failed
    turn found it. *)
Theorem failed_ai_turn_is_answered_not_stored (E : Env) (fuel : nat)
    (chat_id : string) (user : User) (thread : Thread)
    (message_text : string) (e : Exn) (w wr : World) :
  AI_configured E = true ->
  ai_turn E fuel user thread message_text w = Raise e wr ->
  reply_turn E fuel chat_id user thread message_text w =
    (UserConnectionManager.send_personal_message E
       (bot_frame (error_reply e)) chat_id;;
     ManagerConnectionManager.broadcast E
       (bot_broadcast_frame chat_id (error_reply e))) wr /\
  match reply_turn E fuel chat_id user thread message_text w with
  | Ok _ w' | Raise _ w' => messages (db w') = messages (db w)
  | Diverge => False
  end.
Proof.
  intros Hcfg Hturn.
  assert (Hrun : reply_turn E fuel chat_id user thread message_text w =
    (UserConnectionManager.send_personal_message E
       (bot_frame (error_reply e)) chat_id;;
     ManagerConnectionManager.broadcast E
       (bot_broadcast_frame chat_id (error_reply e))) wr).
  { unfold reply_turn. rewrite Hcfg.
    unfold mbind at 1, M_bind at 1, try_catch. by rewrite Hturn. }
  split; [exact Hrun|]. rewrite Hrun.
  apply ai_turn_raise_keeps_messages in Hturn. unfold same_messages in Hturn.
  unfold mbind, M_bind. rewrite send_personal_message_run.
  destruct (user_connections wr !! chat_id) as [ws|].
  - unfold send_text.
    destruct (send_text_ans E (trace wr) ws (bot_frame (error_reply e)));
      [done|]. by rewrite broadcast_run.
  - by rewrite broadcast_run.
Qed.

Lemma failed_ai_turn_is_answered_not_stored_witness :
  match reply_turn env_refusing 1 "u1" user1 thread1 "hello" w_ai with
  | Ok _ w' | Raise _ w' => messages (db w') = messages (db w_ai)
  | Diverge => False
  end.
Proof.
  refine (proj2 (failed_ai_turn_is_answered_not_stored env_refusing 1 "u1"
                   user1 thread1 "hello"
                   (BadRequestError "Invalid 'content': string too long.")
                   w_ai _ _ _)); [reflexivity|].
  vm_compute. reflexivity.
Defined.








Section BindingFacts.
Context (E : Env).







End BindingFacts.



(** ** The citation filter *)

Example strip_citations_examples :
  strip_citations ("See the manual" +:+ opener +:+ "4:0" +:+ closer +:+ ".")
    = "See the manual." /\
  strip_citations ("a" +:+ opener +:+ closer +:+ "b")
    = "a" +:+ opener +:+ closer +:+ "b" /\
  strip_citations ("a" +:+ opener +:+ "never closed")
    = "a" +:+ opener +:+ "never closed" /\
  strip_citations (opener +:+ "x" +:+ opener +:+ "y" +:+ closer +:+ "z")
    = "z".
Proof. repeat split. Qed.

(** The byte triples are the two brackets. *)
Example brackets_utf8 : opener = "【" /\ closer = "】".
Proof. split; reflexivity. Qed.

Lemma not_bracket_lead (c : ascii) :
  c <> "227"%char -> Ascii.eqb c "227" = false.
Proof. apply Ascii.eqb_neq. Qed.

Lemma strip_plain_outside (c : ascii) (r : string) :
  c <> "227"%char ->
  strip_citations_from (String c r) None =
  String c (strip_citations_from r None).
Proof.
  intros Hc. simpl. destruct r as [|c2 [|c3 r3]]; try done.
  unfold is_closer, is_opener. by rewrite (not_bracket_lead c Hc).
Qed.

Lemma strip_plain_inside (c : ascii) (r run : string) :
  c <> "227"%char ->
  strip_citations_from (String c r) (Some run) =
  strip_citations_from r (Some (run +:+ String c EmptyString)).
Proof.
  intros Hc. simpl. destruct r as [|c2 [|c3 r3]]; try done.
  unfold is_closer, is_opener. by rewrite (not_bracket_lead c Hc).
Qed.

Lemma strip_closer_inside (r run : string) :
  run <> EmptyString ->
  strip_citations_from (closer +:+ r) (Some run) = strip_citations_from r None.
Proof. intros Hrun. by destruct run. Qed.

Lemma string_app_not_empty (run : string) (c : ascii) :
  run +:+ String c EmptyString <> EmptyString.
Proof. by destruct run. Qed.

Lemma strip_run_closed (c b run : string) :
  bracket_free c -> run <> EmptyString \/ c <> EmptyString ->
  strip_citations_from (c +:+ closer +:+ b) (Some run) =
  strip_citations_from b None.
Proof.
  revert run. induction c as [|x c IH]; intros run Hc Hne.
  - destruct Hne as [Hne|Hne]; [|done]. by apply strip_closer_inside.
  - destruct Hc as [Hx Hc].
    change (String x c +:+ closer +:+ b)
      with (String x (c +:+ closer +:+ b)).
    rewrite strip_plain_inside by done.
    apply IH; [done|]. left. apply string_app_not_empty.
Qed.

(** X21: text without the byte 227, so any text without the two brackets
    and without other characters encoded with that first byte, passes the
    citation filter unchanged. *)
Theorem strip_citations_plain (content : string) :
  bracket_free content -> strip_citations content = content.
Proof.
  unfold strip_citations. induction content as [|c content IH]; [done|].
  intros [Hc Hrest]. rewrite strip_plain_outside by done. by rewrite IH.
Qed.

Lemma strip_citations_plain_witness :
  strip_citations "Hello, how can I help?" = "Hello, how can I help?".
Proof.
  apply (strip_citations_plain "Hello, how can I help?").
  simpl. repeat split; discriminate.
Defined.

(** X22: a citation mark, that is an opening bracket, some text and a
    closing bracket, is cut out of the text around it: what stands before
    it stays, and the filter goes on behind it. *)
Theorem strip_citations_cuts_mark (before mark rest : string) :
  bracket_free before -> bracket_free mark -> mark <> EmptyString ->
  strip_citations (before +:+ opener +:+ mark +:+ closer +:+ rest) =
  before +:+ strip_citations rest.
Proof.
  unfold strip_citations. intros Hbefore Hmark Hne.
  induction before as [|c before IH].
  - change (EmptyString +:+ ?s) with s.
    change (strip_citations_from (opener +:+ mark +:+ closer +:+ rest) None)
      with (strip_citations_from (mark +:+ closer +:+ rest)
              (Some EmptyString)).
    apply strip_run_closed; auto.
  - destruct Hbefore as [Hc Hbefore].
    change (String c before +:+ ?s) with (String c (before +:+ s)).
    rewrite strip_plain_outside by done. by rewrite IH.
Qed.

Lemma strip_citations_cuts_mark_witness :
  strip_citations ("See the manual" +:+ opener +:+ "4:0†source" +:+ closer
                   +:+ " for details.")
  = "See the manual" +:+ strip_citations " for details.".
Proof.
  apply (strip_citations_cuts_mark "See the manual" "4:0†source"
           " for details.").
  - simpl. repeat split; discriminate.
  - simpl. repeat split; discriminate.
  - discriminate.
Defined.

(** ** Labels of the listing *)

(** X23: the label of every listed chat is the end of its identity, cut
    at a character: the identity is some text followed by the label, the
    label does not begin inside a character and has six characters, or as
    many as the identity has when those are fewer; an identity of at most
    six characters is its own label.  Characters are code points, so a
    label of six Cyrillic letters is twelve bytes long. *)
Theorem listing_labels_are_suffixes (w : World) :
  exists chats,
    get_manager_chats w = Ok chats w /\
    Forall (fun chat =>
              (exists p, c_id chat = p +:+ c_userName chat) /\
              char_count (c_userName chat)
                = Nat.min 6 (char_count (c_id chat)) /\
              starts_character (c_userName chat) /\
              (starts_character (c_id chat) -> char_count (c_id chat) <= 6 ->
               c_userName chat = c_id chat))
           chats.
Proof.
  eexists. split; [reflexivity|].
  unfold sort_chats. rewrite sort_by_perm, collect_chats_filter.
  apply Forall_forall. intros chat Hin.
  apply list_elem_of_In, in_map_iff in Hin as (user & <- & _).
  apply last6_label.
Qed.

(** A listing with an identity that ends in Cyrillic letters. *)
Lemma listing_labels_are_suffixes_witness :
  exists chats,
    get_manager_chats w_cyrillic = Ok chats w_cyrillic /\
    map (fun chat => (c_id chat, c_userName chat, char_count (c_userName chat),
                      String.length (c_userName chat))) chats =
      [("visitor-даша", "r-даша", 6, 10); ("bob", "bob", 3, 3)] /\
    Forall (fun chat =>
              (exists p, c_id chat = p +:+ c_userName chat) /\
              char_count (c_userName chat)
                = Nat.min 6 (char_count (c_id chat)) /\
              starts_character (c_userName chat) /\
              (starts_character (c_id chat) -> char_count (c_id chat) <= 6 ->
               c_userName chat = c_id chat))
           chats.
Proof.
  destruct (listing_labels_are_suffixes w_cyrillic) as (chats & Hrun & Hall).
  exists chats. split; [exact Hrun|]. split; [|exact Hall].
  vm_compute in Hrun. by injection Hrun as <-.
Defined.

(** ** Sends that fail *)

(** X24: when the send of the echo reply to the user's connection raises,
    the turn ends with that exception: the reply is already stored, and the
    managers are not sent it. *)
Theorem echo_reply_send_failure (E : Env) (fuel : nat) (chat_id : string)
    (user : User) (thread : Thread) (payload : gmap string string)
    (ws : WebSocket) (e : Exn) (w : World) :
  let t := default "" (payload !! "message") in
  let reply := "Bot echo: " +:+ t in
  let wr := after_echo_stored E thread t
              (after_user_message E chat_id thread t w) in
  AI_configured E = false ->
  chat_id ∉ active_manager_chats w ->
  user_connections w !! chat_id = Some ws ->
  send_text_ans E (trace wr) ws (bot_frame reply) = Some e ->
  on_user_message E fuel chat_id user thread payload w =
    Raise e (log_event (EvSendFailed ws (bot_frame reply)) wr) /\
  map message_sender (messages (db wr)) =
    (map message_sender (messages (db w)) ++ ["user"; "bot"])%list.
Proof.
  intros t reply wr Hcfg Hfree Hreg Hsend. split.
  - pose proof (on_user_message_run E fuel chat_id user thread payload w)
      as Hrun. cbv zeta in Hrun. rewrite Hrun. clear Hrun.
    destruct (decide (chat_id ∉ active_manager_chats w)); [|contradiction].
    fold t. unfold reply_turn. rewrite Hcfg.
    unfold mbind at 1, M_bind at 1, sleep, modify.
    unfold mbind at 1, M_bind at 1. rewrite db_add_message_run.
    change (set_db _ (tick (log_event (EvSleep 4)
              (after_user_message E chat_id thread t w)))) with wr.
    fold reply. unfold mbind, M_bind. rewrite send_personal_message_run.
    change (user_connections wr) with (user_connections w).
    rewrite Hreg. unfold send_text. by rewrite Hsend.
  - subst wr. unfold after_echo_stored, after_user_message. simpl.
    rewrite !map_app. simpl. by rewrite <- app_assoc.
Qed.

Lemma echo_reply_send_failure_witness :
  on_user_message env_dead1 0 "u1" user1 thread1 {[ "message" := "hello" ]}
    w_known =
    Raise (PyException "closed")
      (log_event (EvSendFailed 1 (bot_frame "Bot echo: hello"))
         (after_echo_stored env_dead1 thread1 "hello"
            (after_user_message env_dead1 "u1" thread1 "hello" w_known))).
Proof.
  refine (proj1 (echo_reply_send_failure env_dead1 0 "u1" user1 thread1
                   {[ "message" := "hello" ]} 1 (PyException "closed")
                   w_known _ _ _ _)).
  - reflexivity.
  - simpl. apply not_elem_of_empty.
  - reflexivity.
  - reflexivity.
Defined.

(** X25: when the send of a manager message to the user's connection
    raises, the request fails with that exception: the message is already
    stored and the handoff update applied, and the managers are not sent
    the message. *)
Theorem manager_message_send_failure (E : Env) (payload : ManagerPayload)
    (chat_id message : string) (user : User) (thread : Thread)
    (ws : WebSocket) (e : Exn) (w : World) :
  let wr := after_manager_stored E payload chat_id message thread w in
  p_chat_id payload = Some chat_id -> chat_id <> "" ->
  p_message payload = Some message -> message <> "" ->
  select_user chat_id (db w) = Some user ->
  latest_thread (user_id user) (db w) = Some thread ->
  user_connections w !! chat_id = Some ws ->
  send_text_ans E (trace wr) ws
    (manager_user_frame message (p_action payload)) = Some e ->
  send_manager_message E payload w =
    Raise e (log_event
               (EvSendFailed ws
                  (manager_user_frame message (p_action payload))) wr) /\
  messages (db wr) =
    (messages (db w) ++
     [message_row (db w) (thread_id thread)
        (stored_sender (p_action payload)) message
        (utcnow_plus_hour E (clock_reads w))])%list.
Proof.
  intros wr Hc Hc0 Hm Hm0 Huser Hthread Hreg Hsend. split; [|reflexivity].
  rewrite (send_manager_message_run E payload chat_id message w) by done.
  rewrite Huser, Hthread.
  unfold mbind at 1, M_bind at 1. rewrite db_add_message_run.
  change (set_db _ (tick _)) with wr.
  unfold mbind at 1, M_bind at 1. rewrite send_personal_message_run.
  change (user_connections wr) with (user_connections w).
  rewrite Hreg. unfold send_text. by rewrite Hsend.
Qed.

Lemma manager_message_send_failure_witness :
  send_manager_message env_dead1 payload_hi w_known =
    Raise (PyException "closed")
      (log_event (EvSendFailed 1 (manager_user_frame "hi" PNone))
         (after_manager_stored env_dead1 payload_hi "u1" "hi" thread1
            w_known)).
Proof.
  refine (proj1 (manager_message_send_failure env_dead1 payload_hi "u1" "hi"
                   user1 thread1 1 (PyException "closed") w_known
                   _ _ _ _ _ _ _ _)); try reflexivity; discriminate.
Defined.
